(** * Layer containers of neon (neon/layers/container.py)

    A shallow embedding of the container classes [Sequential], [Tree],
    [MergeBroadcast], [ResidualModule] and [Multicost], and the properties
    their specification states.  Part I is the model, Part II the
    properties.

    Conventions.
    - Python objects carry the address they were allocated at ([oid]); the
      [is] operator compares addresses.  Constructors draw the address of
      the object they create from an allocation counter.
    - An exception is a value of [exn]; code that can raise returns a
      [result].
    - Python floats are idealised as exact rationals ([Q]); no statement
      below depends on rounding.
    - A tensor is the list of its elements and a buffer holds the tensor
      last written to it; the extent of a view inside a larger buffer is
      not modelled.
    - Leaf layers, the tensor backend and the persistence helpers live in
      other modules of neon.  What the containers need from them is taken
      as a section variable, or modelled from the specification in a
      definition that says so.
    - A method a container calls on a child ([set_deltas], [bprop],
      [fprop], [allocate]) is dispatched on the child's class.  The model
      takes the dispatch as a parameter; a theorem that is about leaf
      children says so in its hypotheses.
    - Dimensions and sizes are mathematical integers. *)

From Stdlib Require Import ZArith QArith String List Lia.
From stdpp Require Import base decidable option list gmap strings.
From Equations Require Import Equations.

Set Warnings "-register-all".

Open Scope Z_scope.
Open Scope nat_scope.
Open Scope list_scope.

(** * Part I: the model *)

(** ** Exceptions and results *)

Inductive exn : Type :=
| AssertionError
| AttributeError
| ImportError
| IndexError
| KeyError
| TypeError
| UnboundLocalError
| ValueError.

Inductive result (A : Type) : Type :=
| Ok (a : A)
| Raise (e : exn).
Arguments Ok {A} a.
Arguments Raise {A} e.

Definition is_ok {A : Type} (r : result A) : bool :=
  match r with Ok _ => true | Raise _ => false end.

(** ** Objects *)

Abbreviation oid := nat.

(** The leaf classes of neon.layers.layer that container.py names, and any
    other leaf class by its name. *)
Inductive leaf_class : Type :=
| BranchNode
| Dropout
| DataTransform
| Convolution
| OtherLeaf (name : string).

(** The layer classes: what [type(x)] can answer for a layer, and
    [LayerContainer] itself, which no constructor of this file instantiates
    but whose [gen_class] can be called. *)
Inductive pytype : Type :=
| TLeaf (c : leaf_class)
| TSequential
| TTree
| TMergeBroadcast
| TMergeMultistream
| TResidualModule
| TLayerContainer.

#[global] Instance leaf_class_eq_dec : EqDecision leaf_class.
Proof. solve_decision. Defined.

#[global] Instance pytype_eq_dec : EqDecision pytype.
Proof. solve_decision. Defined.

(** The attributes of a leaf layer that the containers read:
    [owns_output], and for a convolution [convparams['K']] and
    [convparams['str_h']]. *)
Record leaf_obj : Type := MkLeaf {
  leaf_id : oid;
  leaf_cls : leaf_class;
  leaf_owns_output : bool;
  leaf_K : Z;
  leaf_str_h : Z
}.

(** A layer object.  A container holds its children in [layers]; the other
    fields are the attributes its [__init__] sets. *)
Inductive layer : Type :=
| Leaf (x : leaf_obj)
| SequentialObj (o : oid) (owns_output : bool) (layers _layers : list layer)
| TreeObj (o : oid) (owns_output : bool) (layers : list layer)
    (alphas betas : list Q)
| MergeBroadcastObj (o : oid) (multistream : bool) (layers : list layer)
    (betas alphas : list Q) (merge : string)
| ResidualModuleObj (o : oid) (layers : list layer) (skip_layer : option layer).

Definition id_of (l : layer) : oid :=
  match l with
  | Leaf x => leaf_id x
  | SequentialObj o _ _ _ => o
  | TreeObj o _ _ _ _ => o
  | MergeBroadcastObj o _ _ _ _ _ => o
  | ResidualModuleObj o _ _ => o
  end.

Definition type_of (l : layer) : pytype :=
  match l with
  | Leaf x => TLeaf (leaf_cls x)
  | SequentialObj _ _ _ _ => TSequential
  | TreeObj _ _ _ _ _ => TTree
  | MergeBroadcastObj _ ms _ _ _ _ =>
      if ms then TMergeMultistream else TMergeBroadcast
  | ResidualModuleObj _ _ _ => TResidualModule
  end.

Definition owns_output_of (l : layer) : bool :=
  match l with
  | Leaf x => leaf_owns_output x
  | SequentialObj _ b _ _ => b
  | TreeObj _ b _ _ _ => b
  | MergeBroadcastObj _ _ _ _ _ _ => true
  | ResidualModuleObj _ _ _ => true
  end.

(** [self.layers] of a container; a leaf has no such attribute. *)
Definition layers_of (l : layer) : list layer :=
  match l with
  | Leaf _ => []
  | SequentialObj _ _ ls _ => ls
  | TreeObj _ _ ls _ _ => ls
  | MergeBroadcastObj _ _ ls _ _ _ => ls
  | ResidualModuleObj _ ls _ => ls
  end.

(** [self._layers] of a Sequential. *)
Definition _layers_of (self : layer) : list layer :=
  match self with
  | SequentialObj _ _ _ _ls => _ls
  | _ => []
  end.

(** [self.skip_layer] of a ResidualModule. *)
Definition skip_layer_of (self : layer) : option layer :=
  match self with
  | ResidualModuleObj _ _ sk => sk
  | _ => None
  end.

(** [a is b] *)
Definition py_is (a b : layer) : bool := Nat.eqb (id_of a) (id_of b).

(** ** Constructor arguments

    The [layers] argument of [Sequential] is a layer, or a list or tuple
    nested to any depth with layers at its leaves. *)

Inductive iterable_kind : Type := PyList | PyTuple.

Inductive nested : Type :=
| NLayer (l : layer)
| NIter (k : iterable_kind) (items : list nested).

(** [flatten]: an item with [__iter__] yields what its items yield, in
    order; any other item yields itself. *)
Fixpoint flatten (item : nested) : list layer :=
  match item with
  | NLayer l => [l]
  | NIter _ items => flat_map flatten items
  end.

(** Nesting depth of the argument: a flat list has depth 1. *)
Fixpoint nesting_depth (item : nested) : nat :=
  match item with
  | NLayer _ => 0
  | NIter _ items => S (foldr Nat.max 0 (map nesting_depth items))
  end.

Fixpoint nested_size (item : nested) : nat :=
  match item with
  | NLayer _ => 1
  | NIter _ items => S (foldr Nat.add 0 (map nested_size items))
  end.

Definition stack_size (stk : list nested) : nat :=
  foldr Nat.add 0 (map nested_size stk).

(** The specification's order: a depth-first, left-to-right walk of the
    nested structure with an explicit stack of the items still to visit.  A
    layer on top of the stack is visited; a list on top is replaced by its
    items, the leftmost on top. *)
Equations? dfs_walk (stk : list nested) : list layer by wf (stack_size stk) lt :=
  dfs_walk [] := [];
  dfs_walk (NLayer l :: rest) := l :: dfs_walk rest;
  dfs_walk (NIter _ items :: rest) := dfs_walk (items ++ rest).
Proof.
  unfold stack_size. rewrite map_app, foldr_app. simpl.
  generalize (foldr Nat.add 0 (map nested_size rest)) as r.
  induction (map nested_size items) as [|n ns IH]; intros r; simpl.
  - lia.
  - specialize (IH r). lia.
Qed.

Definition depth_first_left_to_right (item : nested) : list layer :=
  dfs_walk [item].

(** ** Construction

    [Layer.__init__] is defined in neon.layers.layer; of what it sets, the
    containers read [owns_output].  [Sequential] and [Tree] keep that value,
    [MergeBroadcast] and [ResidualModule] overwrite it with [True]. *)

(** A constructor runs against the allocation counter. *)
Definition Ctor (A : Type) : Type := oid -> result (A * oid).

Definition ctor_ret {A : Type} (a : A) : Ctor A := fun n => Ok (a, n).

Definition ctor_raise {A : Type} (e : exn) : Ctor A := fun _ => Raise e.

Definition ctor_bind {A B : Type} (m : Ctor A) (k : A -> Ctor B) : Ctor B :=
  fun n => match m n with
           | Ok (a, n') => k a n'
           | Raise e => Raise e
           end.

(** The address of the object being created. *)
Definition new_object : Ctor oid := fun n => Ok (n, S n).

Declare Scope ctor_scope.
Delimit Scope ctor_scope with ctor.
Notation "'do' x <- m ; k" := (ctor_bind m (fun x => k))
  (at level 10, x name, m at level 100, k at level 200,
   format "'[v' 'do'  x  <-  m ; '/' k ']'") : ctor_scope.

Section Construction.

Variable Layer_owns_output : bool.

(** [Sequential.__init__(self, layers, name=None)] *)
Definition Sequential_init (layers : nested) : Ctor layer :=
  (do self <- new_object;
   let ls := flatten layers in
   let _ls := filter (fun x => type_of x <> TLeaf BranchNode) ls in
   match _ls with
   | [] => ctor_raise IndexError
   | root :: _ =>
       if owns_output_of root
          || bool_decide (type_of root = TLeaf Dropout
                          \/ type_of root = TLeaf DataTransform)
       then ctor_ret (SequentialObj self Layer_owns_output ls _ls)
       else ctor_raise AssertionError
   end)%ctor.

(** A value that is neither a layer nor a list. *)
Inductive foreign : Type :=
| PyNone
| PyInt (z : Z)
| PyStr (s : string)
| PyTupleOf (items : list nested).

(** An element of the [layers] argument of [Tree] and [MergeBroadcast], by
    the [isinstance] tests the constructors apply to it: an instance of
    [Layer] (a [Sequential] among them), a Python list, or anything else. *)
Inductive element : Type :=
| ELayer (l : layer)
| EList (items : list nested)
| EOther (x : foreign).

(** The loop both constructors run over their argument.  In its last arm
    the source evaluates [ValueError("Incompatible element ...")] as an
    expression statement: the exception object is built and dropped. *)
Fixpoint wrap_branches (ls : list element) (self_layers : list layer)
  : Ctor (list layer) :=
  match ls with
  | [] => ctor_ret self_layers
  | ELayer l :: rest =>
      if bool_decide (type_of l = TSequential)
      then wrap_branches rest (self_layers ++ [l])
      else (do s <- Sequential_init (NIter PyList [NLayer l]);
            wrap_branches rest (self_layers ++ [s]))%ctor
  | EList items :: rest =>
      (do s <- Sequential_init (NIter PyList items);
       wrap_branches rest (self_layers ++ [s]))%ctor
  | EOther _ :: rest => wrap_branches rest self_layers
  end.

(** [[1.0 for _ in self.layers] if alphas is None else alphas] *)
Definition default_alphas (alphas : option (list Q)) (ls : list layer)
  : list Q :=
  match alphas with
  | None => map (fun _ => 1%Q) ls
  | Some a => a
  end.

(** [root is next_root], where [next_root] starts as [None]. *)
Definition is_next_root (root : layer) (next_root : option layer) : bool :=
  match next_root with
  | Some r => py_is root r
  | None => false
  end.

(** [1.0 if (root is next_root or type(root) is not BranchNode) else 0.0] *)
Definition tree_beta (root : layer) (next_root : option layer) : Q :=
  if is_next_root root next_root
     || bool_decide (type_of root <> TLeaf BranchNode)
  then 1%Q else 0%Q.

(** The loop of [Tree.__init__] over [reversed(self.layers)]. *)
Fixpoint betas_loop (rl : list layer) (next_root : option layer)
  (betas : list Q) : result (list Q) :=
  match rl with
  | [] => Ok betas
  | l :: rest =>
      match layers_of l with
      | [] => Raise IndexError
      | root :: _ =>
          betas_loop rest (Some root) (betas ++ [tree_beta root next_root])
      end
  end.

(** [self.betas] as [Tree.__init__] computes it: the loop, then
    [self.betas.reverse()]. *)
Definition Tree_betas (self_layers : list layer) : result (list Q) :=
  match betas_loop (rev self_layers) None [] with
  | Ok betas => Ok (rev betas)
  | Raise e => Raise e
  end.

(** [Tree.__init__(self, layers, name=None, alphas=None)] *)
Definition Tree_init (layers : list element) (alphas : option (list Q))
  : Ctor layer :=
  (do self <- new_object;
   do ls <- wrap_branches layers [];
   let alphas := default_alphas alphas ls in
   match Tree_betas ls with
   | Ok betas => ctor_ret (TreeObj self Layer_owns_output ls alphas betas)
   | Raise e => ctor_raise e
   end)%ctor.

(** [xs[-1] = v] *)
Definition set_last {A : Type} (xs : list A) (v : A) : result (list A) :=
  match xs with
  | [] => Raise IndexError
  | _ => Ok (<[pred (length xs) := v]> xs)
  end.

(** [("recurrent", "depth", "stack")] *)
Definition merge_modes : list string :=
  ["recurrent"; "depth"; "stack"]%string.

(** [MergeBroadcast.__init__(self, layers, merge, alphas=None, name=None)];
    [MergeMultistream.__init__] calls it with no alphas. *)
Definition MergeBroadcast_init_as (multistream : bool) (layers : list element)
  (merge : string) (alphas : option (list Q)) : Ctor layer :=
  (do self <- new_object;
   do ls <- wrap_branches layers [];
   match set_last (map (fun _ => 1%Q) ls) 0%Q with
   | Raise e => ctor_raise e
   | Ok betas =>
       let alphas := default_alphas alphas ls in
       if bool_decide (merge ∈ merge_modes)
       then ctor_ret (MergeBroadcastObj self multistream ls betas alphas merge)
       else ctor_raise AssertionError
   end)%ctor.

Definition MergeBroadcast_init := MergeBroadcast_init_as false.

Definition MergeMultistream_init (layers : list element) (merge : string)
  : Ctor layer :=
  MergeBroadcast_init_as true layers merge None.


(** Modelled from the spec: the constructor of [Convolution]
    (neon.layers.layer), as far as the containers read its result: a new
    convolution layer that owns its output, with [fshape[-1]] output
    feature maps and the given stride. *)
Definition Convolution_init (nofm strides : Z) : Ctor layer :=
  (do self <- new_object;
   ctor_ret (Leaf (MkLeaf self Convolution true nofm strides)))%ctor.

(** [xs[-n]] for [n] = 1, 2 *)
Definition from_end {A : Type} (xs : list A) (n : nat) : result A :=
  match rev xs !! pred n with
  | Some x => Ok x
  | None => Raise IndexError
  end.

(** [ResidualModule.__init__(self, layers, projection=None, name='residual')];
    of the projection Initializer only its name is read. *)
Definition ResidualModule_init (layers : nested) (projection : option string)
  : Ctor layer :=
  (do self <- new_object;
   do trunk <- Sequential_init (NIter PyList (map NLayer (flatten layers)));
   let convlayers :=
     filter (fun l => type_of l = TLeaf Convolution) (layers_of trunk) in
   match from_end convlayers 1 with
   | Raise e => ctor_raise e
   | Ok last_conv =>
       match from_end convlayers 2 with
       | Raise e => ctor_raise e
       | Ok prev_conv =>
           let nofm := match last_conv with Leaf x => leaf_K x | _ => 0%Z end in
           let skip_stride :=
             match prev_conv with Leaf x => leaf_str_h x | _ => 0%Z end in
           match projection with
           | Some name =>
               do skip_layer <- Convolution_init nofm skip_stride;
               ctor_ret
                 (ResidualModuleObj self
                    (if bool_decide (name <> "Identity"%string)
                     then [trunk; skip_layer] else [trunk])
                    (Some skip_layer))
           | None => ctor_ret (ResidualModuleObj self [trunk] None)
           end
       end
   end)%ctor.

End Construction.

(** ** Tree: reading the branches and their betas *)

(** The root of branch [i], [self.layers[i].layers[0]]. *)
Definition root_at (ls : list layer) (i : nat) : option layer :=
  match ls !! i with
  | Some l => head (layers_of l)
  | None => None
  end.

(** Branch [i] exists and its root is the object [r]. *)
Definition rooted_at (ls : list layer) (r : layer) (i : nat) : bool :=
  match root_at ls i with
  | Some x => py_is x r
  | None => false
  end.

(** The roots of all branches, when every branch has one. *)
Fixpoint roots_of (ls : list layer) : option (list layer) :=
  match ls with
  | [] => Some []
  | l :: rest =>
      match layers_of l, roots_of rest with
      | root :: _, Some rs => Some (root :: rs)
      | _, _ => None
      end
  end.

(** The betas as the loop appends them, over the roots in reverse branch
    order. *)
Fixpoint betas_backward (rs : list layer) (next_root : option layer)
  : list Q :=
  match rs with
  | [] => []
  | r :: rest => tree_beta r next_root :: betas_backward rest (Some r)
  end.

(** The betas read front to back: the root of branch [i] is compared with
    the root of branch [i+1]. *)
Fixpoint betas_forward (rs : list layer) : list Q :=
  match rs with
  | [] => []
  | r :: rest => tree_beta r (head rest) :: betas_forward rest
  end.

(** The branches and the betas of a constructed Tree. *)
Definition tree_branches (r : result (layer * oid)) : list layer :=
  match r with
  | Ok (t, _) => layers_of t
  | Raise _ => []
  end.

Definition tree_betas (r : result (layer * oid)) : list Q :=
  match r with
  | Ok (TreeObj _ _ _ _ bs, _) => bs
  | _ => []
  end.

(** The element is a Sequential, a list or a Layer. *)
Definition compatible (e : element) : bool :=
  match e with
  | EOther _ => false
  | _ => true
  end.

(** ** MergeBroadcast: shapes and partitions *)

Module MergeBroadcast.

Open Scope Z_scope.

(** An [out_shape]: an int or a tuple of ints. *)
Inductive shape : Type :=
| SInt (n : Z)
| STuple (dims : list Z).

(** [slice(start, stop)] *)
Definition slice : Type := (Z * Z)%type.

(** [np.prod] over the dimensions of a tuple.  Dimensions and sizes are
    mathematical integers here.  numpy computes them in 64 bits, which
    gives the same number for every size below 2^63, the size of any
    tensor that can be held; its product of no dimensions is the float
    1.0, which is the number 1. *)
Definition prod (dims : list Z) : Z := foldr Z.mul 1 dims.

(** [sum] *)
Definition sum (xs : list Z) : Z := foldr Z.add 0 xs.

(** [np.cumsum]: the running totals. *)
Fixpoint cumsum_from (acc : Z) (xs : list Z) : list Z :=
  match xs with
  | [] => []
  | x :: rest => (acc + x) :: cumsum_from (acc + x) rest
  end.

Definition cumsum (xs : list Z) : list Z := cumsum_from 0 xs.

(** [xs[i]] for a shape [xs] and a literal index [i] that is 0 or 1. *)
Definition shape_item (xs : shape) (i : nat) : result Z :=
  match xs with
  | SInt _ => Raise TypeError
  | STuple dims =>
      match dims !! i with
      | Some d => Ok d
      | None => Raise IndexError
      end
  end.

(** [[f(xs) for xs in in_shapes]], stopping at the first exception. *)
Fixpoint comprehension {A B : Type} (f : A -> result B) (xs : list A)
  : result (list B) :=
  match xs with
  | [] => Ok []
  | x :: rest =>
      match f x with
      | Raise e => Raise e
      | Ok y =>
          match comprehension f rest with
          | Raise e => Raise e
          | Ok ys => Ok (y :: ys)
          end
      end
  end.

(** [xs[:-1]] *)
Definition but_last {A : Type} (xs : list A) : list A := removelast xs.

(** The common tail of [_configure_merge]. *)
Definition make_slices (catdims : list Z) (stride_size : Z) : list slice :=
  let end_idx := map (fun idx => idx * stride_size) (cumsum catdims) in
  let start_idx := 0 :: but_last end_idx in
  zip start_idx end_idx.

(** [MergeBroadcast._configure_merge]: from the merge mode, the branches'
    [out_shape]s and the backend's batch size to [(out_shape, slices)]. *)
Definition _configure_merge (merge : string) (in_shapes : list shape)
  (bsz : Z) : result (shape * list slice) :=
  if String.eqb merge "recurrent" then
    match comprehension (fun xs => shape_item xs 1) in_shapes with
    | Raise e => Raise e
    | Ok catdims =>
        match in_shapes with
        | [] => Raise IndexError
        | xs0 :: _ =>
            match shape_item xs0 0 with
            | Raise e => Raise e
            | Ok d0 =>
                Ok (STuple [d0; sum catdims], make_slices catdims bsz)
            end
        end
    end
  else if String.eqb merge "depth" then
    match comprehension (fun xs => shape_item xs 0) in_shapes with
    | Raise e => Raise e
    | Ok catdims =>
        match in_shapes with
        | [] => Raise IndexError
        | SInt _ :: _ => Raise TypeError
        | STuple dims0 :: _ =>
            Ok (STuple (sum catdims :: tail dims0),
                make_slices catdims (prod (tail dims0)))
        end
    end
  else if String.eqb merge "stack" then
    let catdims :=
      map (fun xs => match xs with SInt n => n | STuple dims => prod dims end)
        in_shapes in
    Ok (SInt (sum catdims), make_slices catdims 1)
  else Raise UnboundLocalError.

(** A two-dimensional tensor of the backend: its rows, and [shape[-1]]. *)
Record tensor2d (A : Type) : Type := MkTensor {
  rows : list (list A);
  ncols : Z
}.
Arguments MkTensor {A} rows ncols.
Arguments rows {A} t.
Arguments ncols {A} t.

(** A bound of a slice on an axis of length [n], as Python clips it. *)
Definition clip (i n : Z) : Z :=
  if i <? 0 then Z.max 0 (i + n) else Z.min i n.

(** [l[start:stop]] *)
Definition py_slice {A : Type} (sl : slice) (l : list A) : list A :=
  let n := Z.of_nat (length l) in
  let start := clip (fst sl) n in
  let stop := clip (snd sl) n in
  take (Z.to_nat (stop - start)) (drop (Z.to_nat start) l).

(** [x[sl]]: rows [sl] of [x]. *)
Definition rows_view {A : Type} (x : tensor2d A) (sl : slice) : tensor2d A :=
  MkTensor (py_slice sl (rows x)) (ncols x).

(** [x[:, sl]]: columns [sl] of [x]. *)
Definition cols_view {A : Type} (x : tensor2d A) (sl : slice) : tensor2d A :=
  MkTensor (map (py_slice sl) (rows x))
           (Z.max 0 (clip (snd sl) (ncols x) - clip (fst sl) (ncols x))).

(** [MergeBroadcast.get_partitions] *)
Definition get_partitions {A : Type} (bsz : Z) (x : tensor2d A)
  (slices : list slice) : list (tensor2d A) :=
  if negb (ncols x =? bsz)
  then map (cols_view x) slices
  else map (rows_view x) slices.

End MergeBroadcast.

(** ** Forward propagation through Sequential and Tree

    A layer's [fprop] reads and writes the buffers of the backend; the
    backend state is [S] and a value handed from layer to layer is a
    [value].  What [l.fprop(x, inference)] does for a child [l] of a
    Sequential is the child's own business ([layer_fprop]). *)

Section Fprop.

Context {S value : Type}.

Variable py_None : value.

Variable layer_fprop : layer -> value -> bool -> S -> result (value * S).

(** [Sequential.fprop(self, inputs, inference=False)] *)
Fixpoint Sequential_fprop_loop (ls : list layer) (x : value)
  (inference : bool) (s : S) : result (value * S) :=
  match ls with
  | [] => Ok (x, s)
  | l :: rest =>
      match layer_fprop l x inference s with
      | Raise e => Raise e
      | Ok (x', s') => Sequential_fprop_loop rest x' inference s'
      end
  end.

Definition Sequential_fprop (self : layer) (inputs : value)
  (inference : bool) (s : S) : result (value * S) :=
  Sequential_fprop_loop (layers_of self) inputs inference s.

(** The method a branch of a Tree answers [fprop] with. *)
Definition branch_fprop (l : layer) : value -> bool -> S -> result (value * S) :=
  match l with
  | SequentialObj _ _ _ _ => Sequential_fprop l
  | _ => layer_fprop l
  end.

(** [[l.fprop(None) for l in ls]] *)
Fixpoint fprop_each (ls : list layer) (s : S) : result (list value * S) :=
  match ls with
  | [] => Ok ([], s)
  | l :: rest =>
      match branch_fprop l py_None false s with
      | Raise e => Raise e
      | Ok (y, s') =>
          match fprop_each rest s' with
          | Raise e => Raise e
          | Ok (ys, s'') => Ok (y :: ys, s'')
          end
      end
  end.

(** What [Tree.fprop] returns: one value, or a list of values. *)
Inductive tree_output : Type :=
| Single (x : value)
| Listed (out : list value).

(** [Tree.fprop(self, inputs, inference=False)] *)
Definition Tree_fprop (self : layer) (inputs : value) (inference : bool)
  (s : S) : result (tree_output * S) :=
  match layers_of self with
  | [] => Raise IndexError
  | trunk :: aux =>
      match branch_fprop trunk inputs inference s with
      | Raise e => Raise e
      | Ok (x, s') =>
          if inference then Ok (Single x, s')
          else
            match fprop_each aux s' with
            | Raise e => Raise e
            | Ok (outs, s'') => Ok (Listed (x :: outs), s'')
            end
      end
  end.

(** The input branch [i] is evaluated with during training. *)
Definition branch_input (inputs : value) (i : nat) : value :=
  match i with
  | O => inputs
  | _ => py_None
  end.

End Fprop.

(** ** Sequential: the delta pool *)

Section AllocateDeltas.

Import MergeBroadcast.
Open Scope Z_scope.

(** A buffer of the backend: where it lives and its leading dimension. *)
Record buffer : Type := MkBuffer {
  buf_addr : nat;
  buf_dim0 : Z
}.

(** [l.in_shape], set when the layer was configured. *)
Variable in_shape : layer -> shape.

(** [l.set_deltas(pool)] of a child: it may raise, it may change the list
    it is handed in place (the leaf layers reverse it) and it sets
    attributes of the child, which live in the run-time state [St]; the
    result is the pool as the call leaves it. *)
Context {St : Type}.

Variable layer_set_deltas :
  layer -> option (list buffer) -> St -> result (option (list buffer) * St).

(** [np.prod] of an [in_shape]. *)
Definition np_prod (xs : shape) : Z :=
  match xs with
  | SInt n => n
  | STuple dims => prod dims
  end.

(** [True if type(ll) in (MergeBroadcast, ResidualModule) else False] *)
Definition needs_extra_delta (ll : layer) : bool :=
  bool_decide (type_of ll = TMergeBroadcast \/ type_of ll = TResidualModule).

(** [max(in_sizes)] of a non-empty list. *)
Definition py_max (x : Z) (xs : list Z) : Z := foldr Z.max x xs.

(** Modelled from the spec: [be.iobuf(dim0)] of the backend, which
    allocates a new buffer of leading dimension [dim0]. *)
Definition iobuf (dim0 : Z) (next : nat) : buffer * nat :=
  (MkBuffer next dim0, Datatypes.S next).

(** [[self.be.iobuf(n, parallelism="Data") for _ in range(k)]] *)
Fixpoint iobufs (k : nat) (n : Z) (next : nat) : list buffer * nat :=
  match k with
  | O => ([], next)
  | Datatypes.S k' =>
      let '(b, next') := iobuf n next in
      let '(bs, next'') := iobufs k' n next' in
      (b :: bs, next'')
  end.

(** [not global_deltas] *)
Definition falsy (global_deltas : option (list buffer)) : bool :=
  match global_deltas with
  | None | Some [] => true
  | Some (_ :: _) => false
  end.

(** The first half of [Sequential.allocate_deltas]: what it assigns to
    [self.global_deltas]. *)
Definition assign_global_deltas (self : layer)
  (global_deltas : option (list buffer)) (next : nat)
  : option (list buffer) * nat :=
  if falsy global_deltas then
    let ndelta_bufs :=
      if existsb needs_extra_delta (layers_of self) then 4%nat else 2%nat in
    let in_sizes := map (fun l => np_prod (in_shape l)) (tail (layers_of self)) in
    match in_sizes with
    | x :: xs =>
        let '(bufs, next') := iobufs ndelta_bufs (py_max x xs) next in
        (Some bufs, next')
    | [] => (None, next)
    end
  else (global_deltas, next).

(** The closing loop, [for l in self.layers: l.set_deltas(self.global_deltas)]. *)
Fixpoint set_deltas_loop (ls : list layer) (pool : option (list buffer))
  (st : St) : result (option (list buffer) * St) :=
  match ls with
  | [] => Ok (pool, st)
  | l :: rest =>
      match layer_set_deltas l pool st with
      | Raise e => Raise e
      | Ok (pool', st') => set_deltas_loop rest pool' st'
      end
  end.

(** [Sequential.allocate_deltas(self, global_deltas=None)]: the pool as
    the children leave it, the allocation counter and the state. *)
Definition allocate_deltas (self : layer)
  (global_deltas : option (list buffer)) (next : nat) (st : St)
  : result (option (list buffer) * nat * St) :=
  let '(pool, next') := assign_global_deltas self global_deltas next in
  match set_deltas_loop (layers_of self) pool st with
  | Raise e => Raise e
  | Ok (pool', st') => Ok (pool', next', st')
  end.

End AllocateDeltas.

(** ** The tensor backend

    A tensor is the list of its elements; a buffer of the backend is named
    by its address and holds the tensor last written to it.  Arithmetic on
    tensors is elementwise.  A buffer never written reads as the empty
    tensor. *)

Definition tensor : Type := list Q.

Abbreviation handle := nat.

Abbreviation heap := (gmap nat (list Q)).

(** Modelled from the spec: the backend's [w * t], elementwise. *)
Definition t_scale (w : Q) (t : tensor) : tensor := map (Qmult w) t.

(** Modelled from the spec: the backend's [a + b], elementwise on tensors
    of one shape. *)
Definition t_add (a b : tensor) : tensor := zip_with Qplus a b.

(** Modelled from the spec: the backend's [buf[:] = t]. *)
Definition store (buf : handle) (t : tensor) (h : heap) : heap :=
  <[buf := t]> h.

(** Modelled from the spec: the backend's [alpha * x + beta * y], where
    [beta] chooses between overwriting (0.0) and accumulating; with [beta]
    zero the old contents are not read. *)
Definition axpby (alpha : Q) (x : tensor) (beta : Q) (y : tensor) : tensor :=
  if Qeq_bool beta 0 then t_scale alpha x
  else t_add (t_scale alpha x) (t_scale beta y).

(** ** Multicost *)

Module Multicost.

(** An argument of [get_cost]: a tensor, or a list or tuple of tensors. *)
Inductive pyarg : Type :=
| Tensor (x : handle)
| Seq (k : iterable_kind) (xs : list handle).

(** [isinstance(a, list)] *)
Definition isinstance_list (a : pyarg) : bool :=
  match a with
  | Seq PyList _ => true
  | _ => false
  end.

(** [type(targets) in (tuple, list)] *)
Definition is_tuple_or_list (a : pyarg) : bool :=
  match a with
  | Seq _ _ => true
  | Tensor _ => false
  end.

(** The items of a list or tuple. *)
Definition items_of (a : pyarg) : list handle :=
  match a with
  | Seq _ xs => xs
  | Tensor _ => []
  end.

Section GetCost.

(** A cost layer, and what its [get_cost(inputs, targets)] does to the
    backend and returns (neon.layers.layer). *)
Context {cost : Type}.

Variable cost_get_cost :
  cost -> pyarg -> pyarg -> heap -> result (handle * heap).

Record multicost : Type := MkMulticost {
  costs : list cost;
  weights : list Q
}.

(** [Multicost.__init__(self, costs, weights=None, name=None)];
    [costs[0].costfunc] is read at the end. *)
Definition init (costs : list cost) (weights : option (list Q))
  : result multicost :=
  let ws := match weights with
            | None => map (fun _ => 1%Q) costs
            | Some w => w
            end in
  match costs with
  | [] => Raise IndexError
  | _ => Ok (MkMulticost costs ws)
  end.

(** [[c.get_cost(i, t) for c, i, t in zip(self.costs, inputs, ltargets)]] *)
Fixpoint costvals_of (cs : list cost) (inputs : list handle)
  (ltargets : list pyarg) (h : heap) : result (list handle * heap) :=
  match cs, inputs, ltargets with
  | c :: cs', i :: inputs', t :: ltargets' =>
      match cost_get_cost c (Tensor i) t h with
      | Raise e => Raise e
      | Ok (v, h') =>
          match costvals_of cs' inputs' ltargets' h' with
          | Raise e => Raise e
          | Ok (vs, h'') => Ok (v :: vs, h'')
          end
      end
  | _, _, _ => Ok ([], h)
  end.

(** [reduce(add, xs)] *)
Definition reduce_add (xs : list tensor) : result tensor :=
  match xs with
  | [] => Raise TypeError
  | x :: rest => Ok (foldl t_add x rest)
  end.

(** [Multicost.get_cost(self, inputs, targets)] *)
Definition get_cost (self : multicost) (inputs targets : pyarg) (h : heap)
  : result (handle * heap) :=
  if negb (isinstance_list inputs) then
    match costs self with
    | [] => Raise IndexError
    | c0 :: _ => cost_get_cost c0 inputs targets h
    end
  else
    let ltargets :=
      if is_tuple_or_list targets then map Tensor (items_of targets)
      else map (fun _ => targets) (costs self) in
    match costvals_of (costs self) (items_of inputs) ltargets h with
    | Raise e => Raise e
    | Ok (costvals, h') =>
        match reduce_add
                (zip_with (fun w c => t_scale w (h' !!! c))
                   (weights self) costvals)
        with
        | Raise e => Raise e
        | Ok sum_optree =>
            match costvals with
            | [] => Raise IndexError
            | c0 :: _ => Ok (c0, store c0 sum_optree h')
            end
        end
    end.

End GetCost.

(** Modelled from the spec: a cost layer of neon.layers.layer, which is
    not part of this file: its cost function and the buffer it owns. *)
Record cost_layer : Type := MkCost {
  costfunc : tensor -> tensor -> tensor;
  cost_buffer : handle
}.

(** Modelled from the spec: [get_cost] of a cost layer.  It evaluates the
    cost function on the input and the target, writes the value into the
    buffer the cost owns and returns that buffer. *)
Definition Cost_get_cost (c : cost_layer) (inputs targets : pyarg) (h : heap)
  : result (handle * heap) :=
  match inputs, targets with
  | Tensor i, Tensor t =>
      Ok (cost_buffer c,
          store (cost_buffer c) (costfunc c (h !!! i) (h !!! t)) h)
  | _, _ => Raise TypeError
  end.

(** Sum of squared differences, and sum of products. *)
Definition sum_squared (y t : tensor) : tensor :=
  [foldr Qplus 0%Q (zip_with (fun a b => (a - b) * (a - b))%Q y t)].

Definition sum_product (y t : tensor) : tensor :=
  [foldr Qplus 0%Q (zip_with Qmult y t)].

Definition two_costs : multicost :=
  MkMulticost [MkCost sum_squared 10; MkCost sum_product 11] [1; 1 # 2]%Q.

(** Predictions in buffers 1 and 2, the target in buffer 3. *)
Definition predictions : heap :=
  {[ 1%nat := [3; 1]%Q; 2%nat := [0; 4]%Q; 3%nat := [1; 1]%Q ]}.

End Multicost.

(** ** ResidualModule at run time *)

(** The run-time state: the buffers of the backend and, by object address,
    the attributes [deltas], [outputs] and [inputs] that [set_deltas],
    [allocate] and [fprop] bind. *)
Record rstate : Type := MkState {
  st_heap : heap;
  st_deltas : gmap oid handle;
  st_outputs : gmap oid handle;
  st_inputs : gmap oid handle
}.

(** The state with another heap, and with one attribute bound. *)
Definition with_heap (h : heap) (st : rstate) : rstate :=
  MkState h (st_deltas st) (st_outputs st) (st_inputs st).

Definition bind_deltas (o : oid) (d : handle) (st : rstate) : rstate :=
  MkState (st_heap st) (<[o := d]> (st_deltas st)) (st_outputs st)
    (st_inputs st).

Definition bind_inputs (o : oid) (x : handle) (st : rstate) : rstate :=
  MkState (st_heap st) (st_deltas st) (st_outputs st)
    (<[o := x]> (st_inputs st)).

(** Modelled from the spec: [set_deltas] of a leaf layer
    (neon.layers.layer).  The layer takes its gradient buffer as a view of
    the first buffer of the pool and reverses the pool. *)
Definition leaf_set_deltas (l : layer) (pool : option (list buffer))
  (st : rstate) : result (option (list buffer) * rstate) :=
  match pool with
  | None => Raise TypeError
  | Some [] => Raise IndexError
  | Some (b :: bs) =>
      Ok (Some (rev (b :: bs)), bind_deltas (id_of l) (buf_addr b) st)
  end.

(** Modelled from the spec: [bprop(error, alpha=1.0, beta=0.0)] of a leaf
    layer (neon.layers.layer), whose backward map [backward] takes the
    error at its output to the gradient at its input.  The layer writes
    [alpha] times its input gradient into its gradient buffer, over the old
    contents when [beta] is 0.0 and added to [beta] times them otherwise,
    and returns the buffer. *)
Definition leaf_bprop (backward : layer -> tensor -> tensor)
  (l : layer) (error : handle) (alpha beta : Q)
  (st : rstate) : result (handle * rstate) :=
  match st_deltas st !! id_of l with
  | None => Raise TypeError
  | Some d =>
      let g := backward l (st_heap st !!! error) in
      Ok (d, with_heap
               (store d (axpby alpha g beta (st_heap st !!! d)) (st_heap st))
               st)
  end.

Section ResidualModule.

(** [l.bprop(error, alpha, beta)] of a child, which Python dispatches on
    the child's class: a leaf layer's or a container's.  Called with
    [error] alone it takes the defaults [alpha=1.0] and [beta=0.0]. *)
Variable layer_bprop :
  layer -> handle -> Q -> Q -> rstate -> result (handle * rstate).

(** [l.prev_layer], bound when the layer was configured. *)
Variable prev_layer : layer -> option layer.

Variable in_shape : layer -> MergeBroadcast.shape.

(** [l.set_deltas(delta_buffers)] of a child, dispatched in the same way:
    the list as the call leaves it, and the state. *)
Variable layer_set_deltas :
  layer -> option (list buffer) -> rstate
  -> result (option (list buffer) * rstate).

(** [type(l.prev_layer) is BranchNode] *)
Definition prev_is_BranchNode (l : layer) : bool :=
  match prev_layer l with
  | Some p => bool_decide (type_of p = TLeaf BranchNode)
  | None => false
  end.

(** The loop of [Sequential.bprop] over [reversed(self._layers)]. *)
Fixpoint Sequential_bprop_loop (rl : list layer) (first : layer)
  (error : handle) (alpha beta : Q) (st : rstate)
  : result (handle * rstate) :=
  match rl with
  | [] => Ok (error, st)
  | l :: rest =>
      match (if prev_is_BranchNode l || py_is l first
             then layer_bprop l error alpha beta st
             else layer_bprop l error 1 0 st)
      with
      | Raise e => Raise e
      | Ok (error', st') =>
          Sequential_bprop_loop rest first error' alpha beta st'
      end
  end.

(** [Sequential.bprop(self, error, alpha=1.0, beta=0.0)] *)
Definition Sequential_bprop (self : layer) (error : handle) (alpha beta : Q)
  (st : rstate) : result (option handle * rstate) :=
  match _layers_of self with
  | [] => Raise IndexError
  | first :: _ =>
      match Sequential_bprop_loop (rev (_layers_of self)) first error
              alpha beta st
      with
      | Raise e => Raise e
      | Ok (_, st') => Ok (st_deltas st' !! id_of first, st')
      end
  end.

(** [ResidualModule.set_deltas(self, delta_buffers)]: the list as the call
    leaves it, and the state. *)
Definition ResidualModule_set_deltas (self : layer)
  (delta_buffers : option (list buffer)) (next : nat) (st : rstate)
  : result (option (list buffer) * rstate) :=
  match delta_buffers with
  | None => Raise TypeError
  | Some bufs =>
      if negb (Nat.eqb (length bufs) 4) then Raise AssertionError
      else
        match layers_of self with
        | [] => Raise IndexError
        | trunk :: _ =>
            match allocate_deltas in_shape layer_set_deltas trunk
                    (Some (take 2 (drop 1 bufs))) next st
            with
            | Raise e => Raise e
            | Ok (_, _, st1) =>
                match layers_of trunk with
                | [] => Raise IndexError
                | root :: _ =>
                    match layer_set_deltas root (Some (take 1 bufs)) st1 with
                    | Raise e => Raise e
                    | Ok (_, st2) =>
                        match
                          (match skip_layer_of self with
                           | Some sk =>
                               layer_set_deltas sk (Some (take 1 bufs)) st2
                           | None => Ok (None, st2)
                           end)
                        with
                        | Raise e => Raise e
                        | Ok (_, st3) =>
                            match bufs with
                            | [] => Raise IndexError
                            | b0 :: _ =>
                                Ok (Some (rev bufs),
                                    bind_deltas (id_of self) (buf_addr b0) st3)
                            end
                        end
                    end
                end
            end
        end
  end.

(** [ResidualModule.bprop(self, error, alpha=1.0, beta=0.0)] *)
Definition ResidualModule_bprop (self : layer) (error : handle)
  (alpha beta : Q) (st : rstate) : result (option handle * rstate) :=
  match
    (match skip_layer_of self with
     | Some sk =>
         match layer_bprop sk error alpha 0 st with
         | Raise e => Raise e
         | Ok (_, st') => Ok st'
         end
     | None =>
         match st_deltas st !! id_of self with
         | None => Raise TypeError
         | Some d =>
             Ok (with_heap (store d (st_heap st !!! error) (st_heap st)) st)
         end
     end)
  with
  | Raise e => Raise e
  | Ok st1 =>
      match layers_of self with
      | [] => Raise IndexError
      | trunk :: _ =>
          match Sequential_bprop trunk error alpha 1 st1 with
          | Raise e => Raise e
          | Ok (_, st2) => Ok (st_deltas st2 !! id_of self, st2)
          end
      end
  end.

End ResidualModule.

Section ResidualFprop.

(** [l.fprop(x, inference)] of a child of the trunk, and
    [skip_layer.fprop(x, inference, beta)] of the projection. *)
Variable layer_fprop : layer -> handle -> bool -> rstate -> result (handle * rstate).

Variable skip_fprop :
  layer -> handle -> bool -> Q -> rstate -> result (handle * rstate).

(** [ResidualModule.fprop(self, inputs, inference=False)] *)
Definition ResidualModule_fprop (self : layer) (inputs : handle)
  (inference : bool) (st : rstate) : result (option handle * rstate) :=
  let st0 := bind_inputs (id_of self) inputs st in
  match layers_of self with
  | [] => Raise IndexError
  | trunk :: _ =>
      match Sequential_fprop layer_fprop trunk inputs inference st0 with
      | Raise e => Raise e
      | Ok (_, st1) =>
          match skip_layer_of self with
          | Some sk =>
              match skip_fprop sk inputs inference 1 st1 with
              | Raise e => Raise e
              | Ok (_, st2) => Ok (st_outputs st2 !! id_of self, st2)
              end
          | None =>
              match st_outputs st1 !! id_of self with
              | None => Raise TypeError
              | Some out =>
                  Ok (Some out,
                      with_heap
                        (store out
                           (t_add (st_heap st1 !!! out)
                              (st_heap st1 !!! inputs))
                           (st_heap st1))
                        st1)
              end
          end
      end
  end.

End ResidualFprop.

(** The contents of the buffer a propagation step returned. *)
Definition returned_tensor (r : result (option handle * rstate))
  : option tensor :=
  match r with
  | Ok (Some d, st) => Some (st_heap st !!! d)
  | _ => None
  end.

(** ** Description and reconstruction *)

(** The keyword arguments a descriptor's [config] holds besides [layers]:
    of the containers' constructor arguments those kept as attributes, and
    for a leaf layer what its own constructor needs. *)
Record kwargs : Type := MkKwargs {
  kw_alphas : option (list Q);
  kw_merge : option string;
  kw_leaf : option (bool * Z * Z)
}.

(** A config with [layers] alone. *)
Definition no_kwargs : kwargs := MkKwargs None None None.

(** A descriptor: [{'type': typ, 'container': c, 'config': {'layers':
    layers, **args}}]; a leaf's config has no ['layers']. *)
Inductive desc : Type :=
| MkDesc (typ : string) (container : bool) (args : kwargs)
    (layers : option (list desc)).

(** The name of a leaf class, and the class of a name. *)
Definition leaf_class_name (c : leaf_class) : string :=
  match c with
  | BranchNode => "BranchNode"
  | Dropout => "Dropout"
  | DataTransform => "DataTransform"
  | Convolution => "Convolution"
  | OtherLeaf name => name
  end.

Definition leaf_class_of_name (name : string) : leaf_class :=
  if String.eqb name "BranchNode" then BranchNode
  else if String.eqb name "Dropout" then Dropout
  else if String.eqb name "DataTransform" then DataTransform
  else if String.eqb name "Convolution" then Convolution
  else OtherLeaf name.

(** The container class of container.py with the given name. *)
Definition container_of_name (name : string) : option pytype :=
  if String.eqb name "Sequential" then Some TSequential
  else if String.eqb name "Tree" then Some TTree
  else if String.eqb name "MergeBroadcast" then Some TMergeBroadcast
  else if String.eqb name "MergeMultistream" then Some TMergeMultistream
  else if String.eqb name "ResidualModule" then Some TResidualModule
  else if String.eqb name "LayerContainer" then Some TLayerContainer
  else None.

(** [self.modulenm]: the module and the class name. *)
Definition modulenm (t : pytype) : string :=
  match t with
  | TLeaf c => "neon.layers.layer." +:+ leaf_class_name c
  | TSequential => "neon.layers.container.Sequential"
  | TTree => "neon.layers.container.Tree"
  | TMergeBroadcast => "neon.layers.container.MergeBroadcast"
  | TMergeMultistream => "neon.layers.container.MergeMultistream"
  | TResidualModule => "neon.layers.container.ResidualModule"
  | TLayerContainer => "neon.layers.container.LayerContainer"
  end.

(** Modelled from the spec: [get_description] of NervanaObject and of the
    leaf layers (neon, neon.layers.layer), which are not part of this
    file.  The descriptor names the object's class and holds the
    constructor arguments the object kept. *)
Definition base_description (l : layer) : string * kwargs :=
  (modulenm (type_of l),
   match l with
   | Leaf x =>
       MkKwargs None None (Some (leaf_owns_output x, leaf_K x, leaf_str_h x))
   | SequentialObj _ _ _ _ => no_kwargs
   | TreeObj _ _ _ alphas _ => MkKwargs (Some alphas) None None
   | MergeBroadcastObj _ ms _ _ alphas merge =>
       MkKwargs (if ms then None else Some alphas) (Some merge) None
   | ResidualModuleObj _ _ _ => no_kwargs
   end).

(** [LayerContainer.get_description]; a leaf answers with its own. *)
Fixpoint get_description (l : layer) : desc :=
  let '(typ, args) := base_description l in
  match l with
  | Leaf _ => MkDesc typ false args None
  | SequentialObj _ _ ls _ => MkDesc typ true args (Some (map get_description ls))
  | TreeObj _ _ ls _ _ => MkDesc typ true args (Some (map get_description ls))
  | MergeBroadcastObj _ _ ls _ _ _ =>
      MkDesc typ true args (Some (map get_description ls))
  | ResidualModuleObj _ ls _ =>
      MkDesc typ true args (Some (map get_description ls))
  end.

(** [s.find(sub) != -1] *)
Definition contains (sub s : string) : bool :=
  match String.index 0 sub s with
  | Some _ => true
  | None => false
  end.

(** The text of [s] after the prefix [p], if [s] starts with [p]. *)
Definition after_prefix (p s : string) : option string :=
  if String.prefix p s
  then Some (String.substring (String.length p)
               (String.length s - String.length p) s)
  else None.

(** A global of container.py, as [gen_class] meets it when it looks up
    the type of a child: a layer class, [Multicost], [NervanaObject], or a
    global that is no class. *)
Inductive pyglobal : Type :=
| GClass (t : pytype)
| GMulticost
| GNervanaObject
| GPlain.

(** The layer classes container.py imports from neon.layers.layer. *)
Definition imported_layer_classes : list string :=
  ["Layer"; "BranchNode"; "Dropout"; "DataTransform"; "Convolution"]%string.

(** The globals of container.py that are not classes: the module [np],
    the functions [add], [load_class] and [flatten], and the attributes
    every module has. *)
Definition plain_globals : list string :=
  ["np"; "add"; "load_class"; "flatten"; "__builtins__"; "__doc__";
   "__file__"; "__name__"; "__package__"]%string.

(** [globals()[name]], when [name in globals()]. *)
Definition container_global (name : string) : option pyglobal :=
  match container_of_name name with
  | Some t => Some (GClass t)
  | None =>
      if existsb (String.eqb name) imported_layer_classes
      then Some (GClass (TLeaf (leaf_class_of_name name)))
      else if String.eqb name "Multicost" then Some GMulticost
      else if String.eqb name "NervanaObject" then Some GNervanaObject
      else if existsb (String.eqb name) plain_globals then Some GPlain
      else None
  end.

(** What [ccls.gen_class(layer['config'])] has to go on: a layer class, or
    the exception the call raises on another global before it has any
    effect.  A global that is no class has no [gen_class]
    (AttributeError); [Multicost.gen_class] reads [pdict['costs']], which
    the config of a layer does not hold (KeyError).  Modelled from the
    spec: [NervanaObject.gen_class] (neon) passes the config to a
    constructor that takes a name alone (TypeError). *)
Definition class_of_global (g : pyglobal) : result pytype :=
  match g with
  | GClass t => Ok t
  | GMulticost => Raise KeyError
  | GNervanaObject => Raise TypeError
  | GPlain => Raise AttributeError
  end.

(** Modelled from the spec: [load_class] (neon.util.persist), which
    imports the module a qualified name starts with and reads the
    attribute the name ends in; the result is given as [class_of_global]
    gives it. *)
Definition load_class (typ : string) : result pytype :=
  match after_prefix "neon.layers.container." typ with
  | Some name =>
      match container_global name with
      | Some g => class_of_global g
      | None => Raise AttributeError
      end
  | None =>
      match after_prefix "neon.layers.layer." typ with
      | Some name => Ok (TLeaf (leaf_class_of_name name))
      | None => Raise ImportError
      end
  end.

(** The class a child descriptor's type resolves to, as the loop of
    [gen_class] looks it up. *)
Definition resolve_class (typ : string) : result pytype :=
  if contains "neon.layers.container" typ then load_class typ
  else
    match container_global typ with
    | Some g => class_of_global g
    | None =>
        if contains "neon.layers.layer" typ then load_class typ
        else load_class ("neon.layers.layer." +:+ typ)
    end.

Section GenClass.

Variable Layer_owns_output : bool.

(** Modelled from the spec: [gen_class] of a leaf layer
    (neon.layers.layer), which builds the layer from its config. *)
Definition leaf_gen_class (c : leaf_class) (args : kwargs) : Ctor layer :=
  match kw_leaf args, kw_alphas args, kw_merge args with
  | Some (owns, K, str_h), None, None =>
      (do self <- new_object;
       ctor_ret (Leaf (MkLeaf self c owns K str_h)))%ctor
  | _, _, _ => ctor_raise TypeError
  end.

(** [cls(layers=layers, **pdict)] for a container class [cls]. *)
Definition construct (cls : pytype) (layers : list layer) (args : kwargs)
  : Ctor layer :=
  match cls, kw_leaf args with
  | TSequential, None =>
      match kw_alphas args, kw_merge args with
      | None, None =>
          Sequential_init Layer_owns_output (NIter PyList (map NLayer layers))
      | _, _ => ctor_raise TypeError
      end
  | TTree, None =>
      match kw_merge args with
      | None =>
          Tree_init Layer_owns_output (map ELayer layers) (kw_alphas args)
      | Some _ => ctor_raise TypeError
      end
  | TMergeBroadcast, None =>
      match kw_merge args with
      | Some merge =>
          MergeBroadcast_init Layer_owns_output (map ELayer layers) merge
            (kw_alphas args)
      | None => ctor_raise TypeError
      end
  | TMergeMultistream, None =>
      match kw_merge args, kw_alphas args with
      | Some merge, None =>
          MergeMultistream_init Layer_owns_output (map ELayer layers) merge
      | _, _ => ctor_raise TypeError
      end
  | TResidualModule, None =>
      match kw_alphas args, kw_merge args with
      | None, None =>
          ResidualModule_init Layer_owns_output
            (NIter PyList (map NLayer layers)) None
      | _, _ => ctor_raise TypeError
      end
  | _, _ => ctor_raise TypeError
  end.

(** [cls.gen_class(pdict)], where [pdict] is the config of the descriptor
    [d]: [LayerContainer.gen_class] for a container class, the leaf's own
    for a leaf class. *)
Fixpoint gen_class (cls : pytype) (d : desc) {struct d} : Ctor layer :=
  match d with
  | MkDesc _ _ args layers =>
      match cls with
      | TLeaf c => leaf_gen_class c args
      | _ =>
          match layers with
          | None => ctor_raise KeyError
          | Some ds =>
              (do children <-
                 (fix each (ds : list desc) : Ctor (list layer) :=
                    match ds with
                    | [] => ctor_ret []
                    | (MkDesc typ _ _ _ as layer) :: rest =>
                        match resolve_class typ with
                        | Raise e => ctor_raise e
                        | Ok ccls =>
                            do x <- gen_class ccls layer;
                            do xs <- each rest;
                            ctor_ret (x :: xs)
                        end
                    end) ds;
               construct cls children args)%ctor
          end
      end
  end.

(** [type(l).gen_class(l.get_description()['config'])] *)
Definition round_trip (l : layer) : Ctor layer :=
  gen_class (type_of l) (get_description l).

End GenClass.

(** The loop of [gen_class] over [pdict['layers']], by name. *)
Fixpoint gen_children (dflt : bool) (ds : list desc) : Ctor (list layer) :=
  match ds with
  | [] => ctor_ret []
  | (MkDesc typ _ _ _ as layer) :: rest =>
      match resolve_class typ with
      | Raise e => ctor_raise e
      | Ok ccls =>
          (do x <- gen_class dflt ccls layer;
           do xs <- gen_children dflt rest;
           ctor_ret (x :: xs))%ctor
      end
  end.

(** The shape of a container tree: the type of every node and, in order,
    the shapes of its children. *)
Inductive skeleton : Type :=
| Node (t : pytype) (children : list skeleton).

(** The skeleton of a layer. *)
Fixpoint skeleton_of (l : layer) : skeleton :=
  match l with
  | Leaf x => Node (TLeaf (leaf_cls x)) []
  | SequentialObj _ _ ls _ => Node TSequential (map skeleton_of ls)
  | TreeObj _ _ ls _ _ => Node TTree (map skeleton_of ls)
  | MergeBroadcastObj _ ms ls _ _ _ =>
      Node (if ms then TMergeMultistream else TMergeBroadcast)
        (map skeleton_of ls)
  | ResidualModuleObj _ ls _ => Node TResidualModule (map skeleton_of ls)
  end.

(** The class is a leaf class. *)
Definition is_leaf_type (t : pytype) : bool :=
  match t with
  | TLeaf _ => true
  | _ => false
  end.

(** [isinstance(l, LayerContainer)] *)
Definition is_container (l : layer) : bool := negb (is_leaf_type (type_of l)).

(** A container tree as the constructors of Sequential, Tree and
    MergeBroadcast build it, from leaf layers whose class name stands for
    the class. *)
Fixpoint built (dflt : bool) (l : layer) : bool :=
  match l with
  | Leaf x =>
      match resolve_class (modulenm (TLeaf (leaf_cls x))) with
      | Ok t => bool_decide (t = TLeaf (leaf_cls x))
      | Raise _ => false
      end
  | SequentialObj _ own ls _ls =>
      Bool.eqb own dflt
      && match filter (fun x => type_of x <> TLeaf BranchNode) ls with
         | [] => false
         | root :: _ =>
             owns_output_of root
             || bool_decide (type_of root = TLeaf Dropout
                             \/ type_of root = TLeaf DataTransform)
         end
      && forallb (built dflt) ls
  | TreeObj _ own ls _ _ =>
      Bool.eqb own dflt
      && forallb (fun c => bool_decide (type_of c = TSequential)) ls
      && forallb (built dflt) ls
  | MergeBroadcastObj _ _ ls _ _ merge =>
      negb (Nat.eqb (length ls) 0)
      && bool_decide (merge ∈ merge_modes)
      && forallb (fun c => bool_decide (type_of c = TSequential)) ls
      && forallb (built dflt) ls
  | ResidualModuleObj _ _ _ => false
  end.

(** What a rebuilt layer shares with the layer described. *)
Definition same_shape (l l' : layer) : Prop :=
  skeleton_of l' = skeleton_of l /\ owns_output_of l' = owns_output_of l.

(** ** Example objects *)

Definition conv (o : oid) : layer :=
  Leaf (MkLeaf o Convolution true 16 1).

Definition branch_node (o : oid) : layer :=
  Leaf (MkLeaf o BranchNode false 0 0).

Definition affine (o : oid) : layer :=
  Leaf (MkLeaf o (OtherLeaf "Affine") true 0 0).

Definition activation (o : oid) : layer :=
  Leaf (MkLeaf o (OtherLeaf "Activation") false 0 0).

(** [[[conv1, [act2]], b3, (conv4, [[act5]])]] *)
Definition nested_example : nested :=
  NIter PyList
    [ NIter PyList [NLayer (conv 1); NIter PyList [NLayer (activation 2)]];
      NLayer (branch_node 3);
      NIter PyTuple
        [NLayer (conv 4); NIter PyList [NIter PyList [NLayer (activation 5)]]] ].

(** The tree of the counterexample: a trunk and three auxiliary branches,
    the first and the last rooted at the same BranchNode, the one between
    them at another. *)
Definition scattered_tree : list element :=
  [ EList [NLayer (conv 1); NLayer (branch_node 2); NLayer (branch_node 3);
           NLayer (affine 4)];
    EList [NLayer (branch_node 2); NLayer (affine 5)];
    EList [NLayer (branch_node 3); NLayer (affine 6)];
    EList [NLayer (branch_node 2); NLayer (affine 7)] ].

(** The same branches in the order the docstring asks for. *)
Definition ordered_tree : list element :=
  [ EList [NLayer (conv 1); NLayer (branch_node 2); NLayer (branch_node 3);
           NLayer (affine 4)];
    EList [NLayer (branch_node 2); NLayer (affine 5)];
    EList [NLayer (branch_node 2); NLayer (affine 7)];
    EList [NLayer (branch_node 3); NLayer (affine 6)] ].

Definition ordered_branches : list layer :=
  Eval vm_compute in tree_branches (Tree_init true ordered_tree None 0).

(** A backend that only records which layer was asked to propagate what:
    the state is the log of the calls, a value is the address of the layer
    that produced it. *)
Definition logging_fprop (l : layer) (x : option oid) (inference : bool)
  (log : list (oid * option oid)) : result (option oid * list (oid * option oid)) :=
  Ok (Some (id_of l), log ++ [(id_of l, x)]).

Definition two_branch_tree : layer :=
  Eval vm_compute in
    match Tree_init true
            [ EList [NLayer (conv 1); NLayer (branch_node 2); NLayer (affine 3)];
              EList [NLayer (branch_node 2); NLayer (affine 4)] ] None 10
    with
    | Ok (t, _) => t
    | Raise _ => branch_node 0
    end.

Definition image_shape : layer -> MergeBroadcast.shape :=
  fun l => match id_of l with
           | 1%nat => MergeBroadcast.STuple [3; 32; 32]%Z
           | 2%nat => MergeBroadcast.STuple [16; 32; 32]%Z
           | _ => MergeBroadcast.SInt 10%Z
           end.

(** Leaf layers that take a view of the first buffer and reverse the
    list; the state counts the calls. *)
Definition reversing_set_deltas (l : layer) (pool : option (list buffer))
  (calls : nat) : result (option (list buffer) * nat) :=
  Ok (option_map (@rev buffer) pool, Datatypes.S calls).

Definition inception_like : layer :=
  SequentialObj 9 true
    [conv 1; MergeBroadcastObj 2 false [] [] [] "depth"; affine 3]
    [conv 1; MergeBroadcastObj 2 false [] [] [] "depth"; affine 3].

(** A residual block of two convolutions whose backward maps double the
    error, built with no projection and wired to a pool of four buffers. *)
Definition doubling (l : layer) (t : tensor) : tensor := t_scale 2 t.

Definition no_prev (l : layer) : option layer := None.

Definition two_convs : nested :=
  NIter PyList [NLayer (conv 1); NLayer (conv 2)].

Definition residual_block : layer :=
  Eval vm_compute in
    match ResidualModule_init true
            (NIter PyList [NLayer (conv 1); NLayer (conv 2)]) None 10
    with
    | Ok (m, _) => m
    | Raise _ => branch_node 0
    end.

Definition residual_trunk : layer :=
  SequentialObj 11 true [conv 1; conv 2] [conv 1; conv 2].

Definition four_buffers : list buffer :=
  [MkBuffer 100 8; MkBuffer 101 8; MkBuffer 102 8; MkBuffer 103 8].

(** The incoming error sits in buffer 50. *)
Definition error_state : rstate :=
  MkState {[ 50%nat := [1; 2]%Q ]} ∅ ∅ ∅.

Definition wired_state : rstate :=
  match ResidualModule_set_deltas image_shape leaf_set_deltas residual_block
          (Some four_buffers) 0 error_state
  with
  | Ok (_, st) => st
  | Raise _ => error_state
  end.

(** A leaf layer that owns its output buffer and triples its input. *)
Definition tripling_fprop (l : layer) (x : handle) (inference : bool)
  (st : rstate) : result (handle * rstate) :=
  match st_outputs st !! id_of l with
  | None => Raise TypeError
  | Some o =>
      Ok (o, with_heap (store o (t_scale 3 (st_heap st !!! x)) (st_heap st)) st)
  end.

Definition no_skip_fprop (l : layer) (x : handle) (inference : bool)
  (beta : Q) (st : rstate) : result (handle * rstate) :=
  Raise TypeError.

(** The input sits in buffer 50.  The first convolution writes to buffer
    201; the second one and the module share buffer 200. *)
Definition allocated_state : rstate :=
  MkState {[ 50%nat := [1; 2]%Q; 200%nat := [0; 0]%Q; 201%nat := [0; 0]%Q ]}
    ∅ {[ 1%nat := 201%nat; 2%nat := 200%nat; 10%nat := 200%nat ]} ∅.

Definition state_after_trunk : rstate :=
  match Sequential_fprop tripling_fprop residual_trunk 50 false
          (bind_inputs 10 50 allocated_state)
  with
  | Ok (_, s) => s
  | Raise _ => allocated_state
  end.

(** * Part I, continued: the other methods *)

(** ** Trainable layers *)

Section LayersToOptimize.

(** [l.has_params] of a leaf layer (neon.layers.layer). *)
Variable has_params : layer -> bool.

(** What one pass of the loop of [layers_to_optimize] adds to [lto] for the
    child [l]: [l.layers_to_optimize] for a container, [l] itself for a leaf
    that has parameters. *)
Fixpoint optimized_in (l : layer) : list layer :=
  match l with
  | Leaf _ => if has_params l then [l] else []
  | SequentialObj _ _ ls _ => flat_map optimized_in ls
  | TreeObj _ _ ls _ _ => flat_map optimized_in ls
  | MergeBroadcastObj _ _ ls _ _ _ => flat_map optimized_in ls
  | ResidualModuleObj _ ls _ => flat_map optimized_in ls
  end.

(** [LayerContainer.layers_to_optimize] *)
Definition layers_to_optimize (self : layer) : list layer :=
  flat_map optimized_in (layers_of self).

End LayersToOptimize.

(** The leaf layers below a layer, depth first and left to right. *)
Fixpoint leaves (l : layer) : list layer :=
  match l with
  | Leaf _ => [l]
  | SequentialObj _ _ ls _ => flat_map leaves ls
  | TreeObj _ _ ls _ _ => flat_map leaves ls
  | MergeBroadcastObj _ _ ls _ _ _ => flat_map leaves ls
  | ResidualModuleObj _ ls _ => flat_map leaves ls
  end.

(** ** Loading weights *)

(** [pdict['config']['layers']] *)
Definition desc_layers (pdict : desc) : result (list desc) :=
  match pdict with
  | MkDesc _ _ _ (Some ds) => Ok ds
  | MkDesc _ _ _ None => Raise KeyError
  end.

Section LoadWeights.

(** The parameters loaded so far. *)
Context {W : Type}.

(** [l.load_weights(pdict, inference)] of a leaf layer
    (neon.layers.layer). *)
Variable leaf_load_weights : layer -> desc -> bool -> W -> result W.

(** [LayerContainer.load_weights(self, pdict, inference=False)]; a leaf
    answers with its own. *)
Fixpoint load_weights (self : layer) (pdict : desc) (inference : bool)
  (w : W) {struct self} : result W :=
  let container := fun ls : list layer =>
    match desc_layers pdict with
    | Raise e => Raise e
    | Ok ds =>
        if negb (Nat.eqb (length ds) (length ls)) then Raise AssertionError
        else
          (fix each (ls : list layer) (ds : list desc) (w : W) {struct ls}
             : result W :=
             match ls, ds with
             | branch :: ls', bdict :: ds' =>
                 match load_weights branch bdict inference w with
                 | Raise e => Raise e
                 | Ok w' => each ls' ds' w'
                 end
             | _, _ => Ok w
             end) ls ds w
    end in
  match self with
  | Leaf _ => leaf_load_weights self pdict inference w
  | SequentialObj _ _ ls _ => container ls
  | TreeObj _ _ ls _ _ => container ls
  | MergeBroadcastObj _ _ ls _ _ _ => container ls
  | ResidualModuleObj _ ls _ => container ls
  end.

(** The loop of [load_weights] over [zip(self.layers, ds)], by name. *)
Fixpoint load_each (inference : bool) (ls : list layer) (ds : list desc)
  (w : W) : result W :=
  match ls, ds with
  | branch :: ls', bdict :: ds' =>
      match load_weights branch bdict inference w with
      | Raise e => Raise e
      | Ok w' => load_each inference ls' ds' w'
      end
  | _, _ => Ok w
  end.

(** Every leaf in turn is handed the descriptor of its counterpart. *)
Fixpoint load_pairs (inference : bool) (ps : list (layer * layer)) (w : W)
  : result W :=
  match ps with
  | [] => Ok w
  | (l, src) :: rest =>
      match leaf_load_weights l (get_description src) inference w with
      | Raise e => Raise e
      | Ok w' => load_pairs inference rest w'
      end
  end.

End LoadWeights.

(** The number of leaves of a skeleton. *)
Fixpoint skeleton_leaves (k : skeleton) : nat :=
  match k with
  | Node (TLeaf _) _ => 1
  | Node _ children => foldr Nat.add 0 (map skeleton_leaves children)
  end.

(** ** Allocating the outputs of a Sequential *)

Section Allocate.

(** The backend state and its buffers. *)
Context {S buf : Type}.

(** [l.allocate(shared_outputs)] of a child. *)
Variable layer_allocate : layer -> option buf -> S -> result S.

(** [for l in self.layers: l.allocate()] *)
Fixpoint allocate_each (ls : list layer) (s : S) : result S :=
  match ls with
  | [] => Ok s
  | l :: rest =>
      match layer_allocate l None s with
      | Raise e => Raise e
      | Ok s' => allocate_each rest s'
      end
  end.

(** [Sequential.allocate(self, shared_outputs=None)] *)
Definition Sequential_allocate (self : layer) (shared_outputs : option buf)
  (s : S) : result S :=
  let alloc_layers :=
    filter (fun l => owns_output_of l = true) (layers_of self) in
  match from_end alloc_layers 1 with
  | Raise e => Raise e
  | Ok l =>
      match layer_allocate l shared_outputs s with
      | Raise e => Raise e
      | Ok s' => allocate_each (layers_of self) s'
      end
  end.

End Allocate.

(** ** Terminals *)

(** [get_terminal] of the containers.  Modelled from the spec for a leaf
    layer (neon.layers.layer), whose terminal is the layer itself.  The
    result is a layer, or a list of terminals. *)
Fixpoint get_terminal (self : layer) : result nested :=
  let each :=
    fix each (ls : list layer) : result (list nested) :=
      match ls with
      | [] => Ok []
      | l :: rest =>
          match get_terminal l with
          | Raise e => Raise e
          | Ok t =>
              match each rest with
              | Raise e => Raise e
              | Ok ts => Ok (t :: ts)
              end
          end
      end in
  match self with
  | Leaf _ => Ok (NLayer self)
  | SequentialObj _ _ ls _ =>
      (fix last (ls : list layer) : result nested :=
         match ls with
         | [] => Raise IndexError
         | [l] => get_terminal l
         | _ :: rest => last rest
         end) ls
  | TreeObj _ _ ls _ _ =>
      match each ls with
      | Raise e => Raise e
      | Ok ts => Ok (NIter PyList ts)
      end
  | MergeBroadcastObj _ _ ls _ _ _ =>
      match each ls with
      | Raise e => Raise e
      | Ok ts => Ok (NIter PyList ts)
      end
  | ResidualModuleObj _ ls _ =>
      match ls with
      | [] => Raise IndexError
      | trunk :: _ => get_terminal trunk
      end
  end.

(** [[l.get_terminal() for l in ls]], by name. *)
Fixpoint get_terminals (ls : list layer) : result (list nested) :=
  match ls with
  | [] => Ok []
  | l :: rest =>
      match get_terminal l with
      | Raise e => Raise e
      | Ok t =>
          match get_terminals rest with
          | Raise e => Raise e
          | Ok ts => Ok (t :: ts)
          end
      end
  end.

(** ** Multicost: attaching the costs *)

Section MulticostInitialize.

Import Multicost.

(** The backend state. *)
Context {cost S : Type}.

(** [c.initialize(ll)] of a cost layer (neon.layers.layer). *)
Variable cost_initialize : cost -> nested -> S -> result S.

(** [for c, ll in zip(self.costs, terminals): c.initialize(ll)] *)
Fixpoint initialize_each (cs : list cost) (terminals : list nested) (s : S)
  : result S :=
  match cs, terminals with
  | c :: cs', ll :: terminals' =>
      match cost_initialize c ll s with
      | Raise e => Raise e
      | Ok s' => initialize_each cs' terminals' s'
      end
  | _, _ => Ok s
  end.

(** [Multicost.initialize(self, in_obj)].  A leaf layer has no attribute
    [layers]; a terminal that is a single layer is not iterable. *)
Definition Multicost_initialize (self : @multicost cost) (in_obj : layer)
  (s : S) : result S :=
  if negb (is_container in_obj) then Raise AssertionError
  else
    match get_terminal in_obj with
    | Raise e => Raise e
    | Ok (NLayer _) => Raise TypeError
    | Ok (NIter _ terminals) => initialize_each (costs self) terminals s
    end.

End MulticostInitialize.

(** ** Reconstruction and the descriptor it is handed

    [gen_class] takes ['layers'] out of the config it is handed while it
    calls the constructor and puts it back afterwards.  The functions below
    are [gen_class] once more, together with the descriptor as the call
    leaves it. *)

Section GenClassState.

Variable Layer_owns_output : bool.

(** What [gen_class] of a leaf class leaves of the descriptor it is handed
    (neon.layers.layer). *)
Variable leaf_config_after : leaf_class -> desc -> desc.

(** [cls.gen_class(pdict)] and [pdict] after the call. *)
Fixpoint gen_class_st (cls : pytype) (d : desc) (n : oid) {struct d}
  : result (layer * oid) * desc :=
  match d with
  | MkDesc typ c args layers =>
      match cls with
      | TLeaf lc => (leaf_gen_class lc args n, leaf_config_after lc d)
      | _ =>
          match layers with
          | None => (Raise KeyError, d)
          | Some ds =>
              let '(r, ds') :=
                (fix each (ds : list desc) (n : oid)
                   : result (list layer * oid) * list desc :=
                   match ds with
                   | [] => (Ok ([], n), [])
                   | (MkDesc t _ _ _ as layer) :: rest =>
                       match resolve_class t with
                       | Raise e => (Raise e, layer :: rest)
                       | Ok ccls =>
                           match gen_class_st ccls layer n with
                           | (Raise e, layer') => (Raise e, layer' :: rest)
                           | (Ok (x, n1), layer') =>
                               match each rest n1 with
                               | (Raise e, rest') =>
                                   (Raise e, layer' :: rest')
                               | (Ok (xs, n2), rest') =>
                                   (Ok (x :: xs, n2), layer' :: rest')
                               end
                           end
                       end
                   end) ds n in
              match r with
              | Raise e => (Raise e, MkDesc typ c args (Some ds'))
              | Ok (children, n') =>
                  match construct Layer_owns_output cls children args n' with
                  | Raise e => (Raise e, MkDesc typ c args None)
                  | Ok res => (Ok res, MkDesc typ c args (Some ds'))
                  end
              end
          end
      end
  end.

(** The loop of [gen_class] over [pdict['layers']] and the child
    descriptors after it, by name. *)
Fixpoint gen_children_st (ds : list desc) (n : oid)
  : result (list layer * oid) * list desc :=
  match ds with
  | [] => (Ok ([], n), [])
  | (MkDesc t _ _ _ as layer) :: rest =>
      match resolve_class t with
      | Raise e => (Raise e, layer :: rest)
      | Ok ccls =>
          match gen_class_st ccls layer n with
          | (Raise e, layer') => (Raise e, layer' :: rest)
          | (Ok (x, n1), layer') =>
              match gen_children_st rest n1 with
              | (Raise e, rest') => (Raise e, layer' :: rest')
              | (Ok (xs, n2), rest') => (Ok (x :: xs, n2), layer' :: rest')
              end
          end
      end
  end.

End GenClassState.

(** ** Forward propagation through the merges *)

Section MergeFprop.

Context {S value : Type}.

Variable layer_fprop : layer -> value -> bool -> S -> result (value * S).

(** [for l in ls: l.fprop(inputs, inference)]; what a branch returns is
    dropped. *)
Fixpoint fprop_broadcast (ls : list layer) (inputs : value)
  (inference : bool) (s : S) : result S :=
  match ls with
  | [] => Ok s
  | l :: rest =>
      match branch_fprop layer_fprop l inputs inference s with
      | Raise e => Raise e
      | Ok (_, s') => fprop_broadcast rest inputs inference s'
      end
  end.

(** [MergeBroadcast.fprop(self, inputs, inference=False)], where
    [outputs] is [self.outputs] as [allocate] bound it. *)
Definition MergeBroadcast_fprop (self : layer) (outputs : value)
  (inputs : value) (inference : bool) (s : S) : result (value * S) :=
  match fprop_broadcast (layers_of self) inputs inference s with
  | Raise e => Raise e
  | Ok s' => Ok (outputs, s')
  end.

(** [for l, inp in pairs: l.fprop(inp, inference)] *)
Fixpoint fprop_streams (pairs : list (layer * value)) (inference : bool)
  (s : S) : result S :=
  match pairs with
  | [] => Ok s
  | (l, inp) :: rest =>
      match branch_fprop layer_fprop l inp inference s with
      | Raise e => Raise e
      | Ok (_, s') => fprop_streams rest inference s'
      end
  end.

(** [MergeMultistream.fprop(self, inputs, inference=False)] *)
Definition MergeMultistream_fprop (self : layer) (outputs : value)
  (inputs : list value) (inference : bool) (s : S) : result (value * S) :=
  match fprop_streams (zip (layers_of self) inputs) inference s with
  | Raise e => Raise e
  | Ok s' => Ok (outputs, s')
  end.

End MergeFprop.

(** ** Backward propagation through Tree and the merges *)

(** [self.alphas] and [self.betas] of a Tree or a MergeBroadcast. *)
Definition alphas_of (self : layer) : list Q :=
  match self with
  | TreeObj _ _ _ alphas _ => alphas
  | MergeBroadcastObj _ _ _ _ alphas _ => alphas
  | _ => []
  end.

Definition betas_of (self : layer) : list Q :=
  match self with
  | TreeObj _ _ _ _ betas => betas
  | MergeBroadcastObj _ _ _ betas _ _ => betas
  | _ => []
  end.

(** [zip(xs, ys, zs, ws)]: as long as the shortest of the four. *)
Definition py_zip4 {A B C D : Type} (xs : list A) (ys : list B)
  (zs : list C) (ws : list D) : list (A * B * C * D) :=
  zip (zip (zip xs ys) zs) ws.

Section TreeBprop.

(** The backend state and the error handed to a branch. *)
Context {S value : Type}.

(** [l.bprop(e, alpha=a, beta=b)] of a branch; what it returns is
    dropped. *)
Variable layer_bprop : layer -> value -> Q -> Q -> S -> result S.

(** [for l, e, a, b in calls: l.bprop(e, alpha=a, beta=b)] *)
Fixpoint bprop_each (calls : list (layer * value * Q * Q)) (s : S)
  : result S :=
  match calls with
  | [] => Ok s
  | (l, e, a, b) :: rest =>
      match layer_bprop l e a b s with
      | Raise ex => Raise ex
      | Ok s' => bprop_each rest s'
      end
  end.

(** [Tree.bprop(self, error)]; it returns nothing. *)
Definition Tree_bprop (self : layer) (error : list value) (s : S)
  : result S :=
  bprop_each
    (rev (py_zip4 (layers_of self) error (alphas_of self) (betas_of self))) s.

End TreeBprop.

(** The attributes of a MergeBroadcast that change after construction:
    [betas], whose last entry [bprop] overwrites, [error_views], which
    [bprop] computes once, and [slices] and [deltas], which [configure]
    and [set_deltas] bind. *)
Record merge_attrs (A : Type) : Type := MkMergeAttrs {
  m_betas : list Q;
  m_error_views : option (list (MergeBroadcast.tensor2d A));
  m_slices : list MergeBroadcast.slice;
  m_deltas : option nat
}.
Arguments MkMergeAttrs {A} m_betas m_error_views m_slices m_deltas.
Arguments m_betas {A} m.
Arguments m_error_views {A} m.
Arguments m_slices {A} m.
Arguments m_deltas {A} m.

Section MergeBprop.

Import MergeBroadcast.

Context {S A : Type}.

(** The backend's batch size, [self.be.bsz]. *)
Variable bsz : Z.

Variable layer_bprop : layer -> tensor2d A -> Q -> Q -> S -> result S.

(** [for l, e, a, b in calls: l.bprop(e, alpha=a*alpha, beta=b)] *)
Fixpoint bprop_each_scaled (alpha : Q)
  (calls : list (layer * tensor2d A * Q * Q)) (s : S) : result S :=
  match calls with
  | [] => Ok s
  | (l, e, a, b) :: rest =>
      match layer_bprop l e (a * alpha)%Q b s with
      | Raise ex => Raise ex
      | Ok s' => bprop_each_scaled alpha rest s'
      end
  end.

(** [self.error_views] after the test [if self.error_views is None]. *)
Definition cached_error_views (attrs : merge_attrs A) (error : tensor2d A)
  : list (tensor2d A) :=
  match m_error_views attrs with
  | None => get_partitions bsz error (m_slices attrs)
  | Some views => views
  end.

(** [MergeBroadcast.bprop(self, error, alpha=1.0, beta=0.0)]: what it
    returns, [self.deltas], and the attributes as it leaves them. *)
Definition MergeBroadcast_bprop (self : layer) (attrs : merge_attrs A)
  (error : tensor2d A) (alpha beta : Q) (s : S)
  : result (option nat * merge_attrs A * S) :=
  match set_last (m_betas attrs) beta with
  | Raise ex => Raise ex
  | Ok betas =>
      let error_views := cached_error_views attrs error in
      match bprop_each_scaled alpha
              (rev (py_zip4 (layers_of self) error_views (alphas_of self)
                      betas)) s
      with
      | Raise ex => Raise ex
      | Ok s' =>
          Ok (m_deltas attrs,
              MkMergeAttrs betas (Some error_views) (m_slices attrs)
                (m_deltas attrs),
              s')
      end
  end.

(** [for l, e in pairs: l.bprop(e)] *)
Fixpoint bprop_each_default (pairs : list (layer * tensor2d A)) (s : S)
  : result S :=
  match pairs with
  | [] => Ok s
  | (l, e) :: rest =>
      match layer_bprop l e 1 0 s with
      | Raise ex => Raise ex
      | Ok s' => bprop_each_default rest s'
      end
  end.

(** [MergeMultistream.bprop(self, error, alpha=1.0, beta=0.0)]; it
    returns nothing. *)
Definition MergeMultistream_bprop (self : layer) (attrs : merge_attrs A)
  (error : tensor2d A) (alpha beta : Q) (s : S)
  : result (merge_attrs A * S) :=
  let error_views := cached_error_views attrs error in
  match bprop_each_default (zip (layers_of self) error_views) s with
  | Raise ex => Raise ex
  | Ok s' =>
      Ok (MkMergeAttrs (m_betas attrs) (Some error_views) (m_slices attrs)
            (m_deltas attrs),
          s')
  end.

End MergeBprop.

(** ** Delta buffers of Tree and the merges *)

Section BranchPools.

Variable in_shape : layer -> MergeBroadcast.shape.

Context {St : Type}.

Variable layer_set_deltas :
  layer -> option (list buffer) -> St -> result (option (list buffer) * St).

(** [for l in ls: l.allocate_deltas()], for branches that are
    Sequentials. *)
Fixpoint allocate_deltas_each (ls : list layer) (next : nat) (st : St)
  : result (nat * St) :=
  match ls with
  | [] => Ok (next, st)
  | l :: rest =>
      match allocate_deltas in_shape layer_set_deltas l None next st with
      | Raise e => Raise e
      | Ok (_, next', st') => allocate_deltas_each rest next' st'
      end
  end.

(** [Tree.allocate_deltas(self, global_deltas=None)] *)
Definition Tree_allocate_deltas (self : layer)
  (global_deltas : option (list buffer)) (next : nat) (st : St)
  : result (nat * St) :=
  allocate_deltas_each (rev (layers_of self)) next st.

(** [MergeMultistream.set_deltas(self, delta_buffers)]: the list as the
    call leaves it, the allocation counter and the state. *)
Definition MergeMultistream_set_deltas (self : layer)
  (delta_buffers : option (list buffer)) (next : nat) (st : St)
  : result (option (list buffer) * nat * St) :=
  match allocate_deltas_each (layers_of self) next st with
  | Raise e => Raise e
  | Ok (next', st') => Ok (delta_buffers, next', st')
  end.

End BranchPools.

Section MergeSetDeltas.

Variable prev_layer : layer -> option layer.

Variable in_shape : layer -> MergeBroadcast.shape.

(** [l.set_deltas(delta_buffers)] of a layer of a branch, which Python
    dispatches on the layer's class. *)
Variable layer_set_deltas :
  layer -> option (list buffer) -> rstate
  -> result (option (list buffer) * rstate).

(** The loop of [MergeBroadcast.set_deltas] over the branches:
    [l.allocate_deltas(delta_buffers[1:3])] and
    [l.layers[0].set_deltas(delta_buffers[0:1])]. *)
Fixpoint branches_set_deltas (ls : list layer) (bufs : list buffer)
  (next : nat) (st : rstate) : result (nat * rstate) :=
  match ls with
  | [] => Ok (next, st)
  | l :: rest =>
      match allocate_deltas in_shape layer_set_deltas l
              (Some (take 2 (drop 1 bufs))) next st
      with
      | Raise e => Raise e
      | Ok (_, next1, st1) =>
          match layers_of l with
          | [] => Raise IndexError
          | root :: _ =>
              match layer_set_deltas root (Some (take 1 bufs)) st1 with
              | Raise e => Raise e
              | Ok (_, st2) => branches_set_deltas rest bufs next1 st2
              end
          end
      end
  end.

(** [MergeBroadcast.set_deltas(self, delta_buffers)]: the list as the call
    leaves it, the allocation counter and the state.  [be.iobuf] with a
    shared buffer is a view of that buffer; with [shared=None] it
    allocates. *)
Definition MergeBroadcast_set_deltas (self : layer)
  (delta_buffers : option (list buffer)) (next : nat) (st : rstate)
  : result (option (list buffer) * nat * rstate) :=
  match delta_buffers with
  | None => Raise TypeError
  | Some bufs =>
      if negb (Nat.eqb (length bufs) 4) then Raise AssertionError
      else
        match branches_set_deltas (layers_of self) bufs next st with
        | Raise e => Raise e
        | Ok (next1, st1) =>
            if prev_is_BranchNode prev_layer self then
              match prev_layer self with
              | None => Raise AttributeError
              | Some p =>
                  match st_deltas st1 !! id_of p with
                  | Some d =>
                      Ok (Some bufs, next1, bind_deltas (id_of self) d st1)
                  | None =>
                      let '(b, next2) :=
                        iobuf (np_prod (in_shape self)) next1 in
                      Ok (Some bufs, next2,
                          bind_deltas (id_of self) (buf_addr b) st1)
                  end
              end
            else
              match bufs with
              | [] => Raise IndexError
              | b0 :: _ =>
                  Ok (Some (rev bufs), next1,
                      bind_deltas (id_of self) (buf_addr b0) st1)
              end
        end
  end.

End MergeSetDeltas.

(** The number of delta buffers a Sequential allocates when it is given
    none: none for a single layer, four when a child is a MergeBroadcast
    or a ResidualModule, two otherwise. *)
Definition pool_size (b : layer) : nat :=
  match tail (layers_of b) with
  | [] => 0
  | _ => if existsb needs_extra_delta (layers_of b) then 4 else 2
  end.

(** The buffer of the pool [[b0, b1, b2, b3]] that the layer at position
    [i] of a branch of a MergeBroadcast ends up with. *)
Definition branch_buffer (b0 b1 b2 : buffer) (i : nat) : buffer :=
  match i with
  | 0 => b0
  | _ => if Nat.even i then b1 else b2
  end.

(** Branch [b] is what the constructors of Tree and MergeBroadcast make of
    the element [e] of their argument: a Sequential is taken as it is, a
    list or another layer becomes the layers of a new Sequential. *)
Definition branch_of (dflt : bool) (e : element) (b : layer) : Prop :=
  match e with
  | ELayer l =>
      if bool_decide (type_of l = TSequential) then b = l
      else exists o _ls, b = SequentialObj o dflt [l] _ls
  | EList items =>
      exists o _ls, b = SequentialObj o dflt (flat_map flatten items) _ls
  | EOther _ => False
  end.

(** ** Multicost: the errors *)

Section GetErrors.

Import Multicost.

Context {cost : Type}.

(** [c.get_errors(i, t)] of a cost layer, which writes the error into the
    buffer [c.deltas] (neon.layers.layer). *)
Variable cost_get_errors : cost -> handle -> pyarg -> heap -> result heap.

Variable cost_deltas : cost -> handle.

(** [for c, i, t in zip(self.costs, inputs, l_targets): c.get_errors(i, t)] *)
Fixpoint get_errors_each (cs : list cost) (inputs : list handle)
  (l_targets : list pyarg) (h : heap) : result heap :=
  match cs, inputs, l_targets with
  | c :: cs', i :: inputs', t :: l_targets' =>
      match cost_get_errors c i t h with
      | Raise e => Raise e
      | Ok h' => get_errors_each cs' inputs' l_targets' h'
      end
  | _, _, _ => Ok h
  end.

(** [Multicost.get_errors(self, inputs, targets)] for a list or tuple
    [inputs]: the list it returns, which is [self.errors] as it leaves it,
    and the backend. *)
Definition Multicost_get_errors (self : @multicost cost)
  (errors : option (list handle)) (inputs : list handle) (targets : pyarg)
  (h : heap) : result (list handle * heap) :=
  let l_targets :=
    if is_tuple_or_list targets then map Tensor (items_of targets)
    else map (fun _ => targets) (costs self) in
  let errors :=
    match errors with
    | None => map cost_deltas (costs self)
    | Some es => es
    end in
  match get_errors_each (costs self) inputs l_targets h with
  | Raise e => Raise e
  | Ok h' => Ok (errors, h')
  end.

End GetErrors.

(** ** Further example objects *)

(** The residual block of two convolutions, built with a projection. *)
Definition projected_block : layer :=
  Eval vm_compute in
    match ResidualModule_init true two_convs (Some "Gaussian"%string) 10 with
    | Ok (m, _) => m
    | Raise _ => branch_node 0
    end.

(** A loader that only records which leaf was handed which descriptor. *)
Definition logging_load (l : layer) (d : desc) (inference : bool)
  (log : list (oid * desc)) : result (list (oid * desc)) :=
  Ok (log ++ [(id_of l, d)]).

Definition dropout (o : oid) : layer :=
  Leaf (MkLeaf o Dropout false 0 0).

(** An allocator that only records which layer was handed which buffer. *)
Definition logging_allocate (l : layer) (shared : option nat)
  (log : list (oid * option nat)) : result (list (oid * option nat)) :=
  Ok (log ++ [(id_of l, shared)]).

(** [Sequential([conv1, act2, conv3, act4])] *)
Definition conv_act_chain : layer :=
  Eval vm_compute in
    match Sequential_init true
            (NIter PyList [NLayer (conv 1); NLayer (activation 2);
                           NLayer (conv 3); NLayer (activation 4)]) 10
    with
    | Ok (s, _) => s
    | Raise _ => branch_node 0
    end.

(** A cost layer that only records the terminal it was attached to. *)
Definition logging_initialize (c : nat) (ll : nested)
  (log : list (nat * list oid)) : result (list (nat * list oid)) :=
  Ok (log ++ [(c, map id_of (flatten ll))]).

(** A batch-major tensor of six rows for a batch of two, and a
    time-major tensor of two rows and six columns. *)
Definition six_rows : MergeBroadcast.tensor2d nat :=
  MergeBroadcast.MkTensor [[1; 1]; [2; 2]; [3; 3]; [4; 4]; [5; 5]; [6; 6]] 2.

Definition six_columns : MergeBroadcast.tensor2d nat :=
  MergeBroadcast.MkTensor [[1; 2; 3; 4; 5; 6]; [7; 8; 9; 10; 11; 12]] 6.

(** [MergeBroadcast([[conv1, affine2], [conv3, affine4]], "depth")] *)
Definition two_branch_merge : layer :=
  Eval vm_compute in
    match MergeBroadcast_init true
            [ EList [NLayer (conv 1); NLayer (affine 2)];
              EList [NLayer (conv 3); NLayer (affine 4)] ] "depth" None 10
    with
    | Ok (m, _) => m
    | Raise _ => branch_node 0
    end.

(** A branch that only records what it was asked to propagate back. *)
Definition logging_bprop (l : layer) (e : nat) (a b : Q)
  (log : list (oid * nat * Q * Q)) : result (list (oid * nat * Q * Q)) :=
  Ok (log ++ [(id_of l, e, a, b)]).

(** [MergeMultistream([[conv1, affine2], [conv3, affine4]], "stack")] *)
Definition two_stream_merge : layer :=
  Eval vm_compute in
    match MergeMultistream_init true
            [ EList [NLayer (conv 1); NLayer (affine 2)];
              EList [NLayer (conv 3); NLayer (affine 4)] ] "stack" 10
    with
    | Ok (m, _) => m
    | Raise _ => branch_node 0
    end.

(** A branch that only records the rows of the view it was handed and its
    weights. *)
Definition logging_view_bprop (l : layer) (e : MergeBroadcast.tensor2d nat)
  (a b : Q) (log : list (oid * list (list nat) * Q * Q))
  : result (list (oid * list (list nat) * Q * Q)) :=
  Ok (log ++ [(id_of l, MergeBroadcast.rows e, a, b)]).

(** The two costs of [two_costs], built without weights. *)
Definition unweighted_costs : @Multicost.multicost Multicost.cost_layer :=
  Multicost.MkMulticost
    [Multicost.MkCost Multicost.sum_squared 10;
     Multicost.MkCost Multicost.sum_product 11] [1; 1]%Q.

(** The backend after both costs were evaluated on [predictions]. *)
Definition costs_evaluated : heap :=
  store 11%nat [0 + (4 + 0)]%Q
    (store 10%nat [4 + 0 + 0]%Q Multicost.predictions).

(** Every layer follows the BranchNode 20, whose gradient sits in
    buffer 77. *)
Definition after_branch_node (l : layer) : option layer :=
  Some (branch_node 20).

Definition branch_node_wired : rstate :=
  MkState ∅ {[ 20%nat := 77%nat ]} ∅ ∅.

(** [Tree([conv_act_chain, None, conv5])]: a Sequential, a foreign
    element and a single layer. *)
Definition mixed_elements : list element :=
  [ELayer conv_act_chain; EOther PyNone; ELayer (conv 5)].

Definition mixed_tree : layer :=
  Eval vm_compute in
    match Tree_init true mixed_elements None 20 with
    | Ok (t, _) => t
    | Raise _ => branch_node 0
    end.

(** A residual block with the residual block of two convolutions between
    two convolutions of its own. *)
Definition nested_block : layer :=
  Eval vm_compute in
    match ResidualModule_init true
            (NIter PyList [NLayer (conv 3); NLayer residual_block;
                           NLayer (conv 4)]) None 20
    with
    | Ok (m, _) => m
    | Raise _ => branch_node 0
    end.

(** [l.set_deltas(pool)] by the class of [l], for a ResidualModule of leaf
    layers and for leaf layers. *)
Definition class_set_deltas (l : layer) (pool : option (list buffer))
  (st : rstate) : result (option (list buffer) * rstate) :=
  match l with
  | ResidualModuleObj _ _ _ =>
      ResidualModule_set_deltas image_shape leaf_set_deltas l pool 0 st
  | _ => leaf_set_deltas l pool st
  end.

(** * Part II: properties *)

(** ** Flattening *)

Lemma dfs_walk_app (stk : list nested) :
  dfs_walk stk = flat_map flatten stk.
Proof.
  funelim (dfs_walk stk); simp dfs_walk; simpl.
  - reflexivity.
  - congruence.
  - rewrite H, flat_map_app. reflexivity.
Qed.

Lemma flatten_depth_first (item : nested) :
  flatten item = depth_first_left_to_right item.
Proof.
  unfold depth_first_left_to_right. rewrite dfs_walk_app. simpl.
  symmetry. apply app_nil_r.
Qed.

Lemma flatten_flat_list (ls : list layer) :
  flat_map flatten (map NLayer ls) = ls.
Proof. induction ls as [|l rest IH]; simpl; congruence. Qed.

Lemma flatten_NIter_flat (k : iterable_kind) (ls : list layer) :
  flatten (NIter k (map NLayer ls)) = ls.
Proof. apply flatten_flat_list. Qed.

Lemma filter_all {A : Type} (P : A -> Prop) `{forall x, Decision (P x)}
  (l : list A) :
  Forall P l -> filter P l = l.
Proof.
  induction 1 as [|x l Hx _ IH]; [reflexivity|].
  rewrite filter_cons_True by exact Hx. congruence.
Qed.

Lemma Sequential_init_layers dflt arg n s n' :
  Sequential_init dflt arg n = Ok (s, n') ->
  s = SequentialObj n dflt (flatten arg)
        (filter (fun x => type_of x <> TLeaf BranchNode) (flatten arg))
  /\ n' = S n.
Proof.
  unfold Sequential_init, ctor_bind, new_object, ctor_ret, ctor_raise.
  destruct (filter _ (flatten arg)) as [|root rest]; [discriminate|].
  destruct (_ || _); [|discriminate].
  intros [= <- <-]. split; reflexivity.
Qed.

Lemma Sequential_init_nonempty dflt arg n r :
  Sequential_init dflt arg n = Ok r -> flatten arg <> [].
Proof.
  unfold Sequential_init, ctor_bind, new_object, ctor_ret, ctor_raise.
  intros H Hnil. rewrite Hnil in H. discriminate.
Qed.

Lemma Sequential_init_raises dflt arg n e :
  Sequential_init dflt arg n = Raise e -> e = IndexError \/ e = AssertionError.
Proof.
  unfold Sequential_init, ctor_bind, new_object, ctor_ret, ctor_raise.
  destruct (filter _ (flatten arg)) as [|root rest].
  - intros [= <-]. left. reflexivity.
  - destruct (_ || _); [discriminate|]. intros [= <-]. right. reflexivity.
Qed.

Example flatten_nested_example :
  flatten nested_example
  = [conv 1; activation 2; branch_node 3; conv 4; activation 5].
Proof. reflexivity. Qed.

Example dfs_nested_example :
  depth_first_left_to_right nested_example
  = [conv 1; activation 2; branch_node 3; conv 4; activation 5].
Proof.
  unfold depth_first_left_to_right, nested_example.
  repeat (simp dfs_walk; simpl). reflexivity.
Qed.

(** C6.  A Sequential built from a nested list of layers of nesting depth
    at least 2 stores in [layers] the layers in the order of the
    depth-first, left-to-right walk of that nested structure. *)
Theorem Sequential_layers_depth_first
  (dflt : bool) (arg : nested) (n n' : oid) (s : layer) :
  2 <= nesting_depth arg ->
  Sequential_init dflt arg n = Ok (s, n') ->
  layers_of s = depth_first_left_to_right arg.
Proof.
  intros _ Hinit.
  apply Sequential_init_layers in Hinit as [-> _]. simpl.
  apply flatten_depth_first.
Qed.

Lemma Sequential_layers_depth_first_witness :
  layers_of
    (SequentialObj 10 true
       [conv 1; activation 2; branch_node 3; conv 4; activation 5]
       [conv 1; activation 2; conv 4; activation 5])
  = depth_first_left_to_right nested_example.
Proof.
  apply (Sequential_layers_depth_first true nested_example 10 11).
  - vm_compute. lia.
  - reflexivity.
Defined.

(** ** Tree: the per-branch betas *)

Lemma betas_loop_roots rl : forall next_root acc,
  betas_loop rl next_root acc
  = match roots_of rl with
    | Some rs => Ok (acc ++ betas_backward rs next_root)
    | None => Raise IndexError
    end.
Proof.
  induction rl as [|l rest IH]; intros nr acc; simpl.
  - rewrite app_nil_r. reflexivity.
  - destruct (layers_of l) as [|root tl]; [reflexivity|].
    rewrite IH. destruct (roots_of rest) as [rs|]; [|reflexivity].
    simpl. rewrite <- app_assoc. reflexivity.
Qed.

Lemma roots_of_app (a b : list layer) :
  roots_of (a ++ b)
  = match roots_of a, roots_of b with
    | Some x, Some y => Some (x ++ y)
    | _, _ => None
    end.
Proof.
  induction a as [|l rest IH]; simpl.
  - destruct (roots_of b); reflexivity.
  - destruct (layers_of l) as [|root tl]; [reflexivity|].
    rewrite IH. destruct (roots_of rest), (roots_of b); reflexivity.
Qed.

Lemma roots_of_rev (ls : list layer) :
  roots_of (rev ls) = option_map (@rev layer) (roots_of ls).
Proof.
  induction ls as [|l rest IH]; simpl; [reflexivity|].
  rewrite roots_of_app, IH. simpl.
  destruct (layers_of l) as [|root tl]; simpl.
  - destruct (roots_of rest); reflexivity.
  - destruct (roots_of rest); reflexivity.
Qed.

Lemma betas_backward_snoc (rs : list layer) (r : layer) :
  forall next_root,
  betas_backward (rs ++ [r]) next_root
  = betas_backward rs next_root
    ++ [tree_beta r (match last rs with Some x => Some x | None => next_root end)].
Proof.
  induction rs as [|x rest IH]; intros nr; simpl; [reflexivity|].
  rewrite IH. f_equal. f_equal. f_equal.
  destruct rest as [|y ys]; simpl; [reflexivity|].
  destruct (last (y :: ys)) eqn:E; [reflexivity|].
  apply last_None in E. discriminate.
Qed.

Lemma betas_backward_rev (rs : list layer) :
  rev (betas_backward (rev rs) None) = betas_forward rs.
Proof.
  induction rs as [|r rest IH]; simpl; [reflexivity|].
  rewrite betas_backward_snoc, rev_app_distr. simpl. rewrite IH.
  f_equal. f_equal.
  destruct rest as [|y ys]; simpl; [reflexivity|].
  rewrite last_snoc. reflexivity.
Qed.

Lemma Tree_betas_forward (ls : list layer) :
  Tree_betas ls
  = match roots_of ls with
    | Some rs => Ok (betas_forward rs)
    | None => Raise IndexError
    end.
Proof.
  unfold Tree_betas. rewrite betas_loop_roots, roots_of_rev.
  destruct (roots_of ls) as [rs|]; simpl; [|reflexivity].
  rewrite betas_backward_rev. reflexivity.
Qed.

Lemma roots_of_lookup (ls rs : list layer) (i : nat) :
  roots_of ls = Some rs -> root_at ls i = rs !! i.
Proof.
  revert rs i. induction ls as [|l rest IH]; intros rs i; simpl.
  - intros [= <-]. unfold root_at. rewrite !lookup_nil. reflexivity.
  - destruct (layers_of l) as [|root tl] eqn:El; [discriminate|].
    destruct (roots_of rest) as [rs'|]; [|discriminate].
    intros [= <-]. destruct i as [|i]; unfold root_at; simpl.
    + rewrite El. reflexivity.
    + apply (IH rs' i eq_refl).
Qed.

Lemma roots_of_length (ls rs : list layer) :
  roots_of ls = Some rs -> length rs = length ls.
Proof.
  revert rs. induction ls as [|l rest IH]; intros rs; simpl.
  - intros [= <-]. reflexivity.
  - destruct (layers_of l); [discriminate|].
    destruct (roots_of rest) as [rs'|]; [|discriminate].
    intros [= <-]. simpl. f_equal. apply IH. reflexivity.
Qed.

Lemma roots_of_nonempty (cs : list layer) :
  Forall (fun c => layers_of c <> []) cs -> exists rs, roots_of cs = Some rs.
Proof.
  induction 1 as [|c rest Hc _ [rs IH]]; simpl.
  - eauto.
  - destruct (layers_of c) as [|root tl]; [congruence|].
    rewrite IH. eauto.
Qed.

Lemma betas_forward_length (rs : list layer) :
  length (betas_forward rs) = length rs.
Proof. induction rs; simpl; congruence. Qed.

Lemma betas_forward_lookup (rs : list layer) (i : nat) (r : layer) :
  rs !! i = Some r ->
  betas_forward rs !! i = Some (tree_beta r (rs !! S i)).
Proof.
  revert i. induction rs as [|x rest IH]; intros i; [rewrite lookup_nil; discriminate|].
  destruct i as [|i]; simpl.
  - intros [= ->]. f_equal. f_equal. destruct rest; reflexivity.
  - apply IH.
Qed.

Lemma Tree_init_ok dflt elems alphas n t n' :
  Tree_init dflt elems alphas n = Ok (t, n') ->
  exists ls bs,
    wrap_branches dflt elems [] (S n) = Ok (ls, n')
    /\ Tree_betas ls = Ok bs
    /\ t = TreeObj n dflt ls (default_alphas alphas ls) bs.
Proof.
  unfold Tree_init, ctor_bind, new_object, ctor_ret, ctor_raise.
  destruct (wrap_branches dflt elems [] (S n)) as [[ls m]|e] eqn:Ew;
    [|discriminate].
  destruct (Tree_betas ls) as [bs|e] eqn:Eb; [|discriminate].
  intros [= <- <-]. exists ls, bs. repeat split; assumption.
Qed.

(** Among the indices below [n] that satisfy a decidable property there is a
    last one. *)
Lemma last_index_such_that (P : nat -> bool) (n : nat) :
  (exists i, i < n /\ P i = true) ->
  exists i, i < n /\ P i = true /\ forall j, i < j -> j < n -> P j = false.
Proof.
  induction n as [|n IH]; intros (i & Hi & HP); [lia|].
  destruct (P n) eqn:En.
  - exists n. repeat split; [lia | exact En | intros; lia].
  - destruct IH as (k & Hk & HPk & Hmax).
    + exists i. split; [|exact HP].
      destruct (decide (i = n)) as [->|]; [congruence | lia].
    + exists k. repeat split; [lia | exact HPk |].
      intros j Hj1 Hj2. destruct (decide (j = n)) as [->|]; [exact En|].
      apply Hmax; lia.
Qed.

Lemma rooted_at_Some (ls : list layer) (r : layer) (i : nat) :
  rooted_at ls r i = true ->
  exists x, root_at ls i = Some x /\ id_of x = id_of r.
Proof.
  unfold rooted_at. destruct (root_at ls i) as [x|]; [|discriminate].
  unfold py_is. intros H. apply Nat.eqb_eq in H. eauto.
Qed.

Example scattered_tree_betas :
  tree_betas (Tree_init true scattered_tree None 0) = [1; 0; 0; 0]%Q.
Proof. reflexivity. Qed.

Example ordered_tree_betas :
  tree_betas (Tree_init true ordered_tree None 0) = [1; 1; 0; 0]%Q.
Proof. reflexivity. Qed.

(** C1, refuted as stated.  In [scattered_tree] the branches 1 and 3 have
    the same BranchNode instance as their first layer, and both are
    assigned beta 0.0. *)
Lemma Tree_betas_two_initialisers :
  is_ok (Tree_init true scattered_tree None 0) = true
  /\ rooted_at (tree_branches (Tree_init true scattered_tree None 0))
       (branch_node 2) 1 = true
  /\ rooted_at (tree_branches (Tree_init true scattered_tree None 0))
       (branch_node 2) 3 = true
  /\ tree_betas (Tree_init true scattered_tree None 0) !! 1 = Some 0%Q
  /\ tree_betas (Tree_init true scattered_tree None 0) !! 3 = Some 0%Q.
Proof. repeat split; reflexivity. Qed.

(** C1, amended.  In a constructed Tree every branch has a first layer
    and a beta.  Every branch whose first layer is not a BranchNode, the
    trunk among them, has beta 1.0.  For a BranchNode instance [r] that is
    the first layer of some branch, when the branches that start at [r]
    stand next to one another in the branch list, exactly one of them, the
    last, has beta 0.0 and every other one has beta 1.0. *)
Theorem Tree_betas_one_initialiser
  (dflt : bool) (elems : list element) (alphas : option (list Q))
  (n n' o : oid) (owns : bool) (ls : list layer) (als bs : list Q) :
  Tree_init dflt elems alphas n = Ok (TreeObj o owns ls als bs, n') ->
  length bs = length ls
  /\ (forall i, i < length ls ->
        exists x b, root_at ls i = Some x /\ bs !! i = Some b)
  /\ (forall i x, root_at ls i = Some x ->
                  type_of x <> TLeaf BranchNode -> bs !! i = Some 1%Q)
  /\ (forall r,
        type_of r = TLeaf BranchNode ->
        (exists i, rooted_at ls r i = true) ->
        (forall i x, root_at ls i = Some x -> id_of x = id_of r ->
                     type_of x = type_of r) ->
        (forall i j k, i <= j -> j <= k ->
                       rooted_at ls r i = true -> rooted_at ls r k = true ->
                       rooted_at ls r j = true) ->
        exists i,
          rooted_at ls r i = true
          /\ (forall j, rooted_at ls r j = true -> j <= i)
          /\ bs !! i = Some 0%Q
          /\ forall j, rooted_at ls r j = true -> j <> i ->
                       bs !! j = Some 1%Q).
Proof.
  intros Hinit.
  apply Tree_init_ok in Hinit as (ls' & bs' & _ & Hbetas & Heq).
  injection Heq as _ _ Hls _ Hbs. subst ls' bs'.
  rewrite Tree_betas_forward in Hbetas.
  destruct (roots_of ls) as [rs|] eqn:Hroots; [|discriminate].
  injection Hbetas as <-.
  pose proof (roots_of_length _ _ Hroots) as Hlen.
  assert (Hroot : forall i, root_at ls i = rs !! i)
    by (intros; eapply roots_of_lookup; eassumption).
  split; [rewrite betas_forward_length; exact Hlen|].
  split; [|split].
  - intros i Hi. rewrite <- Hlen in Hi.
    apply lookup_lt_is_Some_2 in Hi as [x Hx].
    exists x, (tree_beta x (rs !! S i)).
    rewrite Hroot. split; [exact Hx|].
    apply betas_forward_lookup, Hx.
  - intros i x Hx Hty. rewrite Hroot in Hx.
    rewrite (betas_forward_lookup _ _ _ Hx). f_equal.
    unfold tree_beta. rewrite (bool_decide_eq_true_2 _ Hty).
    rewrite orb_true_r. reflexivity.
  - intros r Hr [i0 Hi0] Hid Hadj.
    destruct (last_index_such_that (rooted_at ls r) (length ls))
      as (i & Hi & HPi & Hmax).
    { exists i0. split; [|exact Hi0].
      apply rooted_at_Some in Hi0 as (x & Hx & _).
      rewrite Hroot in Hx. apply lookup_lt_Some in Hx. lia. }
    assert (Hlast : forall j, rooted_at ls r j = true -> j <= i).
    { intros j Hj.
      destruct (decide (j <= i)) as [|Hgt]; [assumption|].
      destruct (rooted_at_Some _ _ _ Hj) as (x & Hx & _).
      rewrite Hroot in Hx. apply lookup_lt_Some in Hx.
      rewrite (Hmax j ltac:(lia) ltac:(lia)) in Hj. discriminate. }
    exists i. split; [exact HPi|]. split; [exact Hlast|]. split.
    + destruct (rooted_at_Some _ _ _ HPi) as (x & Hx & Hxid).
      pose proof (Hid _ _ Hx Hxid) as Hty.
      rewrite Hroot in Hx.
      rewrite (betas_forward_lookup _ _ _ Hx). f_equal.
      unfold tree_beta.
      assert (Hnext : is_next_root x (rs !! S i) = false).
      { destruct (rs !! S i) as [y|] eqn:Ey; [|reflexivity]. simpl.
        assert (Hlt : S i < length ls)
          by (apply lookup_lt_Some in Ey; lia).
        specialize (Hmax (S i) ltac:(lia) Hlt).
        unfold rooted_at in Hmax. rewrite Hroot, Ey in Hmax.
        unfold py_is in *. rewrite Hxid.
        rewrite Nat.eqb_sym. exact Hmax. }
      rewrite Hnext. simpl.
      rewrite bool_decide_eq_false_2; [reflexivity|].
      intros Hne. apply Hne. congruence.
    + intros j Hj Hji.
      destruct (rooted_at_Some _ _ _ Hj) as (x & Hx & Hxid).
      rewrite Hroot in Hx.
      rewrite (betas_forward_lookup _ _ _ Hx). f_equal.
      assert (Hjlt : j < i) by (specialize (Hlast j Hj); lia).
      pose proof (Hadj j (S j) i ltac:(lia) ltac:(lia) Hj HPi) as Hsj.
      destruct (rooted_at_Some _ _ _ Hsj) as (y & Hy & Hyid).
      rewrite Hroot in Hy. rewrite Hy.
      unfold tree_beta. simpl. unfold py_is.
      rewrite Hxid, Hyid, Nat.eqb_refl. reflexivity.
Qed.

Lemma Tree_betas_one_initialiser_witness :
  length [1; 1; 0; 0]%Q = length ordered_branches
  /\ (forall i, i < length ordered_branches ->
        exists x b, root_at ordered_branches i = Some x
                    /\ [1; 1; 0; 0]%Q !! i = Some b)
  /\ (forall i x, root_at ordered_branches i = Some x ->
                  type_of x <> TLeaf BranchNode ->
                  [1; 1; 0; 0]%Q !! i = Some 1%Q)
  /\ (exists i, rooted_at ordered_branches (branch_node 2) i = true
                /\ (forall j, rooted_at ordered_branches (branch_node 2) j
                              = true -> j <= i)
                /\ [1; 1; 0; 0]%Q !! i = Some 0%Q
                /\ forall j, rooted_at ordered_branches (branch_node 2) j
                             = true ->
                             j <> i -> [1; 1; 0; 0]%Q !! j = Some 1%Q).
Proof.
  destruct (Tree_betas_one_initialiser true ordered_tree None 0 5 0 true
              ordered_branches [1; 1; 1; 1]%Q [1; 1; 0; 0]%Q eq_refl)
    as (Hlen & Hall & Htrunk & Hnode).
  split; [exact Hlen|]. split; [exact Hall|]. split; [exact Htrunk|].
  apply (Hnode (branch_node 2)).
  - reflexivity.
  - exists 1. reflexivity.
  - intros i x.
    do 4 (destruct i as [|i]; [intros [= <-]; vm_compute; congruence|]).
    discriminate.
  - intros i j k Hij Hjk.
    destruct i as [|[|[|[|i]]]]; destruct j as [|[|[|[|j]]]];
      destruct k as [|[|[|[|k]]]];
      try (exfalso; lia); vm_compute; congruence.
Defined.

(** ** Elements that are neither a Sequential, a list nor a Layer *)

Lemma wrap_branches_skips dflt (elems : list element) :
  forall self_layers n,
  wrap_branches dflt elems self_layers n
  = wrap_branches dflt (List.filter compatible elems) self_layers n.
Proof.
  induction elems as [|e rest IH]; intros acc n; [reflexivity|].
  destruct e as [l|items|x]; simpl.
  - destruct (bool_decide (type_of l = TSequential)); [apply IH|].
    unfold ctor_bind. destruct (Sequential_init dflt _ n) as [[s m]|err];
      [apply IH | reflexivity].
  - unfold ctor_bind. destruct (Sequential_init dflt _ n) as [[s m]|err];
      [apply IH | reflexivity].
  - apply IH.
Qed.

Lemma wrap_branches_raises dflt (elems : list element) :
  forall self_layers n e,
  wrap_branches dflt elems self_layers n = Raise e ->
  e = IndexError \/ e = AssertionError.
Proof.
  induction elems as [|x rest IH]; intros acc n e; simpl.
  - discriminate.
  - destruct x as [l|items|x].
    + destruct (bool_decide (type_of l = TSequential)); [apply IH|].
      unfold ctor_bind.
      destruct (Sequential_init dflt _ n) as [[s m]|err] eqn:E; [apply IH|].
      intros [= <-]. eapply Sequential_init_raises. exact E.
    + unfold ctor_bind.
      destruct (Sequential_init dflt _ n) as [[s m]|err] eqn:E; [apply IH|].
      intros [= <-]. eapply Sequential_init_raises. exact E.
    + apply IH.
Qed.

Lemma wrap_branches_sequentials dflt (cs : list layer) :
  Forall (fun c => type_of c = TSequential) cs ->
  forall acc n,
  wrap_branches dflt (map ELayer cs) acc n = Ok (acc ++ cs, n).
Proof.
  induction 1 as [|c rest Hc _ IH]; intros acc n; simpl.
  - rewrite app_nil_r. reflexivity.
  - rewrite (bool_decide_eq_true_2 _ Hc), IH, <- app_assoc. reflexivity.
Qed.

Lemma Tree_init_raises dflt elems alphas n e :
  Tree_init dflt elems alphas n = Raise e ->
  e = IndexError \/ e = AssertionError.
Proof.
  unfold Tree_init, ctor_bind, new_object, ctor_ret, ctor_raise.
  destruct (wrap_branches dflt elems [] (S n)) as [[ls m]|err] eqn:E.
  - rewrite Tree_betas_forward. destruct (roots_of ls); [discriminate|].
    intros [= <-]. left. reflexivity.
  - intros [= <-]. eapply wrap_branches_raises. exact E.
Qed.

Lemma MergeBroadcast_init_raises dflt ms elems merge alphas n e :
  MergeBroadcast_init_as dflt ms elems merge alphas n = Raise e ->
  e = IndexError \/ e = AssertionError.
Proof.
  unfold MergeBroadcast_init_as, ctor_bind, new_object, ctor_ret, ctor_raise.
  destruct (wrap_branches dflt elems [] (S n)) as [[ls m]|err] eqn:E.
  - unfold set_last. destruct (map _ ls).
    + intros [= <-]. left. reflexivity.
    + destruct (bool_decide _); [discriminate|].
      intros [= <-]. right. reflexivity.
  - intros [= <-]. eapply wrap_branches_raises. exact E.
Qed.

Example Tree_of_foreign_elements :
  Tree_init true [EOther PyNone; EOther (PyInt 3)] None 0
  = Ok (TreeObj 0 true [] [] [], 1).
Proof. reflexivity. Qed.

Example Tree_skips_tuple :
  Tree_init true
    [EList [NLayer (conv 1)];
     EOther (PyTupleOf [NLayer (branch_node 2); NLayer (affine 3)])] None 0
  = Ok (TreeObj 0 true [SequentialObj 1 true [conv 1] [conv 1]]
          [1%Q] [1%Q], 2).
Proof. reflexivity. Qed.

(** C10, refuted as stated.  A MergeBroadcast whose only element is
    [None] does not complete its construction: with no branch left,
    [self.betas[-1] = 0.0] raises IndexError. *)
Lemma MergeBroadcast_foreign_only_raises :
  MergeBroadcast_init true [EOther PyNone] "depth" None 0 = Raise IndexError.
Proof. reflexivity. Qed.

(** C10, amended.  An element that is neither a Sequential, a list nor a
    Layer is left out of the branch list and raises nothing: Tree and
    MergeBroadcast construction run exactly as on the argument without
    such elements, so they complete whenever that construction does, and
    neither ever raises ValueError. *)
Theorem foreign_elements_skipped
  (dflt ms : bool) (elems : list element) (merge : string)
  (alphas : option (list Q)) (n : oid) :
  Tree_init dflt elems alphas n
  = Tree_init dflt (List.filter compatible elems) alphas n
  /\ MergeBroadcast_init_as dflt ms elems merge alphas n
     = MergeBroadcast_init_as dflt ms (List.filter compatible elems)
         merge alphas n
  /\ Tree_init dflt elems alphas n <> Raise ValueError
  /\ MergeBroadcast_init_as dflt ms elems merge alphas n <> Raise ValueError.
Proof.
  repeat split.
  - unfold Tree_init, ctor_bind, new_object.
    rewrite wrap_branches_skips. reflexivity.
  - unfold MergeBroadcast_init_as, ctor_bind, new_object.
    rewrite wrap_branches_skips. reflexivity.
  - intros H. apply Tree_init_raises in H as [H|H]; discriminate.
  - intros H. apply MergeBroadcast_init_raises in H as [H|H]; discriminate.
Qed.

(** ** MergeBroadcast: the depth merge *)

Section MergeFacts.

Import MergeBroadcast.
Local Open Scope Z_scope.

Lemma cumsum_from_lookup (xs : list Z) : forall acc i x,
  xs !! i = Some x ->
  cumsum_from acc xs !! i = Some (acc + sum (take (S i) xs)).
Proof.
  induction xs as [|y rest IH]; intros acc i x; [rewrite lookup_nil; discriminate|].
  destruct i as [|i]; simpl.
  - intros _. rewrite ?take_0. unfold sum. simpl. f_equal. lia.
  - intros H. rewrite (IH _ _ _ H). f_equal. unfold sum. simpl. lia.
Qed.

Lemma cumsum_from_length (xs : list Z) acc :
  length (cumsum_from acc xs) = length xs.
Proof. revert acc. induction xs; intros; simpl; [reflexivity | f_equal; auto]. Qed.

Lemma but_last_lookup {A : Type} (xs : list A) (i : nat) :
  (S i < length xs)%nat -> but_last xs !! i = xs !! i.
Proof.
  unfold but_last. revert i. induction xs as [|x rest IH]; intros i; simpl.
  - lia.
  - destruct rest as [|y ys]; [simpl; lia|].
    intros H. destruct i as [|i]; [reflexivity|].
    simpl. apply IH. simpl in *. lia.
Qed.

Lemma but_last_length {A : Type} (xs : list A) :
  length (but_last xs) = pred (length xs).
Proof.
  unfold but_last. induction xs as [|x rest IH]; [reflexivity|].
  destruct rest as [|y ys]; [reflexivity|].
  change (removelast (x :: y :: ys)) with (x :: removelast (y :: ys)).
  change (length (x :: removelast (y :: ys)))
    with (S (length (removelast (y :: ys)))).
  rewrite IH. reflexivity.
Qed.

(** Slice [i] starts at the total of the sizes before branch [i] and stops
    at the total including it, both scaled by the stride. *)
Lemma make_slices_lookup (catdims : list Z) (stride : Z) (i : nat) (d : Z) :
  catdims !! i = Some d ->
  make_slices catdims stride !! i
  = Some (sum (take i catdims) * stride, sum (take (S i) catdims) * stride).
Proof.
  intros Hd. unfold make_slices, cumsum.
  pose proof (lookup_lt_Some _ _ _ Hd) as Hlt.
  set (ends := map (fun idx => idx * stride) (cumsum_from 0 catdims)).
  assert (Hend : forall j x, catdims !! j = Some x ->
            ends !! j = Some (sum (take (S j) catdims) * stride)).
  { intros j x Hj. unfold ends. rewrite list_lookup_fmap.
    rewrite (cumsum_from_lookup _ _ _ _ Hj). reflexivity. }
  assert (Hlen : length ends = length catdims).
  { unfold ends. rewrite length_map. apply cumsum_from_length. }
  apply lookup_zip_with_Some.
  exists (sum (take i catdims) * stride), (sum (take (S i) catdims) * stride).
  split; [reflexivity|]. split; [|eapply Hend; exact Hd].
  destruct i as [|i]; [reflexivity|].
  simpl lookup at 1.
  change ((0 :: but_last ends) !! S i) with (but_last ends !! i).
  rewrite but_last_lookup by lia.
  destruct (catdims !! i) as [x|] eqn:Ei.
  - eapply Hend. exact Ei.
  - apply lookup_ge_None in Ei. lia.
Qed.

Lemma make_slices_length (catdims : list Z) (stride : Z) :
  length (make_slices catdims stride) = length catdims.
Proof.
  unfold make_slices, cumsum. rewrite length_zip_with. simpl.
  rewrite but_last_length, length_map, cumsum_from_length.
  destruct catdims; simpl; lia.
Qed.

Lemma comprehension_leading (dims : list Z) (tails : list (list Z)) :
  length dims = length tails ->
  comprehension (fun xs => shape_item xs 0)
    (zip_with (fun d t => STuple (d :: t)) dims tails)
  = Ok dims.
Proof.
  revert tails. induction dims as [|d rest IH]; intros [|t ts]; simpl;
    try reflexivity; try discriminate.
  intros [= H]. rewrite (IH _ H). reflexivity.
Qed.

Example depth_merge_example bsz :
  _configure_merge "depth" [STuple [4; 8; 8]; STuple [4; 8; 8]] bsz
  = Ok (STuple [8; 8; 8], [(0, 256); (256, 512)]).
Proof. reflexivity. Qed.

Example recurrent_merge_example :
  _configure_merge "recurrent" [STuple [10; 3]; STuple [10; 4]] 32
  = Ok (STuple [10; 7], [(0, 96); (96, 224)]).
Proof. reflexivity. Qed.

Example stack_merge_example :
  _configure_merge "stack" [SInt 5; STuple [2; 3]] 32
  = Ok (SInt 11, [(0, 5); (5, 11)]).
Proof. reflexivity. Qed.

(** C2.  With merge "depth" and two sub-paths of output shape (4, 8, 8)
    the out_shape is (8, 8, 8) and the slices are 0:256 and 256:512;
    [get_partitions] on the concatenated output buffer, 512 rows of one
    batch each, returns the first 256 rows and the last 256 rows, which
    together are the buffer.  For any depth merge, slice [i] runs from the
    total of the leading dimensions before branch [i] to the total
    including it, each times the product of the trailing dimensions of
    the first branch. *)
Theorem depth_merge_partitions {A : Type} (bsz : Z) (x : tensor2d A) :
  ncols x = bsz ->
  length (rows x) = 512%nat ->
  _configure_merge "depth" [STuple [4; 8; 8]; STuple [4; 8; 8]] bsz
  = Ok (STuple [8; 8; 8], [(0, 256); (256, 512)])
  /\ get_partitions bsz x [(0, 256); (256, 512)]
     = [MkTensor (take 256 (rows x)) bsz; MkTensor (drop 256 (rows x)) bsz]
  /\ take 256 (rows x) ++ drop 256 (rows x) = rows x
  /\ length (take 256 (rows x)) = 256%nat
  /\ length (drop 256 (rows x)) = 256%nat
  /\ (forall (dims : list Z) (tails : list (list Z)) (t0 : list Z),
        length dims = length tails ->
        head tails = Some t0 ->
        exists slices,
          _configure_merge "depth"
            (zip_with (fun d t => STuple (d :: t)) dims tails) bsz
          = Ok (STuple (sum dims :: t0), slices)
          /\ length slices = length dims
          /\ forall i d, dims !! i = Some d ->
               slices !! i
               = Some (sum (take i dims) * prod t0,
                       sum (take (S i) dims) * prod t0)).
Proof.
  intros Hcols Hrows.
  split; [reflexivity|]. split.
  - unfold get_partitions. rewrite Hcols, Z.eqb_refl. simpl.
    unfold rows_view, py_slice. rewrite Hrows, Hcols. cbn [fst snd].
    change (Z.to_nat (clip 0 (Z.of_nat 512))) with 0%nat.
    change (Z.to_nat (clip 256 (Z.of_nat 512))) with 256%nat.
    change (Z.to_nat (clip 256 (Z.of_nat 512) - clip 0 (Z.of_nat 512)))
      with 256%nat.
    change (Z.to_nat (clip 512 (Z.of_nat 512) - clip 256 (Z.of_nat 512)))
      with 256%nat.
    rewrite drop_0. f_equal. f_equal. f_equal.
    apply take_ge. rewrite length_drop, Hrows. reflexivity.
  - split; [apply take_drop|].
    split; [rewrite length_take, Hrows; reflexivity|].
    split; [rewrite length_drop, Hrows; reflexivity|].
    intros dims tails t0 Hlen Hhd.
    destruct tails as [|t ts]; [discriminate|]. injection Hhd as ->.
    destruct dims as [|d ds]; [discriminate|].
    exists (make_slices (d :: ds) (prod t0)).
    split; [|split].
    + unfold _configure_merge.
      change (String.eqb "depth" "recurrent") with false.
      change (String.eqb "depth" "depth") with true. cbv iota.
      rewrite comprehension_leading by exact Hlen. reflexivity.
    + apply make_slices_length.
    + intros i d' Hi. eapply make_slices_lookup. exact Hi.
Qed.

Lemma depth_merge_partitions_witness :
  let x := MkTensor (replicate 512 [0; 0]) 2 in
  _configure_merge "depth" [STuple [4; 8; 8]; STuple [4; 8; 8]] 2
  = Ok (STuple [8; 8; 8], [(0, 256); (256, 512)])
  /\ get_partitions 2 x [(0, 256); (256, 512)]
     = [MkTensor (take 256 (rows x)) 2; MkTensor (drop 256 (rows x)) 2]
  /\ take 256 (rows x) ++ drop 256 (rows x) = rows x
  /\ length (take 256 (rows x)) = 256%nat
  /\ length (drop 256 (rows x)) = 256%nat
  /\ (forall (dims : list Z) (tails : list (list Z)) (t0 : list Z),
        length dims = length tails ->
        head tails = Some t0 ->
        exists slices,
          _configure_merge "depth"
            (zip_with (fun d t => STuple (d :: t)) dims tails) 2
          = Ok (STuple (sum dims :: t0), slices)
          /\ length slices = length dims
          /\ forall i d, dims !! i = Some d ->
               slices !! i
               = Some (sum (take i dims) * prod t0,
                       sum (take (S i) dims) * prod t0)).
Proof.
  exact (depth_merge_partitions 2 (MkTensor (replicate 512 [0; 0]) 2)
           eq_refl eq_refl).
Defined.

End MergeFacts.

(** ** Tree: forward propagation *)

Lemma fprop_each_trace {S value : Type} (py_None : value)
  (layer_fprop : layer -> value -> bool -> S -> result (value * S))
  (ls : list layer) : forall s outs s',
  fprop_each py_None layer_fprop ls s = Ok (outs, s') ->
  exists sts : list S,
    length sts = Datatypes.S (length ls)
    /\ sts !! 0 = Some s
    /\ sts !! length ls = Some s'
    /\ length outs = length ls
    /\ forall i l, ls !! i = Some l ->
         exists y si si',
           outs !! i = Some y /\ sts !! i = Some si
           /\ sts !! Datatypes.S i = Some si'
           /\ branch_fprop layer_fprop l py_None false si = Ok (y, si').
Proof.
  induction ls as [|l rest IH]; intros s outs s'; simpl.
  - intros [= <- <-]. exists [s]. repeat split.
    intros i l. rewrite lookup_nil. discriminate.
  - destruct (branch_fprop layer_fprop l py_None false s) as [[y s1]|e] eqn:E1;
      [|discriminate].
    destruct (fprop_each py_None layer_fprop rest s1) as [[ys s2]|e] eqn:E2; [|discriminate].
    intros [= <- <-].
    destruct (IH _ _ _ E2) as (sts & Hlen & H0 & Hn & Hlo & Hstep).
    exists (s :: sts). repeat split; simpl; try congruence.
    intros i l0 Hi. destruct i as [|i]; simpl in *.
    + injection Hi as <-. exists y, s, s1. repeat split; assumption.
    + apply Hstep. exact Hi.
Qed.

Example two_branch_tree_inference :
  Tree_fprop None logging_fprop two_branch_tree (Some 0) true []
  = Ok (Single (Some 3), [(1, Some 0); (2, Some 1); (3, Some 2)]).
Proof. reflexivity. Qed.

Example two_branch_tree_training :
  Tree_fprop None logging_fprop two_branch_tree (Some 0) false []
  = Ok (Listed [Some 3; Some 4],
        [(1, Some 0); (2, Some 1); (3, Some 2); (2, None); (4, Some 2)]).
Proof. reflexivity. Qed.

(** C5.  For a Tree with a trunk, [fprop(input, inference=True)] returns
    the trunk's output alone and leaves the backend in the state the trunk
    alone left it in: no auxiliary branch is evaluated.
    [fprop(input, inference=False)] returns a list with one output per
    branch, in branch order: branch 0 evaluated with the input, each later
    branch with [None], one after the other; and it returns whenever the
    branches do. *)
Theorem Tree_fprop_outputs {S value : Type} (py_None : value)
  (layer_fprop : layer -> value -> bool -> S -> result (value * S))
  (self trunk : layer) (aux : list layer) (inputs : value) (s : S) :
  layers_of self = trunk :: aux ->
  Tree_fprop py_None layer_fprop self inputs true s
  = match branch_fprop layer_fprop trunk inputs true s with
    | Ok (x, s') => Ok (Single x, s')
    | Raise e => Raise e
    end
  /\ (forall out s',
        Tree_fprop py_None layer_fprop self inputs false s = Ok (out, s') ->
        exists (outs : list value) (sts : list S),
          out = Listed outs
          /\ length outs = length (layers_of self)
          /\ length sts = Datatypes.S (length (layers_of self))
          /\ sts !! 0 = Some s
          /\ sts !! length (layers_of self) = Some s'
          /\ forall i l, layers_of self !! i = Some l ->
               exists y si si',
                 outs !! i = Some y /\ sts !! i = Some si
                 /\ sts !! Datatypes.S i = Some si'
                 /\ branch_fprop layer_fprop l (branch_input py_None inputs i)
                      false si = Ok (y, si'))
  /\ (forall x s1 outs s2,
        branch_fprop layer_fprop trunk inputs false s = Ok (x, s1) ->
        fprop_each py_None layer_fprop aux s1 = Ok (outs, s2) ->
        Tree_fprop py_None layer_fprop self inputs false s
        = Ok (Listed (x :: outs), s2)).
Proof.
  intros Hls. unfold Tree_fprop. rewrite Hls. repeat split.
  - destruct (branch_fprop layer_fprop trunk inputs false s)
      as [[x s1]|e] eqn:E1; [|intros ? ?; discriminate].
    destruct (fprop_each py_None layer_fprop aux s1) as [[ys s2]|e] eqn:E2;
      [|intros ? ?; discriminate].
    intros out s' [= <- <-].
    destruct (fprop_each_trace _ _ _ _ _ _ E2)
      as (sts & Hlen & H0 & Hn & Hlo & Hstep).
    exists (x :: ys), (s :: sts). repeat split; simpl; try congruence.
    intros i l Hi. destruct i as [|i]; simpl in *.
    + injection Hi as <-. exists x, s, s1. repeat split; assumption.
    + apply Hstep. exact Hi.
  - intros x s1 outs s2 -> ->. reflexivity.
Qed.

Lemma Tree_fprop_outputs_witness :
  Tree_fprop None logging_fprop two_branch_tree (Some 0) true []
  = Ok (Single (Some 3), [(1, Some 0); (2, Some 1); (3, Some 2)])
  /\ Tree_fprop None logging_fprop two_branch_tree (Some 0) false []
     = Ok (Listed [Some 3; Some 4],
           [(1, Some 0); (2, Some 1); (3, Some 2); (2, None); (4, Some 2)]).
Proof.
  pose (H := Tree_fprop_outputs None logging_fprop two_branch_tree
               (hd (branch_node 0) (layers_of two_branch_tree))
               (tail (layers_of two_branch_tree)) (Some 0) [] eq_refl).
  split.
  - exact (proj1 H).
  - exact (proj2 (proj2 H) (Some 3)
             [(1, Some 0); (2, Some 1); (3, Some 2)] [Some 4]
             [(1, Some 0); (2, Some 1); (3, Some 2); (2, None); (4, Some 2)]
             eq_refl eq_refl).
Defined.

(** ** Sequential: the delta pool *)

Section DeltaPoolFacts.

Local Open Scope Z_scope.

Lemma iobufs_spec (k : nat) (n : Z) : forall next,
  length (fst (iobufs k n next)) = k
  /\ snd (iobufs k n next) = (next + k)%nat
  /\ Forall (fun b => buf_dim0 b = n) (fst (iobufs k n next))
  /\ map buf_addr (fst (iobufs k n next)) = seq next k.
Proof.
  induction k as [|k IH]; intros next; simpl.
  - repeat split; [lia | constructor].
  - specialize (IH (Datatypes.S next)).
    destruct (iobufs k n (Datatypes.S next)) as [bs next'] eqn:E. simpl in *.
    destruct IH as (H1 & H2 & H3 & H4). repeat split.
    + lia.
    + lia.
    + constructor; [reflexivity | exact H3].
    + f_equal. exact H4.
Qed.

Lemma py_max_upper (x : Z) (xs : list Z) :
  forall y, y ∈ x :: xs -> y <= py_max x xs.
Proof.
  unfold py_max. induction xs as [|z zs IH]; intros y Hy; simpl.
  - apply list_elem_of_singleton in Hy. lia.
  - apply elem_of_cons in Hy as [->|Hy].
    + specialize (IH x ltac:(left)). lia.
    + apply elem_of_cons in Hy as [->|Hy]; [lia|].
      specialize (IH y ltac:(right; exact Hy)). lia.
Qed.

Lemma py_max_attained (x : Z) (xs : list Z) : py_max x xs ∈ x :: xs.
Proof.
  unfold py_max. induction xs as [|z zs IH]; simpl.
  - left.
  - destruct (Z.max_spec z (foldr Z.max x zs)) as [[_ ->]|[_ ->]].
    + apply elem_of_cons in IH as [->|IH]; [left | right; right; exact IH].
    + right. left.
Qed.

End DeltaPoolFacts.

Example three_layer_pool :
  allocate_deltas image_shape reversing_set_deltas
    (SequentialObj 9 true [conv 1; conv 2; affine 3] [conv 1; conv 2; affine 3])
    None 100 0%nat
  = Ok (Some [MkBuffer 101 16384; MkBuffer 100 16384], 102%nat, 3%nat).
Proof. reflexivity. Qed.

Example inception_like_pool :
  assign_global_deltas image_shape inception_like (Some []) 100
  = (Some [MkBuffer 100 16384; MkBuffer 101 16384;
           MkBuffer 102 16384; MkBuffer 103 16384], 104).
Proof. reflexivity. Qed.

(** C7, refuted as stated.  A Sequential of a single layer has no non-root
    child: [in_sizes] is empty and the pool is [None], not two buffers. *)
Lemma single_layer_has_no_pool :
  assign_global_deltas image_shape
    (SequentialObj 9 true [conv 1] [conv 1]) None 100 = (None, 100)
  /\ allocate_deltas image_shape reversing_set_deltas
       (SequentialObj 9 true [conv 1] [conv 1]) None 100 0%nat
     = Ok (None, 100%nat, 1%nat).
Proof. split; reflexivity. Qed.

(** C7, amended.  When [allocate_deltas] is called with no pool on a
    Sequential that has a non-root child, it allocates a pool of exactly 4
    buffers if some child's type is MergeBroadcast or ResidualModule and of
    exactly 2 buffers otherwise; the buffers are distinct and each has the
    size of the largest input volume among the non-root children.  With no
    non-root child the pool is [None].  The pool is then handed to every
    child. *)
Theorem delta_pool_size {St : Type}
  (in_shape : layer -> MergeBroadcast.shape)
  (layer_set_deltas :
     layer -> option (list buffer) -> St -> result (option (list buffer) * St))
  (self : layer) (global_deltas : option (list buffer)) (next : nat)
  (st : St) :
  falsy global_deltas = true ->
  (tail (layers_of self) = [] ->
     assign_global_deltas in_shape self global_deltas next = (None, next))
  /\ (tail (layers_of self) <> [] ->
      exists bufs,
        assign_global_deltas in_shape self global_deltas next
        = (Some bufs, (next + length bufs)%nat)
        /\ ((exists l, l ∈ layers_of self
                       /\ (type_of l = TMergeBroadcast
                           \/ type_of l = TResidualModule))
            -> length bufs = 4%nat)
        /\ ((forall l, l ∈ layers_of self -> type_of l <> TMergeBroadcast
                                            /\ type_of l <> TResidualModule)
            -> length bufs = 2%nat)
        /\ (exists l, l ∈ tail (layers_of self)
                      /\ forall b, b ∈ bufs ->
                                   buf_dim0 b = np_prod (in_shape l))
        /\ (forall l b, l ∈ tail (layers_of self) -> b ∈ bufs ->
                        (np_prod (in_shape l) <= buf_dim0 b)%Z)
        /\ NoDup (map buf_addr bufs))
  /\ allocate_deltas in_shape layer_set_deltas self global_deltas next st
     = match set_deltas_loop layer_set_deltas (layers_of self)
               (fst (assign_global_deltas in_shape self global_deltas next))
               st
       with
       | Raise e => Raise e
       | Ok (pool', st') =>
           Ok (pool',
               snd (assign_global_deltas in_shape self global_deltas next),
               st')
       end.
Proof.
  intros Hfalsy. unfold allocate_deltas, assign_global_deltas.
  rewrite Hfalsy. split; [|split].
  - intros ->. reflexivity.
  - intros Hne.
    destruct (tail (layers_of self)) as [|l1 rest] eqn:Etail; [congruence|].
    cbn [map].
    set (k := if existsb needs_extra_delta (layers_of self)
              then 4%nat else 2%nat).
    set (m := py_max (np_prod (in_shape l1))
                (map (fun l => np_prod (in_shape l)) rest)).
    destruct (iobufs_spec k m next) as (Hlen & Hnext & Hdim & Haddr).
    destruct (iobufs k m next) as [bufs next'] eqn:E. simpl in *.
    exists bufs. rewrite Hlen, Hnext. split; [reflexivity|].
    split; [|split; [|split; [|split]]].
    + intros (l & Hl & Hty). subst k.
      replace (existsb needs_extra_delta (layers_of self)) with true;
        [reflexivity|].
      symmetry. apply existsb_exists. exists l. split.
      * apply list_elem_of_In. exact Hl.
      * unfold needs_extra_delta. apply bool_decide_eq_true_2. exact Hty.
    + intros Hnone. subst k.
      destruct (existsb needs_extra_delta (layers_of self)) eqn:Ex;
        [|reflexivity].
      apply existsb_exists in Ex as (l & Hl & Hty).
      apply list_elem_of_In in Hl. destruct (Hnone l Hl) as [H1 H2].
      unfold needs_extra_delta in Hty. apply bool_decide_eq_true_1 in Hty.
      destruct Hty; contradiction.
    + pose proof (py_max_attained (np_prod (in_shape l1))
                    (map (fun l => np_prod (in_shape l)) rest)) as Hatt.
      fold m in Hatt.
      change (np_prod (in_shape l1) :: map (fun l => np_prod (in_shape l)) rest)
        with (map (fun l => np_prod (in_shape l)) (l1 :: rest)) in Hatt.
      apply list_elem_of_fmap in Hatt as (l & Hm & Hl).
      exists l. split; [exact Hl|].
      intros b Hb. rewrite Forall_forall in Hdim.
      rewrite (Hdim b Hb). exact Hm.
    + intros l b Hl Hb. rewrite Forall_forall in Hdim.
      rewrite (Hdim b Hb). subst m. apply py_max_upper.
      change (np_prod (in_shape l1) :: map (fun l => np_prod (in_shape l)) rest)
        with (map (fun l => np_prod (in_shape l)) (l1 :: rest)).
      apply list_elem_of_fmap. exists l. split; [reflexivity | exact Hl].
    + rewrite Haddr. apply NoDup_ListNoDup, List.seq_NoDup.
  - destruct (tail (layers_of self)) as [|l1 rest]; cbn [map].
    + reflexivity.
    + destruct (iobufs _ _ next) as [bufs next']. reflexivity.
Qed.

Lemma delta_pool_size_witness :
  (tail (layers_of inception_like) = [] ->
     assign_global_deltas image_shape inception_like (Some []) 100
     = (None, 100))
  /\ (tail (layers_of inception_like) <> [] ->
      exists bufs,
        assign_global_deltas image_shape inception_like (Some []) 100
        = (Some bufs, (100 + length bufs)%nat)
        /\ ((exists l, l ∈ layers_of inception_like
                       /\ (type_of l = TMergeBroadcast
                           \/ type_of l = TResidualModule))
            -> length bufs = 4%nat)
        /\ ((forall l, l ∈ layers_of inception_like ->
                       type_of l <> TMergeBroadcast
                       /\ type_of l <> TResidualModule)
            -> length bufs = 2%nat)
        /\ (exists l, l ∈ tail (layers_of inception_like)
                      /\ forall b, b ∈ bufs ->
                                   buf_dim0 b = np_prod (image_shape l))
        /\ (forall l b, l ∈ tail (layers_of inception_like) -> b ∈ bufs ->
                        (np_prod (image_shape l) <= buf_dim0 b)%Z)
        /\ NoDup (map buf_addr bufs))
  /\ allocate_deltas image_shape reversing_set_deltas inception_like
       (Some []) 100 0%nat
     = match set_deltas_loop reversing_set_deltas (layers_of inception_like)
               (fst (assign_global_deltas image_shape inception_like
                       (Some []) 100))
               0%nat
       with
       | Raise e => Raise e
       | Ok (pool', st') =>
           Ok (pool',
               snd (assign_global_deltas image_shape inception_like
                      (Some []) 100),
               st')
       end.
Proof.
  exact (delta_pool_size image_shape reversing_set_deltas inception_like
           (Some []) 100 0%nat eq_refl).
Defined.

(** ** Multicost: the weighted sum *)

Lemma Qmult_1_l_eq (q : Q) : Qmult 1 q = q.
Proof.
  destruct q as [n d]. unfold Qmult. simpl.
  destruct n; reflexivity.
Qed.

Lemma t_scale_1 (t : tensor) : t_scale 1 t = t.
Proof.
  unfold t_scale. induction t as [|q t IH]; simpl; [reflexivity|].
  rewrite Qmult_1_l_eq, IH. reflexivity.
Qed.

Section MulticostFacts.

Import Multicost.

Example two_costs_value :
  match get_cost Cost_get_cost two_costs (Seq PyList [1; 2]%nat) (Tensor 3)
          predictions
  with
  | Ok (c, h) => (c, h !!! c)
  | Raise _ => (0%nat, [])
  end = (10%nat, [(4 + 0 + 0) + (1 # 2) * (0 + (4 + 0))]%Q).
Proof. reflexivity. Qed.

(** C8.  When the input of [get_cost] is not a list, the call is the first
    cost's [get_cost] on the same arguments.  With costs [c0, c1], weights
    [1.0, 0.5], a list of predictions and one target that is not a list,
    the value returned is the buffer [c0.get_cost(pred0, target)]
    returned, and it then holds that cost value plus 0.5 times the value of
    [c1.get_cost(pred1, target)]; the second cost is assumed to leave the
    first cost's buffer alone. *)
Theorem get_cost_weighted_sum {cost : Type}
  (cost_get_cost : cost -> pyarg -> pyarg -> heap -> result (handle * heap))
  (self : multicost) (c0 c1 : cost) (others : list cost) 
  (x targets : pyarg) (p0 p1 t : handle) (more : list handle)
  (h h1 h2 : heap) (b0 b1 : handle) :
  (costs self = c0 :: others ->
   isinstance_list x = false ->
   get_cost cost_get_cost self x targets h = cost_get_cost c0 x targets h)
  /\ (cost_get_cost c0 (Tensor p0) (Tensor t) h = Ok (b0, h1) ->
      cost_get_cost c1 (Tensor p1) (Tensor t) h1 = Ok (b1, h2) ->
      h2 !!! b0 = (h1 !!! b0 : tensor) ->
      get_cost cost_get_cost (MkMulticost [c0; c1] [1; 1 # 2]%Q)
        (Seq PyList (p0 :: p1 :: more)) (Tensor t) h
      = Ok (b0,
            store b0 (t_add (h1 !!! b0) (t_scale (1 # 2) (h2 !!! b1))) h2)).
Proof.
  split.
  - intros Hcosts Hx. unfold get_cost. rewrite Hcosts.
    destruct x as [x|[|] xs]; try reflexivity. discriminate.
  - intros H0 H1 Hframe. unfold get_cost. simpl.
    rewrite H0, H1. simpl. rewrite t_scale_1, Hframe. reflexivity.
Qed.

Lemma get_cost_weighted_sum_witness :
  get_cost Cost_get_cost two_costs (Tensor 1) (Tensor 3) predictions
  = Cost_get_cost (MkCost sum_squared 10) (Tensor 1) (Tensor 3) predictions
  /\ get_cost Cost_get_cost two_costs (Seq PyList [1; 2]%nat) (Tensor 3)
       predictions
     = Ok (10%nat,
           store 10%nat
             (t_add [4 + 0 + 0]%Q (t_scale (1 # 2) [0 + (4 + 0)]%Q))
             (store 11%nat [0 + (4 + 0)]%Q
                (store 10%nat [4 + 0 + 0]%Q predictions))).
Proof.
  pose (H := get_cost_weighted_sum Cost_get_cost two_costs
               (MkCost sum_squared 10) (MkCost sum_product 11)
               [MkCost sum_product 11] (Tensor 1) (Tensor 3)
               1%nat 2%nat 3%nat [] predictions
               (store 10%nat [4 + 0 + 0]%Q predictions)
               (store 11%nat [0 + (4 + 0)]%Q
                  (store 10%nat [4 + 0 + 0]%Q predictions))
               10%nat 11%nat).
  split.
  - exact (proj1 H eq_refl eq_refl).
  - exact (proj2 H eq_refl eq_refl eq_refl).
Defined.

End MulticostFacts.

(** ** ResidualModule: backward propagation *)

Example residual_block_built :
  residual_block
  = ResidualModuleObj 10
      [SequentialObj 11 true [conv 1; conv 2] [conv 1; conv 2]] None.
Proof. reflexivity. Qed.

Example residual_block_wiring :
  st_deltas wired_state !! 10%nat = Some 100%nat
  /\ st_deltas wired_state !! 1%nat = Some 100%nat
  /\ st_deltas wired_state !! 2%nat = Some 102%nat.
Proof. repeat split; reflexivity. Qed.

Example residual_block_bprop :
  returned_tensor
    (ResidualModule_bprop (leaf_bprop doubling) no_prev residual_block 50 1 0 wired_state)
  = Some [2 * (2 * 1) + 1 * 1; 2 * (2 * 2) + 1 * 2]%Q.
Proof. vm_compute. reflexivity. Qed.

Lemma ResidualModule_init_no_projection dflt arg n self n' :
  ResidualModule_init dflt arg None n = Ok (self, n') ->
  self = ResidualModuleObj n
           [SequentialObj (Datatypes.S n) dflt (flatten arg)
              (filter (fun x => type_of x <> TLeaf BranchNode) (flatten arg))]
           None.
Proof.
  unfold ResidualModule_init, ctor_bind, new_object, ctor_ret, ctor_raise.
  destruct (Sequential_init dflt _ (Datatypes.S n)) as [[trunk m]|e] eqn:E;
    [|discriminate].
  apply Sequential_init_layers in E as [-> ->].
  rewrite !flatten_NIter_flat.
  destruct (from_end _ 1); [|discriminate].
  destruct (from_end _ 2); [|discriminate].
  intros [= <- <-]. reflexivity.
Qed.

Lemma ResidualModule_init_nonempty dflt arg p n r :
  ResidualModule_init dflt arg p n = Ok r -> flatten arg <> [].
Proof.
  unfold ResidualModule_init, ctor_bind, new_object.
  destruct (Sequential_init dflt _ (Datatypes.S n)) as [[trunk m]|e] eqn:E;
    [|discriminate].
  intros _. apply Sequential_init_nonempty in E.
  rewrite flatten_NIter_flat in E. exact E.
Qed.

Lemma ResidualModule_init_layers dflt arg p n self n' :
  ResidualModule_init dflt arg p n = Ok (self, n') ->
  exists o ls _ls,
    let trunk := SequentialObj o dflt ls _ls in
    layers_of self = [trunk]
    \/ exists o' K s,
         layers_of self = [trunk; Leaf (MkLeaf o' Convolution true K s)].
Proof.
  unfold ResidualModule_init, ctor_bind, new_object, ctor_ret, ctor_raise,
    Convolution_init.
  destruct (Sequential_init dflt _ (Datatypes.S n)) as [[trunk m]|e] eqn:E;
    [|discriminate].
  apply Sequential_init_layers in E as [-> ->].
  destruct (from_end _ 1) as [c1|]; [|discriminate].
  destruct (from_end _ 2) as [c2|]; [|discriminate].
  destruct p as [name|].
  - destruct (bool_decide (name <> "Identity"%string)); intros [= <- <-];
      eexists _, _, _; simpl.
    + right. eexists _, _, _. reflexivity.
    + left. reflexivity.
  - intros [= <- <-]. eexists _, _, _. left. reflexivity.
Qed.

Lemma set_deltas_loop_leaf (ls : list layer) : forall x y st,
  exists pool' st',
    set_deltas_loop leaf_set_deltas ls (Some [x; y]) st = Ok (pool', st')
    /\ st_heap st' = st_heap st
    /\ (forall o, o ∉ map id_of ls -> st_deltas st' !! o = st_deltas st !! o)
    /\ (forall l, l ∈ ls ->
          st_deltas st' !! id_of l = Some (buf_addr x)
          \/ st_deltas st' !! id_of l = Some (buf_addr y)).
Proof.
  induction ls as [|l rest IH]; intros x y st; simpl.
  - exists (Some [x; y]), st. repeat split. intros l Hl.
    apply elem_of_nil in Hl. contradiction.
  - destruct (IH y x (bind_deltas (id_of l) (buf_addr x) st))
      as (pool' & st' & Hrun & Hheap & Hframe & Hin).
    exists pool', st'. split; [exact Hrun|]. split; [exact Hheap|]. split.
    + intros o Ho. rewrite Hframe.
      * simpl. apply lookup_insert_ne. intros Heq. apply Ho. subst o. left.
      * intros Hin'. apply Ho. right. exact Hin'.
    + intros l' Hl'. apply elem_of_cons in Hl' as [->|Hl'].
      * destruct (decide (id_of l ∈ map id_of rest)) as [Hmem|Hmem].
        -- apply list_elem_of_fmap in Hmem as (l2 & Hid & Hl2).
           rewrite Hid. destruct (Hin l2 Hl2); auto.
        -- left. rewrite Hframe by exact Hmem. simpl. apply lookup_insert_eq.
      * destruct (Hin l' Hl'); auto.
Qed.

Lemma set_deltas_loop_ext {St : Type}
  (f g : layer -> option (list buffer) -> St
         -> result (option (list buffer) * St)) (ls : list layer) :
  Forall (fun l => forall pool st, f l pool st = g l pool st) ls ->
  forall pool st, set_deltas_loop f ls pool st = set_deltas_loop g ls pool st.
Proof.
  induction 1 as [|l ls Hl _ IH]; intros pool st; simpl; [reflexivity|].
  rewrite Hl. destruct (g l pool st) as [[pool' st']|e];
    [apply IH | reflexivity].
Qed.

Lemma stored_error (h : heap) (b error : handle) :
  (store b (h !!! error) h !!! error : tensor) = h !!! error.
Proof.
  unfold store. destruct (decide (error = b)) as [->|Hne].
  - apply lookup_total_insert_eq.
  - apply lookup_total_insert_ne. congruence.
Qed.

Section ResidualBprop.

Variable backward : layer -> tensor -> tensor.
Variable prev_layer : layer -> option layer.

Lemma Sequential_bprop_loop_ext
  (f g : layer -> handle -> Q -> Q -> rstate -> result (handle * rstate))
  (rl : list layer) (first : layer) :
  Forall (fun l => forall e a b st, f l e a b st = g l e a b st) rl ->
  forall error alpha beta st,
  Sequential_bprop_loop f prev_layer rl first error alpha beta st
  = Sequential_bprop_loop g prev_layer rl first error alpha beta st.
Proof.
  induction 1 as [|l rl Hl _ IH]; intros error alpha beta st; simpl;
    [reflexivity|].
  rewrite !Hl.
  destruct (if prev_is_BranchNode prev_layer l || py_is l first
            then _ else _) as [[e' st']|e]; [apply IH | reflexivity].
Qed.

Lemma Sequential_bprop_loop_app
  (layer_bprop : layer -> handle -> Q -> Q -> rstate
                 -> result (handle * rstate))
  (a b : list layer) (first : layer) :
  forall error alpha beta st,
  Sequential_bprop_loop layer_bprop prev_layer (a ++ b) first error alpha
    beta st
  = match Sequential_bprop_loop layer_bprop prev_layer a first error alpha
            beta st
    with
    | Raise e => Raise e
    | Ok (error', st') =>
        Sequential_bprop_loop layer_bprop prev_layer b first error' alpha
          beta st'
    end.
Proof.
  induction a as [|l rest IH]; intros error alpha beta st; simpl.
  - reflexivity.
  - destruct (if prev_is_BranchNode prev_layer l || py_is l first
              then _ else _) as [[e' st']|e]; [apply IH | reflexivity].
Qed.

(** The layers behind the first write to their own buffers only. *)
Lemma Sequential_bprop_loop_interior (rl : list layer) (first : layer)
  (keep : handle) (alpha beta : Q) :
  forall error st,
  (forall l, l ∈ rl ->
     id_of l <> id_of first
     /\ exists d, st_deltas st !! id_of l = Some d /\ d <> keep) ->
  exists error' st',
    Sequential_bprop_loop (leaf_bprop backward) prev_layer rl first error
      alpha beta st
    = Ok (error', st')
    /\ st_deltas st' = st_deltas st
    /\ st_outputs st' = st_outputs st
    /\ (st_heap st' !!! keep : tensor) = st_heap st !!! keep.
Proof.
  induction rl as [|l rest IH]; intros error st Hall; simpl.
  - exists error, st. repeat split.
  - destruct (Hall l ltac:(left)) as (Hne & d & Hd & Hdk).
    assert (Hstep : forall a b,
      exists st1,
        leaf_bprop backward l error a b st = Ok (d, st1)
        /\ st_deltas st1 = st_deltas st
        /\ st_outputs st1 = st_outputs st
        /\ (st_heap st1 !!! keep : tensor) = st_heap st !!! keep).
    { intros a b. unfold leaf_bprop. rewrite Hd. eexists. split; [reflexivity|].
      repeat split. simpl. unfold store.
      apply lookup_total_insert_ne. exact Hdk. }
    assert (Hnot : py_is l first = false).
    { unfold py_is. apply Nat.eqb_neq. exact Hne. }
    rewrite Hnot, orb_false_r.
    destruct (prev_is_BranchNode prev_layer l).
    + destruct (Hstep alpha beta) as (st1 & -> & Hd1 & Ho1 & Hk1).
      destruct (IH d st1) as (e' & st' & Hrun & Hd' & Ho' & Hk').
      { intros l' Hl'. rewrite Hd1. apply Hall. right. exact Hl'. }
      exists e', st'. split; [exact Hrun|]. repeat split; congruence.
    + destruct (Hstep 1%Q 0%Q) as (st1 & -> & Hd1 & Ho1 & Hk1).
      destruct (IH d st1) as (e' & st' & Hrun & Hd' & Ho' & Hk').
      { intros l' Hl'. rewrite Hd1. apply Hall. right. exact Hl'. }
      exists e', st'. split; [exact Hrun|]. repeat split; congruence.
Qed.

(** When none of them follows a BranchNode, the layers behind the first
    hand the error back through their backward maps, one after the
    other. *)
Lemma Sequential_bprop_loop_chain (rl : list layer) (first : layer)
  (alpha beta : Q) :
  forall error st error' st',
  Forall (fun l => py_is l first = false
                   /\ prev_is_BranchNode prev_layer l = false) rl ->
  Sequential_bprop_loop (leaf_bprop backward) prev_layer rl first error
    alpha beta st
  = Ok (error', st') ->
  (st_heap st' !!! error' : tensor)
  = foldl (fun e l => backward l e) (st_heap st !!! error) rl.
Proof.
  induction rl as [|l rest IH]; intros error st error' st' Hall; simpl.
  - intros [= <- <-]. reflexivity.
  - apply Forall_cons in Hall as [[Hl1 Hl2] Hall].
    rewrite Hl1, Hl2. simpl. unfold leaf_bprop at 1.
    destruct (st_deltas st !! id_of l) as [d|]; [|discriminate].
    intros Hrun. rewrite (IH _ _ _ _ Hall Hrun). f_equal.
    cbn [st_heap with_heap]. unfold store.
    rewrite lookup_total_insert_eq. unfold axpby.
    change (Qeq_bool 0 0) with true. cbv iota. apply t_scale_1.
Qed.

Lemma foldl_rev_backward (E : tensor) (rest : list layer) :
  foldl (fun e l => backward l e) E (rev rest) = foldr backward E rest.
Proof.
  induction rest as [|l rest IH]; simpl; [reflexivity|].
  rewrite foldl_app. simpl. rewrite IH. reflexivity.
Qed.

End ResidualBprop.

(** C3, refuted as stated.  For the residual block of two convolutions
    whose backward maps double the error, built with no projection,
    [bprop] on the error [1, 2] returns the buffer holding [5, 10]: the
    error plus the gradient the trunk added to the same buffer. *)
Lemma residual_bprop_adds_trunk_gradient :
  st_heap wired_state !!! 50%nat = [1; 2]%Q
  /\ returned_tensor
       (ResidualModule_bprop (leaf_bprop doubling) no_prev residual_block 50 1 0
          wired_state)
     = Some [5; 10]%Q
  /\ returned_tensor
       (ResidualModule_bprop (leaf_bprop doubling) no_prev residual_block 50 1 0
          wired_state)
     <> Some (st_heap wired_state !!! 50%nat).
Proof.
  split; [reflexivity|]. split; [vm_compute; reflexivity|].
  vm_compute. discriminate.
Qed.

(** C3, amended.  Take a ResidualModule constructed with no projection
    whose trunk is made of distinct leaf layers, none a BranchNode, and
    wire it with [set_deltas] to a pool of four buffers: the module and the
    first layer of the trunk then share the first buffer.  [bprop(error)]
    copies the unmodified error into that buffer (the skip-path
    contribution), runs the trunk on the same error with beta 1, and
    returns the buffer.  The first layer of the trunk accumulates into the
    same buffer, so the buffer returned holds [alpha] times the gradient
    the first layer computes, from the error the layers behind it handed
    back, plus the incoming error; when no layer of the trunk follows a
    BranchNode that is [alpha] times the error taken back through the
    whole trunk, plus the error. *)
Theorem residual_bprop_accumulates
  (backward : layer -> tensor -> tensor)
  (layer_bprop : layer -> handle -> Q -> Q -> rstate
                 -> result (handle * rstate))
  (layer_set_deltas : layer -> option (list buffer) -> rstate
                      -> result (option (list buffer) * rstate))
  (prev_layer : layer -> option layer)
  (in_shape : layer -> MergeBroadcast.shape)
  (dflt : bool) (arg : nested) (n n' : oid) (self : layer)
  (b0 b1 b2 b3 : buffer) (next : nat) (st0 : rstate)
  (error : handle) (alpha beta : Q) :
  (forall l pool st, is_container l = false ->
     layer_set_deltas l pool st = leaf_set_deltas l pool st) ->
  (forall l e a b st, is_container l = false ->
     layer_bprop l e a b st = leaf_bprop backward l e a b st) ->
  ResidualModule_init dflt arg None n = Ok (self, n') ->
  Forall (fun l => is_container l = false) (flatten arg) ->
  Forall (fun l => type_of l <> TLeaf BranchNode) (flatten arg) ->
  NoDup (n :: map id_of (flatten arg)) ->
  NoDup [buf_addr b0; buf_addr b1; buf_addr b2] ->
  exists root rest st1,
    flatten arg = root :: rest
    /\ ResidualModule_set_deltas in_shape layer_set_deltas self
         (Some [b0; b1; b2; b3]) next st0
       = Ok (Some [b3; b2; b1; b0], st1)
    /\ st_deltas st1 !! id_of self = Some (buf_addr b0)
    /\ st_deltas st1 !! id_of root = Some (buf_addr b0)
    /\ forall st, st_deltas st = st_deltas st1 ->
       exists eh stm st',
         Sequential_bprop_loop layer_bprop prev_layer (rev rest) root error
           alpha 1
           (with_heap
              (store (buf_addr b0) (st_heap st !!! error) (st_heap st)) st)
         = Ok (eh, stm)
         /\ ResidualModule_bprop layer_bprop prev_layer self error alpha
              beta st
            = Ok (Some (buf_addr b0), st')
         /\ (st_heap st' !!! buf_addr b0 : tensor)
            = t_add (t_scale alpha (backward root (st_heap stm !!! eh)))
                (st_heap st !!! error)
         /\ (Forall (fun l => prev_is_BranchNode prev_layer l = false) rest ->
             (st_heap stm !!! eh : tensor)
             = foldr backward (st_heap st !!! error) rest).
Proof.
  intros Hsd Hbp Hinit Hleaf Hnb Hids Hbufs.
  pose proof (ResidualModule_init_nonempty _ _ _ _ _ Hinit) as Hne.
  apply ResidualModule_init_no_projection in Hinit. subst self.
  rewrite (filter_all _ _ Hnb).
  destruct (flatten arg) as [|root rest] eqn:Els; [congruence|]. clear Hne.
  apply NoDup_cons in Hids as [Hn Hids]. simpl in Hids.
  apply NoDup_cons in Hids as [Hroot Hrest].
  apply NoDup_cons in Hbufs as [Hb0 Hbufs].
  assert (Hb01 : buf_addr b1 <> buf_addr b0).
  { intros Heq. apply Hb0. rewrite Heq. left. }
  assert (Hb02 : buf_addr b2 <> buf_addr b0).
  { intros Heq. apply Hb0. rewrite Heq. right. left. }
  assert (Hnroot : id_of root <> n).
  { intros Heq. apply Hn. rewrite <- Heq. left. }
  pose proof Hleaf as Hleaf'.
  apply Forall_cons in Hleaf' as [Hlroot Hlrest].
  assert (Hsdl : Forall (fun l => forall pool st,
                           layer_set_deltas l pool st
                           = leaf_set_deltas l pool st) (root :: rest)).
  { apply Forall_forall. intros l Hl pool st. apply Hsd.
    rewrite Forall_forall in Hleaf. apply Hleaf, Hl. }
  assert (Hbpl : Forall (fun l => forall e a b st,
                           layer_bprop l e a b st
                           = leaf_bprop backward l e a b st) (rev rest)).
  { apply Forall_forall. intros l Hl e a b st. apply Hbp.
    rewrite Forall_forall in Hlrest. apply Hlrest.
    apply list_elem_of_In, in_rev, list_elem_of_In in Hl. exact Hl. }
  destruct (set_deltas_loop_leaf (root :: rest) b1 b2 st0)
    as (poolA & stA & HrunA & HheapA & HframeA & HinA).
  set (dl := <[n := buf_addr b0]>
               (<[id_of root := buf_addr b0]> (st_deltas stA))).
  assert (Hdself : dl !! n = Some (buf_addr b0))
    by (unfold dl; apply lookup_insert_eq).
  assert (Hdroot : dl !! id_of root = Some (buf_addr b0)).
  { unfold dl. rewrite lookup_insert_ne by congruence.
    apply lookup_insert_eq. }
  exists root, rest,
    (MkState (st_heap stA) dl (st_outputs stA) (st_inputs stA)).
  split; [reflexivity|]. split.
  { unfold ResidualModule_set_deltas. cbn [length Nat.eqb negb layers_of].
    unfold allocate_deltas, assign_global_deltas.
    cbn [drop take falsy layers_of].
    rewrite (set_deltas_loop_ext _ _ _ Hsdl), HrunA.
    rewrite (Hsd root _ _ Hlroot).
    cbn [leaf_set_deltas skip_layer_of id_of]. reflexivity. }
  split; [exact Hdself|]. split; [exact Hdroot|].
  intros st Hst. cbn [st_deltas] in Hst.
  set (E := (st_heap st !!! error : tensor)).
  assert (Hint : forall l, l ∈ rest ->
            id_of l <> id_of root
            /\ exists d, st_deltas st !! id_of l = Some d
                         /\ d <> buf_addr b0).
  { intros l Hl.
    assert (Hlr : id_of l <> id_of root).
    { intros Heq. apply Hroot. rewrite <- Heq.
      apply list_elem_of_fmap. exists l. split; [reflexivity | exact Hl]. }
    assert (Hln : id_of l <> n).
    { intros Heq. apply Hn. rewrite <- Heq. right.
      apply list_elem_of_fmap. exists l. split; [reflexivity | exact Hl]. }
    split; [exact Hlr|].
    rewrite Hst. unfold dl.
    rewrite lookup_insert_ne by congruence.
    rewrite lookup_insert_ne by congruence.
    destruct (HinA l ltac:(right; exact Hl)) as [H|H];
      [exists (buf_addr b1) | exists (buf_addr b2)];
      (split; [exact H | assumption]). }
  set (stc := with_heap (store (buf_addr b0) E (st_heap st)) st).
  destruct (Sequential_bprop_loop_interior backward prev_layer (rev rest)
              root (buf_addr b0) alpha 1 error stc)
    as (eh & stm & Hrun & Hd1 & _ & Hk1).
  { intros l Hl. apply list_elem_of_In, in_rev, list_elem_of_In in Hl.
    exact (Hint l Hl). }
  assert (Hpy : py_is root root = true)
    by (unfold py_is; apply Nat.eqb_refl).
  exists eh, stm. eexists.
  split; [rewrite (Sequential_bprop_loop_ext _ _ _ _ _ Hbpl); exact Hrun|].
  split; [|split].
  - unfold ResidualModule_bprop. cbn [skip_layer_of id_of layers_of].
    rewrite Hst, Hdself. fold E. fold stc.
    unfold Sequential_bprop. cbn [_layers_of].
    change (rev (root :: rest)) with (rev rest ++ [root]).
    rewrite Sequential_bprop_loop_app.
    rewrite (Sequential_bprop_loop_ext _ _ _ _ _ Hbpl), Hrun.
    cbn [Sequential_bprop_loop].
    rewrite Hpy, orb_true_r. rewrite (Hbp root _ _ _ _ Hlroot).
    unfold leaf_bprop. rewrite Hd1.
    change (st_deltas stc) with (st_deltas st).
    rewrite Hst, Hdroot. cbn [with_heap st_deltas].
    rewrite Hd1. change (st_deltas stc) with (st_deltas st).
    rewrite Hst, Hdself. reflexivity.
  - cbn [st_heap with_heap]. unfold store. rewrite lookup_total_insert_eq.
    unfold axpby. change (Qeq_bool 1 0) with false. cbv iota.
    rewrite t_scale_1, Hk1. subst stc. cbn [st_heap with_heap]. unfold store.
    rewrite lookup_total_insert_eq. reflexivity.
  - intros Hprev.
    assert (Hchain : Forall (fun l => py_is l root = false
                                      /\ prev_is_BranchNode prev_layer l
                                         = false) (rev rest)).
    { apply Forall_forall. intros l Hl.
      apply list_elem_of_In, in_rev, list_elem_of_In in Hl. split.
      - unfold py_is. apply Nat.eqb_neq. apply (Hint l Hl).
      - rewrite Forall_forall in Hprev. apply Hprev, Hl. }
    rewrite (Sequential_bprop_loop_chain backward prev_layer _ _ _ _ _ _ _
               _ Hchain Hrun).
    rewrite foldl_rev_backward. f_equal.
    subst stc. cbn [st_heap with_heap]. apply stored_error.
Qed.

Lemma residual_bprop_accumulates_witness :
  exists root rest st1,
    flatten two_convs = root :: rest
    /\ ResidualModule_set_deltas image_shape leaf_set_deltas residual_block
         (Some [MkBuffer 100 8; MkBuffer 101 8; MkBuffer 102 8; MkBuffer 103 8])
         0 error_state
       = Ok (Some [MkBuffer 103 8; MkBuffer 102 8; MkBuffer 101 8;
                   MkBuffer 100 8], st1)
    /\ st_deltas st1 !! id_of residual_block = Some 100%nat
    /\ st_deltas st1 !! id_of root = Some 100%nat
    /\ forall st, st_deltas st = st_deltas st1 ->
       exists eh stm st',
         Sequential_bprop_loop (leaf_bprop doubling) no_prev (rev rest) root
           50 1 1
           (with_heap (store 100%nat (st_heap st !!! 50%nat) (st_heap st)) st)
         = Ok (eh, stm)
         /\ ResidualModule_bprop (leaf_bprop doubling) no_prev residual_block
              50 1 0 st
            = Ok (Some 100%nat, st')
         /\ (st_heap st' !!! 100%nat : tensor)
            = t_add (t_scale 1 (doubling root (st_heap stm !!! eh)))
                (st_heap st !!! 50%nat)
         /\ (Forall (fun l => prev_is_BranchNode no_prev l = false) rest ->
             (st_heap stm !!! eh : tensor)
             = foldr doubling (st_heap st !!! 50%nat) rest).
Proof.
  apply (residual_bprop_accumulates doubling (leaf_bprop doubling)
           leaf_set_deltas no_prev image_shape true
           two_convs 10 12 residual_block
           (MkBuffer 100 8) (MkBuffer 101 8) (MkBuffer 102 8) (MkBuffer 103 8)
           0 error_state 50 1 0).
  - reflexivity.
  - reflexivity.
  - reflexivity.
  - repeat constructor.
  - repeat constructor; discriminate.
  - apply (bool_decide_unpack _). vm_compute. exact I.
  - apply (bool_decide_unpack _). vm_compute. exact I.
Defined.

(** ** ResidualModule: forward propagation *)

Example residual_block_fprop :
  returned_tensor
    (ResidualModule_fprop tripling_fprop no_skip_fprop residual_block 50 false
       allocated_state)
  = Some [3 * (3 * 1) + 1; 3 * (3 * 2) + 2]%Q.
Proof. vm_compute. reflexivity. Qed.

(** C4.  Take a ResidualModule constructed with no projection, whose
    output buffer is the one its trunk writes its result to, and an input
    [x] of the shape of the trunk's result that the trunk does not
    overwrite.  Then [fprop(x)] returns the module's output buffer, and
    the buffer holds, element by element, the trunk's result plus [x]. *)
Theorem residual_fprop_adds_input
  (layer_fprop : layer -> handle -> bool -> rstate -> result (handle * rstate))
  (skip_fprop :
     layer -> handle -> bool -> Q -> rstate -> result (handle * rstate))
  (dflt : bool) (arg : nested) (n n' : oid) (self trunk : layer)
  (x y out : handle) (inference : bool) (st st1 : rstate) :
  ResidualModule_init dflt arg None n = Ok (self, n') ->
  head (layers_of self) = Some trunk ->
  Sequential_fprop layer_fprop trunk x inference (bind_inputs n x st)
  = Ok (y, st1) ->
  st_outputs st1 !! n = Some out ->
  y = out ->
  (st_heap st1 !!! x : tensor) = st_heap st !!! x ->
  length (st_heap st1 !!! y : tensor) = length (st_heap st !!! x : tensor) ->
  exists st2,
    ResidualModule_fprop layer_fprop skip_fprop self x inference st
    = Ok (Some out, st2)
    /\ (st_heap st2 !!! out : tensor)
       = t_add (st_heap st1 !!! y) (st_heap st !!! x)
    /\ length (st_heap st2 !!! out : tensor)
       = length (st_heap st !!! x : tensor)
    /\ forall i a b,
         (st_heap st1 !!! y : tensor) !! i = Some a ->
         (st_heap st !!! x : tensor) !! i = Some b ->
         (st_heap st2 !!! out : tensor) !! i = Some (a + b)%Q.
Proof.
  intros Hinit Htrunk Hrun Hout -> Hx Hlen.
  apply ResidualModule_init_no_projection in Hinit. subst self.
  cbn [layers_of head] in Htrunk. injection Htrunk as <-.
  eexists. unfold ResidualModule_fprop.
  cbn [layers_of id_of skip_layer_of]. rewrite Hrun, Hout.
  split; [reflexivity|].
  cbn [st_heap with_heap]. unfold store.
  rewrite lookup_total_insert_eq, Hx.
  split; [reflexivity|]. split.
  - unfold t_add. rewrite length_zip_with. rewrite Hlen. lia.
  - intros i a b Ha Hb. unfold t_add. apply lookup_zip_with_Some.
    exists a, b. auto.
Qed.

Lemma residual_fprop_adds_input_witness :
  exists st2,
    ResidualModule_fprop tripling_fprop no_skip_fprop residual_block 50 false
      allocated_state
    = Ok (Some 200%nat, st2)
    /\ (st_heap st2 !!! 200%nat : tensor)
       = t_add (st_heap state_after_trunk !!! 200%nat)
           (st_heap allocated_state !!! 50%nat)
    /\ length (st_heap st2 !!! 200%nat : tensor)
       = length (st_heap allocated_state !!! 50%nat : tensor)
    /\ forall i a b,
         (st_heap state_after_trunk !!! 200%nat : tensor) !! i = Some a ->
         (st_heap allocated_state !!! 50%nat : tensor) !! i = Some b ->
         (st_heap st2 !!! 200%nat : tensor) !! i = Some (a + b)%Q.
Proof.
  apply (residual_fprop_adds_input tripling_fprop no_skip_fprop true
           two_convs 10 12 residual_block residual_trunk 50 200 200 false
           allocated_state state_after_trunk).
  - reflexivity.
  - reflexivity.
  - vm_compute. reflexivity.
  - vm_compute. reflexivity.
  - reflexivity.
  - vm_compute. reflexivity.
  - vm_compute. reflexivity.
Defined.

(** ** Description and reconstruction *)

Lemma gen_class_Sequential dflt (d : desc) n x n' :
  gen_class dflt TSequential d n = Ok (x, n') ->
  exists o ls _ls, x = SequentialObj o dflt ls _ls.
Proof.
  destruct d as [typ c args layers]. simpl.
  destruct layers as [ds|]; [|discriminate].
  unfold ctor_bind at 1.
  match goal with |- context [?f ds n] => destruct (f ds n) as [[children m]|e] end;
    [|discriminate].
  unfold construct. destruct (kw_leaf args); [discriminate|].
  destruct (kw_alphas args); [discriminate|].
  destruct (kw_merge args); [discriminate|].
  intros H. apply Sequential_init_layers in H as [-> _]. eauto.
Qed.

(** A Sequential that wraps a Sequential, with or without a convolution
    after it, is not a trunk a ResidualModule can be built on. *)
Lemma ResidualModule_init_rewrap dflt o ls _ls tl n :
  tl = [] \/ (exists o' K s, tl = [Leaf (MkLeaf o' Convolution true K s)]) ->
  is_ok (ResidualModule_init dflt
           (NIter PyList (map NLayer (SequentialObj o dflt ls _ls :: tl)))
           None n) = false.
Proof.
  intros Htl.
  unfold ResidualModule_init, ctor_bind, new_object.
  destruct (Sequential_init dflt _ (Datatypes.S n)) as [[trunk m]|e] eqn:E;
    [|reflexivity].
  apply Sequential_init_layers in E as [-> ->].
  rewrite !flatten_NIter_flat. cbn [layers_of].
  destruct Htl as [->|(o' & K & s & ->)]; reflexivity.
Qed.

Example residual_block_round_trip :
  round_trip true residual_block 100 = Raise IndexError
  /\ round_trip false residual_block 100 = Raise AssertionError.
Proof. split; reflexivity. Qed.

Example two_branch_tree_round_trip :
  match round_trip true two_branch_tree 100 with
  | Ok (t, _) => skeleton_of t = skeleton_of two_branch_tree
  | Raise _ => False
  end.
Proof. reflexivity. Qed.

(** C9, on the code.  A ResidualModule built by its constructor, with any
    projection or none, is not rebuilt from its own description:
    [gen_class] hands the described children, the trunk Sequential first,
    back to the constructor, which wraps them in a new Sequential and
    looks for the convolutions directly in it; reconstruction raises. *)
Theorem ResidualModule_round_trip_raises
  (dflt : bool) (arg : nested) (p : option string) (n n' m : oid)
  (self : layer) :
  ResidualModule_init dflt arg p n = Ok (self, n') ->
  is_ok (round_trip dflt self m) = false.
Proof.
  intros Hinit.
  pose proof (ResidualModule_init_layers _ _ _ _ _ _ Hinit)
    as (o & ls & _ls & Hls).
  assert (Hself : exists o0 sk, self = ResidualModuleObj o0 (layers_of self) sk).
  { revert Hinit.
    unfold ResidualModule_init, ctor_bind, new_object, ctor_ret, ctor_raise,
      Convolution_init.
    destruct (Sequential_init dflt _ (Datatypes.S n)) as [[trunk k]|e];
      [|discriminate].
    destruct (from_end _ 1); [|discriminate].
    destruct (from_end _ 2); [|discriminate].
    destruct p as [name|].
    - destruct (bool_decide _); intros [= <- <-]; eexists _, _; reflexivity.
    - intros [= <- <-]. eexists _, _. reflexivity. }
  destruct Hself as (o0 & sk & Hself). rewrite Hself.
  unfold round_trip. cbn [type_of get_description base_description].
  assert (Hchild : forall k,
    match gen_class dflt TSequential
            (get_description (SequentialObj o dflt ls _ls)) k with
    | Ok (x, _) => exists o1 l1 l2, x = SequentialObj o1 dflt l1 l2
    | Raise _ => True
    end).
  { intros k.
    destruct (gen_class dflt TSequential _ k) as [[x k']|e] eqn:E; [|exact I].
    eapply gen_class_Sequential. exact E. }
  cbn zeta in Hls. destruct Hls as [Hls|(o' & K & s & Hls)]; rewrite Hls.
  - cbn [map gen_class]. unfold ctor_bind at 1.
    cbn [get_description base_description type_of modulenm].
    change (resolve_class "neon.layers.container.Sequential")
      with (Ok TSequential : result pytype). cbv iota.
    unfold ctor_bind at 1. specialize (Hchild m).
    cbn [get_description base_description type_of modulenm] in Hchild.
    destruct (gen_class dflt TSequential _ m) as [[x k']|e]; [|reflexivity].
    destruct Hchild as (o1 & l1 & l2 & ->).
    unfold ctor_bind, ctor_ret. unfold construct. cbn [kw_leaf kw_alphas kw_merge no_kwargs].
    apply (ResidualModule_init_rewrap dflt o1 l1 l2 []). left. reflexivity.
  - cbn [map gen_class]. unfold ctor_bind at 1.
    cbn [get_description base_description type_of modulenm leaf_cls
         leaf_class_name].
    change (resolve_class "neon.layers.container.Sequential")
      with (Ok TSequential : result pytype). cbv iota.
    unfold ctor_bind at 1. specialize (Hchild m).
    cbn [get_description base_description type_of modulenm] in Hchild.
    destruct (gen_class dflt TSequential _ m) as [[x k']|e]; [|reflexivity].
    destruct Hchild as (o1 & l1 & l2 & ->).
    change (resolve_class ("neon.layers.layer." +:+ "Convolution"))
      with (Ok (TLeaf Convolution) : result pytype). cbv iota.
    unfold ctor_bind, ctor_ret, leaf_gen_class, new_object.
    cbn [kw_leaf kw_alphas kw_merge leaf_owns_output leaf_K leaf_str_h].
    unfold construct, ctor_bind, ctor_ret.
    cbn [kw_leaf kw_alphas kw_merge no_kwargs].
    apply (ResidualModule_init_rewrap dflt o1 l1 l2
             [Leaf (MkLeaf k' Convolution true K s)]).
    right. eexists _, _, _. reflexivity.
Qed.

Lemma ResidualModule_round_trip_raises_witness :
  is_ok (round_trip true residual_block 100) = false.
Proof.
  apply (ResidualModule_round_trip_raises true two_convs None 10 12 100
           residual_block).
  reflexivity.
Defined.

(** ** Round trips that succeed *)

Lemma layer_children_ind (P : layer -> Prop) :
  (forall x, P (Leaf x)) ->
  (forall o own ls _ls, Forall P ls -> P (SequentialObj o own ls _ls)) ->
  (forall o own ls a b, Forall P ls -> P (TreeObj o own ls a b)) ->
  (forall o ms ls b a m, Forall P ls -> P (MergeBroadcastObj o ms ls b a m)) ->
  (forall o ls sk, Forall P ls -> P (ResidualModuleObj o ls sk)) ->
  forall l, P l.
Proof.
  intros HL HS HT HM HR.
  fix IH 1. intros l.
  assert (Hall : forall ls, Forall P ls).
  { fix IHls 1. intros [|c rest]; constructor; [apply IH | apply IHls]. }
  destruct l.
  - apply HL.
  - apply HS, Hall.
  - apply HT, Hall.
  - apply HM, Hall.
  - apply HR, Hall.
Qed.

Lemma gen_class_container dflt cls typ c args ds n :
  is_leaf_type cls = false ->
  gen_class dflt cls (MkDesc typ c args (Some ds)) n
  = match gen_children dflt ds n with
    | Ok (children, n') => construct dflt cls children args n'
    | Raise e => Raise e
    end.
Proof.
  intros Hcls.
  assert (Heach : forall ds n,
    (fix each (ds : list desc) : Ctor (list layer) :=
       match ds with
       | [] => ctor_ret []
       | (MkDesc typ _ _ _ as layer) :: rest =>
           match resolve_class typ with
           | Raise e => ctor_raise e
           | Ok ccls =>
               (do x <- gen_class dflt ccls layer;
                do xs <- each rest;
                ctor_ret (x :: xs))%ctor
           end
       end) ds n = gen_children dflt ds n).
  { clear. induction ds as [|[typ c args layers] rest IH]; intros n;
      [reflexivity|].
    cbn [gen_children]. destruct (resolve_class typ) as [ccls|e]; [|reflexivity].
    unfold ctor_bind. destruct (gen_class dflt ccls _ n) as [[x m]|e];
      [|reflexivity].
    rewrite IH. reflexivity. }
  destruct cls; try discriminate; cbn [gen_class]; unfold ctor_bind at 1;
    rewrite Heach; reflexivity.
Qed.

Lemma resolve_modulenm_container (t : pytype) :
  is_leaf_type t = false -> resolve_class (modulenm t) = Ok t.
Proof. destruct t; try discriminate; reflexivity. Qed.

Lemma get_description_typ (l : layer) :
  exists c args layers,
    get_description l = MkDesc (modulenm (type_of l)) c args layers.
Proof. destruct l; cbn; eauto. Qed.

Lemma skeleton_unfold (l : layer) :
  skeleton_of l = Node (type_of l) (map skeleton_of (layers_of l)).
Proof. destruct l; reflexivity. Qed.

Lemma same_shape_type (l l' : layer) :
  same_shape l l' -> type_of l' = type_of l.
Proof.
  intros [H _]. rewrite !skeleton_unfold in H. congruence.
Qed.

Lemma same_shape_layers_length (l l' : layer) :
  same_shape l l' -> length (layers_of l') = length (layers_of l).
Proof.
  intros [H _]. rewrite !skeleton_unfold in H. injection H as _ H.
  apply (f_equal (@length skeleton)) in H. rewrite !length_map in H. exact H.
Qed.

Lemma same_shape_skeletons (ls cs : list layer) :
  Forall2 same_shape ls cs -> map skeleton_of cs = map skeleton_of ls.
Proof.
  induction 1 as [|l c ls cs [H _] _ IH]; [reflexivity|].
  simpl. rewrite H, IH. reflexivity.
Qed.

Lemma built_resolve dflt (l : layer) :
  built dflt l = true -> resolve_class (modulenm (type_of l)) = Ok (type_of l).
Proof.
  destruct l as [x| | | |]; try (intros _; apply resolve_modulenm_container;
    cbn; try destruct multistream; reflexivity).
  cbn [built type_of].
  destruct (resolve_class (modulenm (TLeaf (leaf_cls x)))) as [t|e];
    [|discriminate].
  intros H. apply bool_decide_eq_true_1 in H. congruence.
Qed.

Lemma gen_children_ok dflt (ls : list layer) :
  Forall (fun c => built dflt c = true -> forall n, exists c' n',
            gen_class dflt (type_of c) (get_description c) n = Ok (c', n')
            /\ same_shape c c') ls ->
  forallb (built dflt) ls = true ->
  forall n, exists cs n',
    gen_children dflt (map get_description ls) n = Ok (cs, n')
    /\ Forall2 same_shape ls cs.
Proof.
  induction 1 as [|c rest Hc _ IH]; intros Hb n.
  - exists [], n. split; [reflexivity | constructor].
  - cbn [forallb] in Hb. apply andb_true_iff in Hb as [Hbc Hbrest].
    destruct (get_description_typ c) as (k & args & layers & Hd).
    destruct (Hc Hbc n) as (c' & n1 & Hgen & Hsame).
    destruct (IH Hbrest n1) as (cs & n2 & Hrest & Hall).
    exists (c' :: cs), n2. split; [|constructor; assumption].
    cbn [map]. rewrite Hd in Hgen |- *. cbn [gen_children].
    rewrite (built_resolve _ _ Hbc).
    unfold ctor_bind, ctor_ret. rewrite Hgen, Hrest. reflexivity.
Qed.

Lemma filter_same_shape (ls cs : list layer) :
  Forall2 same_shape ls cs ->
  Forall2 same_shape
    (filter (fun x => type_of x <> TLeaf BranchNode) ls)
    (filter (fun x => type_of x <> TLeaf BranchNode) cs).
Proof.
  induction 1 as [|l c ls cs Hlc _ IH]; [constructor|].
  pose proof (same_shape_type _ _ Hlc) as Hty.
  destruct (decide (type_of l = TLeaf BranchNode)) as [Hb|Hnb].
  - rewrite !filter_cons_False by (intros Hne; apply Hne; congruence).
    exact IH.
  - rewrite !filter_cons_True by (cbv beta; congruence).
    constructor; assumption.
Qed.

Lemma Sequential_init_rebuilt dflt (ls cs : list layer) (n : oid) :
  Forall2 same_shape ls cs ->
  match filter (fun x => type_of x <> TLeaf BranchNode) ls with
  | [] => false
  | root :: _ =>
      owns_output_of root
      || bool_decide (type_of root = TLeaf Dropout
                      \/ type_of root = TLeaf DataTransform)
  end = true ->
  Sequential_init dflt (NIter PyList (map NLayer cs)) n
  = Ok (SequentialObj n dflt cs
          (filter (fun x => type_of x <> TLeaf BranchNode) cs),
        Datatypes.S n).
Proof.
  intros Hall Hroot.
  unfold Sequential_init, ctor_bind, new_object, ctor_ret, ctor_raise.
  rewrite flatten_NIter_flat.
  pose proof (filter_same_shape _ _ Hall) as Hf.
  destruct Hf as [|root root' fl fc Hr _]; [discriminate|].
  pose proof (same_shape_type _ _ Hr) as Hty. destruct Hr as [_ Hown].
  rewrite Hown, Hty, Hroot. reflexivity.
Qed.

(** The children of a rebuilt Tree or MergeBroadcast: Sequentials again,
    none empty. *)
Lemma rebuilt_branches dflt (ls cs : list layer) :
  Forall2 same_shape ls cs ->
  forallb (fun c => bool_decide (type_of c = TSequential)) ls = true ->
  forallb (built dflt) ls = true ->
  Forall (fun c => type_of c = TSequential) cs
  /\ Forall (fun c => layers_of c <> []) cs.
Proof.
  induction 1 as [|l c ls cs Hlc _ IH]; intros Hty Hb; [split; constructor|].
  cbn [forallb] in Hty, Hb.
  apply andb_true_iff in Hty as [Hl Hty]. apply andb_true_iff in Hb as [Hbl Hb].
  destruct (IH Hty Hb) as [IH1 IH2].
  apply bool_decide_eq_true_1 in Hl.
  pose proof (same_shape_type _ _ Hlc) as Htc.
  pose proof (same_shape_layers_length _ _ Hlc) as Hlen.
  split; constructor; try assumption; [congruence|].
  destruct l as [x|o own layers _ls| | |];
    try (cbn in Hl; discriminate Hl);
    [|destruct multistream; discriminate Hl].
  cbn [built] in Hbl. cbn [layers_of] in Hlen.
  apply andb_true_iff in Hbl as [Hbl _]. apply andb_true_iff in Hbl as [_ Hroot].
  destruct layers as [|x xs]; [discriminate|].
  intros Hnil. rewrite Hnil in Hlen. discriminate.
Qed.

Lemma round_trip_same_shape dflt (l : layer) :
  built dflt l = true ->
  forall n, exists l' n',
    gen_class dflt (type_of l) (get_description l) n = Ok (l', n')
    /\ same_shape l l'.
Proof.
  induction l as [x|o own ls _ls IH|o own ls alphas betas IH
                  |o ms ls betas alphas merge IH|o ls sk IH]
    using layer_children_ind; intros Hb n.
  - exists (Leaf (MkLeaf n (leaf_cls x) (leaf_owns_output x) (leaf_K x)
                    (leaf_str_h x))), (Datatypes.S n).
    split; [reflexivity | split; reflexivity].
  - cbn [built] in Hb.
    apply andb_true_iff in Hb as [Hb Hkids].
    apply andb_true_iff in Hb as [Hown Hroot].
    apply Bool.eqb_prop in Hown. subst own.
    destruct (gen_children_ok dflt ls IH Hkids n) as (cs & n1 & Hgen & Hall).
    exists (SequentialObj n1 dflt cs
              (filter (fun x => type_of x <> TLeaf BranchNode) cs)),
           (Datatypes.S n1).
    split.
    + cbn [type_of get_description base_description].
      rewrite gen_class_container by reflexivity. rewrite Hgen.
      cbn [construct no_kwargs kw_leaf kw_alphas kw_merge].
      apply (Sequential_init_rebuilt dflt ls cs n1 Hall Hroot).
    + split; [|reflexivity]. cbn [skeleton_of].
      rewrite (same_shape_skeletons _ _ Hall). reflexivity.
  - cbn [built] in Hb.
    apply andb_true_iff in Hb as [Hb Hkids].
    apply andb_true_iff in Hb as [Hown Hseq].
    apply Bool.eqb_prop in Hown. subst own.
    destruct (gen_children_ok dflt ls IH Hkids n) as (cs & n1 & Hgen & Hall).
    destruct (rebuilt_branches dflt ls cs Hall Hseq Hkids) as [Hty Hne].
    destruct (roots_of_nonempty cs Hne) as [rs Hrs].
    exists (TreeObj n1 dflt cs alphas (betas_forward rs)), (Datatypes.S n1).
    split.
    + cbn [type_of get_description base_description].
      rewrite gen_class_container by reflexivity. rewrite Hgen.
      cbn [construct kw_leaf kw_alphas kw_merge].
      unfold Tree_init, ctor_bind, new_object, ctor_ret.
      rewrite (wrap_branches_sequentials dflt cs Hty).
      cbn [app]. rewrite Tree_betas_forward, Hrs. reflexivity.
    + split; [|reflexivity]. cbn [skeleton_of].
      rewrite (same_shape_skeletons _ _ Hall). reflexivity.
  - cbn [built] in Hb.
    apply andb_true_iff in Hb as [Hb Hkids].
    apply andb_true_iff in Hb as [Hb Hseq].
    apply andb_true_iff in Hb as [Hlen Hmerge].
    destruct (gen_children_ok dflt ls IH Hkids n) as (cs & n1 & Hgen & Hall).
    destruct (rebuilt_branches dflt ls cs Hall Hseq Hkids) as [Hty _].
    assert (Hcs : exists c0 rest, cs = c0 :: rest).
    { apply Forall2_length in Hall. destruct cs as [|c0 rest]; [|eauto].
      destruct ls; [discriminate Hlen | discriminate Hall]. }
    destruct Hcs as (c0 & rest & Hcs). subst cs.
    set (cs := c0 :: rest) in *.
    assert (Hrun : forall a,
      MergeBroadcast_init_as dflt ms (map ELayer cs) merge a n1
      = Ok (MergeBroadcastObj n1 ms cs
              (<[pred (length cs) := 0%Q]> (map (fun _ => 1%Q) cs))
              (default_alphas a cs) merge,
            Datatypes.S n1)).
    { intros a.
      unfold MergeBroadcast_init_as, ctor_bind, new_object, ctor_ret.
      rewrite (wrap_branches_sequentials dflt cs Hty). cbn [app].
      unfold set_last. rewrite Hmerge, length_map. reflexivity. }
    destruct ms.
    + eexists _, _. split.
      * cbn [type_of get_description base_description].
        rewrite gen_class_container by reflexivity. rewrite Hgen.
        cbn [construct kw_leaf kw_alphas kw_merge].
        unfold MergeMultistream_init. apply Hrun.
      * split; [|reflexivity]. cbn [skeleton_of].
        rewrite (same_shape_skeletons _ _ Hall). reflexivity.
    + eexists _, _. split.
      * cbn [type_of get_description base_description].
        rewrite gen_class_container by reflexivity. rewrite Hgen.
        cbn [construct kw_leaf kw_alphas kw_merge].
        unfold MergeBroadcast_init. apply Hrun.
      * split; [|reflexivity]. cbn [skeleton_of].
        rewrite (same_shape_skeletons _ _ Hall). reflexivity.
  - discriminate Hb.
Qed.

(** Tree, MergeBroadcast, MergeMultistream and Sequential round-trip: a
    container tree built from them and from leaf layers is rebuilt from
    its description, with the same child count, the same child order and
    the same type at every nesting level. *)
Theorem round_trip_rebuilds (dflt : bool) (l : layer) (n : oid) :
  built dflt l = true ->
  exists l' n',
    round_trip dflt l n = Ok (l', n')
    /\ skeleton_of l' = skeleton_of l.
Proof.
  intros Hb.
  destruct (round_trip_same_shape dflt l Hb n) as (l' & n' & Hgen & Hs & _).
  exists l', n'. split; assumption.
Qed.

Lemma round_trip_rebuilds_witness :
  exists l' n',
    round_trip true two_branch_tree 100 = Ok (l', n')
    /\ skeleton_of l' = skeleton_of two_branch_tree.
Proof. apply (round_trip_rebuilds true two_branch_tree 100). reflexivity. Defined.

(** * Part II, continued: properties of the other methods *)

(** ** Trainable layers *)

Lemma filter_flat_map {A B : Type} (P : B -> Prop) `{forall x, Decision (P x)}
  (f : A -> list B) (l : list A) :
  filter P (flat_map f l) = flat_map (fun x => filter P (f x)) l.
Proof.
  induction l as [|x l IH]; simpl; [reflexivity|].
  rewrite filter_app, IH. reflexivity.
Qed.

Lemma flat_map_ext_Forall {A B : Type} (f g : A -> list B) (l : list A) :
  Forall (fun x => f x = g x) l -> flat_map f l = flat_map g l.
Proof.
  induction 1 as [|x l Hx _ IH]; simpl; congruence.
Qed.

Lemma optimized_in_leaves (has_params : layer -> bool) (l : layer) :
  optimized_in has_params l
  = filter (fun x => has_params x = true) (leaves l).
Proof.
  induction l as [x|o own ls _ls IH|o own ls a b IH|o ms ls b a m IH|o ls sk IH]
    using layer_children_ind; simpl;
    try (rewrite filter_flat_map; apply flat_map_ext_Forall; exact IH).
  destruct (has_params (Leaf x)) eqn:E.
  - rewrite filter_cons_True by exact E. reflexivity.
  - rewrite filter_cons_False by congruence. reflexivity.
Qed.

Lemma leaves_are_leaves (l : layer) :
  Forall (fun x => is_container x = false) (leaves l).
Proof.
  induction l as [x|o own ls _ls IH|o own ls a b IH|o ms ls b a m IH|o ls sk IH]
    using layer_children_ind; simpl;
    try (induction IH as [|c cs Hc _ IHcs]; simpl;
         [constructor | apply Forall_app; split; assumption]).
  constructor; [reflexivity|constructor].
Qed.

Lemma layers_to_optimize_filter (has_params : layer -> bool) (self : layer) :
  layers_to_optimize has_params self
  = filter (fun l => has_params l = true) (flat_map leaves (layers_of self)).
Proof.
  unfold layers_to_optimize. rewrite filter_flat_map.
  apply flat_map_ext_Forall, Forall_forall. intros l _.
  apply optimized_in_leaves.
Qed.

(** X2.  [layers_to_optimize] returns the leaf layers below the container
    that have parameters, in depth-first, left-to-right order; it never
    returns a container and never a leaf without parameters. *)
Theorem layers_to_optimize_trainable_leaves
  (has_params : layer -> bool) (self : layer) :
  layers_to_optimize has_params self
  = filter (fun l => has_params l = true) (flat_map leaves (layers_of self))
  /\ Forall (fun l => is_container l = false /\ has_params l = true)
       (layers_to_optimize has_params self).
Proof.
  split; [apply layers_to_optimize_filter|].
  rewrite layers_to_optimize_filter.
  apply Forall_forall. intros l Hl.
  apply list_elem_of_filter in Hl as [Hp Hl].
  split; [|exact Hp].
  apply list_elem_of_In, in_flat_map in Hl as (c & _ & Hl).
  pose proof (leaves_are_leaves c) as Hc.
  rewrite Forall_forall in Hc. apply Hc, list_elem_of_In. exact Hl.
Qed.


(** ** The projection of a ResidualModule *)

Lemma from_end_1_Some {A : Type} (xs : list A) (x : A) :
  from_end xs 1 = Ok x -> exists pre, xs = pre ++ [x].
Proof.
  unfold from_end. simpl. destruct (rev xs) as [|y ys] eqn:E; [discriminate|].
  intros [= <-]. exists (rev ys).
  rewrite <- (rev_involutive xs), E. reflexivity.
Qed.

Lemma from_end_2_Some {A : Type} (xs : list A) (x : A) :
  from_end xs 2 = Ok x -> exists pre y, xs = pre ++ [x; y].
Proof.
  unfold from_end. simpl. destruct (rev xs) as [|y [|z ys]] eqn:E;
    try discriminate.
  intros [= <-]. exists (rev ys), y.
  rewrite <- (rev_involutive xs), E. simpl. rewrite <- app_assoc. reflexivity.
Qed.

Lemma from_end_short {A : Type} (xs : list A) (k : nat) :
  length xs < k -> from_end xs k = Raise IndexError.
Proof.
  intros Hlen. unfold from_end.
  rewrite (proj2 (lookup_ge_None (rev xs) (pred k))); [reflexivity|].
  rewrite length_rev. lia.
Qed.

Lemma from_end_long {A : Type} (xs : list A) (k : nat) :
  0 < k -> k <= length xs -> is_ok (from_end xs k) = true.
Proof.
  intros Hk Hlen. unfold from_end.
  destruct (rev xs !! pred k) eqn:E; [reflexivity|].
  apply lookup_ge_None in E. rewrite length_rev in E. lia.
Qed.

Lemma filter_Convolution_leaves (ls : list layer) :
  Forall (fun l => exists x, l = Leaf x)
    (filter (fun l => type_of l = TLeaf Convolution) ls).
Proof.
  apply Forall_forall. intros l Hl.
  apply list_elem_of_filter in Hl as [Ht _].
  destruct l as [x| | |o ms cs b a m|]; try discriminate.
  - eexists. reflexivity.
  - destruct ms; discriminate.
Qed.

(** X3.  A ResidualModule built with a projection holds a skip layer that
    is a new Convolution with as many feature maps as the last Convolution
    of the body and the stride of the one before it.  The skip layer is a
    child of the module, and so among its layers to optimize, unless the
    projection is named Identity. *)
Theorem ResidualModule_projection_layer
  (dflt : bool) (arg : nested) (name : string) (n n' : oid) (self : layer) :
  ResidualModule_init dflt arg (Some name) n = Ok (self, n') ->
  exists trunk pre c2 c1,
    filter (fun l => type_of l = TLeaf Convolution) (flatten arg)
    = pre ++ [Leaf c2; Leaf c1]
    /\ layers_of trunk = flatten arg
    /\ let skip :=
         Leaf (MkLeaf (n + 2) Convolution true (leaf_K c1) (leaf_str_h c2)) in
       skip_layer_of self = Some skip
       /\ layers_of self
          = (if bool_decide (name = "Identity"%string)
             then [trunk] else [trunk; skip])
       /\ forall has_params : layer -> bool,
            layers_to_optimize has_params self
            = filter (fun l => has_params l = true)
                (flat_map leaves (flatten arg))
              ++ (if bool_decide (name = "Identity"%string) then []
                  else filter (fun l => has_params l = true) [skip]).
Proof.
  unfold ResidualModule_init, ctor_bind, new_object, ctor_ret, ctor_raise,
    Convolution_init.
  destruct (Sequential_init dflt _ (Datatypes.S n)) as [[trunk m]|e] eqn:E;
    [|discriminate].
  apply Sequential_init_layers in E as [-> ->].
  rewrite !flatten_NIter_flat. cbn [layers_of].
  destruct (from_end _ 1) as [c1|] eqn:E1; [|discriminate].
  destruct (from_end _ 2) as [c2|] eqn:E2; [|discriminate].
  apply from_end_2_Some in E2 as (pre & y & Hconv).
  pose proof E1 as E1'. rewrite Hconv in E1'.
  unfold from_end in E1'. rewrite rev_app_distr in E1'. simpl in E1'.
  injection E1' as <-.
  pose proof (filter_Convolution_leaves (flatten arg)) as Hleaf.
  rewrite Hconv in Hleaf. apply Forall_app in Hleaf as [_ Hleaf].
  apply Forall_cons in Hleaf as [[x2 ->] Hleaf].
  apply Forall_cons in Hleaf as [[x1 ->] _].
  intros Heq. cbv [ctor_bind new_object ctor_ret] in Heq.
  exists (SequentialObj (Datatypes.S n) dflt (flatten arg)
            (filter (fun x => type_of x <> TLeaf BranchNode) (flatten arg))),
    pre, x2, x1. split; [exact Hconv|]. split; [reflexivity|].
  cbn zeta.
  replace (n + 2) with (Datatypes.S (Datatypes.S n)) by lia.
  destruct (bool_decide (name <> "Identity"%string)) eqn:Hn;
    injection Heq as <- <-.
  - apply bool_decide_eq_true in Hn.
    rewrite (bool_decide_eq_false_2 _ Hn).
    split; [reflexivity|]. split; [reflexivity|].
    intros has_params.
    rewrite layers_to_optimize_filter.
    cbn [layers_of flat_map leaves]. rewrite app_nil_r, filter_app.
    reflexivity.
  - apply bool_decide_eq_false in Hn.
    assert (Hid : name = "Identity"%string).
    { destruct (decide (name = "Identity"%string)); [assumption|tauto]. }
    rewrite (bool_decide_eq_true_2 _ Hid).
    split; [reflexivity|]. split; [reflexivity|].
    intros has_params.
    rewrite layers_to_optimize_filter.
    cbn [layers_of flat_map leaves]. rewrite !app_nil_r. reflexivity.
Qed.

Lemma ResidualModule_projection_layer_witness :
  exists trunk pre c2 c1,
    filter (fun l => type_of l = TLeaf Convolution) (flatten two_convs)
    = pre ++ [Leaf c2; Leaf c1]
    /\ layers_of trunk = flatten two_convs
    /\ let skip :=
         Leaf (MkLeaf (10 + 2) Convolution true (leaf_K c1) (leaf_str_h c2)) in
       skip_layer_of projected_block = Some skip
       /\ layers_of projected_block
          = (if bool_decide ("Gaussian"%string = "Identity"%string)
             then [trunk] else [trunk; skip])
       /\ forall has_params : layer -> bool,
            layers_to_optimize has_params projected_block
            = filter (fun l => has_params l = true)
                (flat_map leaves (flatten two_convs))
              ++ (if bool_decide ("Gaussian"%string = "Identity"%string)
                  then []
                  else filter (fun l => has_params l = true) [skip]).
Proof.
  apply (ResidualModule_projection_layer true two_convs "Gaussian" 10 13).
  reflexivity.
Defined.

(** ** What a ResidualModule needs *)

Lemma Sequential_init_reflatten (dflt : bool) (arg : nested) (n : oid) :
  Sequential_init dflt (NIter PyList (map NLayer (flatten arg))) n
  = Sequential_init dflt arg n.
Proof.
  unfold Sequential_init, ctor_bind, new_object.
  rewrite flatten_NIter_flat. reflexivity.
Qed.

(** X4.  A ResidualModule can be built exactly when a Sequential of the
    same layers can and the layers hold at least two Convolutions; with a
    buildable body of fewer Convolutions the constructor raises
    IndexError. *)
Theorem ResidualModule_init_needs_two_convolutions
  (dflt : bool) (arg : nested) (projection : option string) (n : oid) :
  is_ok (ResidualModule_init dflt arg projection n)
  = is_ok (Sequential_init dflt arg (Datatypes.S n))
    && (2 <=? length (filter (fun l => type_of l = TLeaf Convolution)
                        (flatten arg)))
  /\ (is_ok (Sequential_init dflt arg (Datatypes.S n)) = true ->
      length (filter (fun l => type_of l = TLeaf Convolution) (flatten arg))
      < 2 ->
      ResidualModule_init dflt arg projection n = Raise IndexError).
Proof.
  unfold ResidualModule_init, ctor_bind, new_object, ctor_ret, ctor_raise,
    Convolution_init.
  rewrite Sequential_init_reflatten.
  destruct (Sequential_init dflt arg (Datatypes.S n)) as [[trunk m]|e] eqn:E.
  - apply Sequential_init_layers in E as [-> ->]. cbn [layers_of is_ok].
    set (convlayers := filter _ (flatten arg)).
    destruct (Nat.leb_spec 2 (length convlayers)) as [Hlen|Hlen].
    + split; [|lia].
      pose proof (from_end_long convlayers 1 ltac:(lia) ltac:(lia)) as H1.
      pose proof (from_end_long convlayers 2 ltac:(lia) ltac:(lia)) as H2.
      destruct (from_end convlayers 1); [|discriminate].
      destruct (from_end convlayers 2); [|discriminate].
      destruct projection; reflexivity.
    + assert (H2 : from_end convlayers 2 = Raise IndexError)
        by (apply from_end_short; lia).
      rewrite H2.
      destruct (from_end convlayers 1) eqn:H1.
      * split; [reflexivity|]. intros _ _. reflexivity.
      * unfold from_end in H1. destruct (rev convlayers !! pred 1);
          [discriminate|]. injection H1 as <-.
        split; [reflexivity|]. intros _ _. reflexivity.
  - split; [reflexivity|]. discriminate.
Qed.

Lemma ResidualModule_init_needs_two_convolutions_witness :
  ResidualModule_init true (NIter PyList [NLayer (conv 1); NLayer (affine 2)])
    None 10
  = Raise IndexError.
Proof.
  apply (ResidualModule_init_needs_two_convolutions true
           (NIter PyList [NLayer (conv 1); NLayer (affine 2)]) None 10).
  - reflexivity.
  - vm_compute. lia.
Defined.

(** ** Loading weights *)

Lemma leaves_length (l : layer) :
  length (leaves l) = skeleton_leaves (skeleton_of l).
Proof.
  induction l as [x|o own ls _ls IH|o own ls a b IH|o ms ls b a m IH|o ls sk IH]
    using layer_children_ind; simpl; try reflexivity;
    try (destruct ms; simpl);
    induction IH as [|c cs Hc _ IHcs]; simpl; try reflexivity;
    rewrite length_app, Hc, IHcs; reflexivity.
Qed.

Lemma load_pairs_app {W : Type}
  (leaf_load_weights : layer -> desc -> bool -> W -> result W)
  (inference : bool) (a b : list (layer * layer)) : forall w,
  load_pairs leaf_load_weights inference (a ++ b) w
  = match load_pairs leaf_load_weights inference a w with
    | Raise e => Raise e
    | Ok w' => load_pairs leaf_load_weights inference b w'
    end.
Proof.
  induction a as [|[l src] a IH]; intros w; simpl; [reflexivity|].
  destruct (leaf_load_weights l _ inference w); [apply IH|reflexivity].
Qed.

Lemma load_weights_container {W : Type}
  (leaf_load_weights : layer -> desc -> bool -> W -> result W)
  (self : layer) (pdict : desc) (inference : bool) (w : W) :
  is_container self = true ->
  load_weights leaf_load_weights self pdict inference w
  = match desc_layers pdict with
    | Raise e => Raise e
    | Ok ds =>
        if negb (Nat.eqb (length ds) (length (layers_of self)))
        then Raise AssertionError
        else load_each leaf_load_weights inference (layers_of self) ds w
    end.
Proof.
  destruct self as [x|o own ls _ls|o own ls a b|o ms ls b a m|o ls sk];
    intros Hc; try discriminate Hc; simpl;
    destruct (desc_layers pdict) as [ds|e]; try reflexivity;
    destruct (negb _); try reflexivity;
    clear; revert ds w; induction ls as [|l ls IH]; intros [|d ds] w;
    simpl; try reflexivity;
    destruct (load_weights leaf_load_weights l d inference w);
    try reflexivity; apply IH.
Qed.

Lemma skeleton_container (self src : layer) :
  skeleton_of src = skeleton_of self ->
  is_container src = is_container self
  /\ map skeleton_of (layers_of src) = map skeleton_of (layers_of self).
Proof.
  rewrite (skeleton_unfold src), (skeleton_unfold self).
  intros [= Ht Hc]. unfold is_container. rewrite Ht. split; [reflexivity|].
  exact Hc.
Qed.

Lemma get_description_layers (l : layer) :
  is_container l = true ->
  desc_layers (get_description l) = Ok (map get_description (layers_of l)).
Proof.
  destruct l as [x|o own ls _ls|o own ls a b|o ms ls b a m|o ls sk];
    intros Hc; try discriminate Hc; reflexivity.
Qed.

Lemma load_weights_skeleton {W : Type}
  (leaf_load_weights : layer -> desc -> bool -> W -> result W)
  (inference : bool) (self : layer) : forall (src : layer) (w : W),
  skeleton_of src = skeleton_of self ->
  load_weights leaf_load_weights self (get_description src) inference w
  = load_pairs leaf_load_weights inference (zip (leaves self) (leaves src)) w.
Proof.
  assert (Hch : forall ls : list layer,
    Forall (fun l => forall src w,
              skeleton_of src = skeleton_of l ->
              load_weights leaf_load_weights l (get_description src)
                inference w
              = load_pairs leaf_load_weights inference
                  (zip (leaves l) (leaves src)) w) ls ->
    forall cs w,
      map skeleton_of cs = map skeleton_of ls ->
      load_each leaf_load_weights inference ls (map get_description cs) w
      = load_pairs leaf_load_weights inference
          (zip (flat_map leaves ls) (flat_map leaves cs)) w).
  { induction 1 as [|l ls Hl _ IH]; intros [|c cs] w Hsk;
      try discriminate Hsk; cbn [load_each map flat_map]; [reflexivity|].
    injection Hsk as Hc Hcs.
    rewrite zip_with_app
      by (rewrite !leaves_length, Hc; reflexivity).
    rewrite load_pairs_app, (Hl c w Hc).
    destruct (load_pairs _ _ _ w); [apply IH, Hcs|reflexivity]. }
  assert (Hcont : forall self0 : layer,
    is_container self0 = true ->
    Forall (fun l => forall src w,
              skeleton_of src = skeleton_of l ->
              load_weights leaf_load_weights l (get_description src)
                inference w
              = load_pairs leaf_load_weights inference
                  (zip (leaves l) (leaves src)) w) (layers_of self0) ->
    forall src w,
      skeleton_of src = skeleton_of self0 ->
      flat_map leaves (layers_of self0) = leaves self0 ->
      flat_map leaves (layers_of src) = leaves src ->
      load_weights leaf_load_weights self0 (get_description src) inference w
      = load_pairs leaf_load_weights inference
          (zip (leaves self0) (leaves src)) w).
  { intros self0 Hc IH src w Hsk Hl1 Hl2.
    destruct (skeleton_container _ _ Hsk) as [Hcs Hmap].
    rewrite load_weights_container by exact Hc.
    rewrite get_description_layers by congruence.
    rewrite length_map.
    assert (Hlen : length (layers_of src) = length (layers_of self0)).
    { rewrite <- (length_map skeleton_of (layers_of src)), Hmap.
      apply length_map. }
    rewrite Hlen, Nat.eqb_refl. simpl.
    rewrite (Hch _ IH _ w Hmap), Hl1, Hl2. reflexivity. }
  induction self
    as [x|o own ls _ls IH|o own ls a b IH|o ms ls b a m IH|o ls sk IH]
    using layer_children_ind; intros src w Hsk.
  - destruct src as [y| | |? ms' ? ? ? ?|]; try discriminate Hsk;
      [|destruct ms'; discriminate Hsk].
    simpl. destruct (leaf_load_weights _ _ _ _); reflexivity.
  - apply Hcont; try reflexivity; try exact IH; try exact Hsk.
    destruct src; try reflexivity; discriminate Hsk.
  - apply Hcont; try reflexivity; try exact IH; try exact Hsk.
    destruct src; try reflexivity; discriminate Hsk.
  - apply Hcont; try reflexivity; try exact IH; try exact Hsk.
    + destruct ms; reflexivity.
    + destruct src; try reflexivity. destruct ms; discriminate Hsk.
  - apply Hcont; try reflexivity; try exact IH; try exact Hsk.
    destruct src; try reflexivity; discriminate Hsk.
Qed.

(** X5.  Loading the description of a container tree of the same shape,
    the container's own among them, raises no structural error: the leaves
    of the two trees correspond one to one and every leaf, in depth-first
    order, is handed the descriptor of its counterpart. *)
Theorem load_weights_same_shape {W : Type}
  (leaf_load_weights : layer -> desc -> bool -> W -> result W)
  (self src : layer) (inference : bool) (w : W) :
  skeleton_of src = skeleton_of self ->
  load_weights leaf_load_weights self (get_description src) inference w
  = load_pairs leaf_load_weights inference (zip (leaves self) (leaves src)) w
  /\ length (leaves src) = length (leaves self).
Proof.
  intros Hsk. split.
  - apply load_weights_skeleton, Hsk.
  - rewrite !leaves_length, Hsk. reflexivity.
Qed.

Lemma load_weights_same_shape_witness :
  load_weights logging_load two_branch_tree (get_description two_branch_tree)
    false []
  = load_pairs logging_load false
      (zip (leaves two_branch_tree) (leaves two_branch_tree)) []
  /\ length (leaves two_branch_tree) = length (leaves two_branch_tree).
Proof.
  apply (load_weights_same_shape logging_load two_branch_tree two_branch_tree
           false []).
  reflexivity.
Defined.

(** X6.  Loading into a container the description of a container with
    another number of children raises AssertionError, and the description
    of a leaf raises KeyError, whatever the leaves would do with their
    descriptors. *)
Theorem load_weights_child_count {W : Type}
  (leaf_load_weights : layer -> desc -> bool -> W -> result W)
  (self src : layer) (inference : bool) (w : W) :
  is_container self = true ->
  (is_container src = true ->
   length (layers_of src) <> length (layers_of self) ->
   load_weights leaf_load_weights self (get_description src) inference w
   = Raise AssertionError)
  /\ (is_container src = false ->
      load_weights leaf_load_weights self (get_description src) inference w
      = Raise KeyError).
Proof.
  intros Hc. rewrite load_weights_container by exact Hc. split.
  - intros Hs Hlen. rewrite get_description_layers by exact Hs.
    rewrite length_map.
    destruct (Nat.eqb_spec (length (layers_of src)) (length (layers_of self)));
      [contradiction|reflexivity].
  - intros Hs.
    destruct src as [y|? ? ? ?|? ? ? ? ?|? ms ? ? ? ?|? ? ?];
      try discriminate Hs; [reflexivity|destruct ms; discriminate Hs].
Qed.

Lemma load_weights_child_count_witness :
  load_weights logging_load two_branch_tree (get_description residual_block)
    false []
  = Raise AssertionError
  /\ load_weights logging_load two_branch_tree (get_description (conv 1))
       false []
     = Raise KeyError.
Proof.
  split.
  - apply (load_weights_child_count logging_load two_branch_tree
             residual_block false []); [reflexivity|reflexivity|].
    vm_compute. lia.
  - apply (load_weights_child_count logging_load two_branch_tree (conv 1)
             false []); reflexivity.
Defined.

(** ** Allocating the outputs of a Sequential *)

Lemma filter_none {A : Type} (P : A -> Prop) `{forall x, Decision (P x)}
  (l : list A) :
  Forall (fun x => ~ P x) l -> filter P l = [].
Proof.
  induction 1 as [|x l Hx _ IH]; [reflexivity|].
  rewrite filter_cons_False by exact Hx. exact IH.
Qed.

(** X7.  [Sequential.allocate] hands the shared buffer to the last layer
    of the chain that owns its output, and then allocates every layer, that
    one again among them, with no buffer.  A chain in which no layer owns
    its output raises IndexError. *)
Theorem Sequential_allocate_last_owner {S buf : Type}
  (layer_allocate : layer -> option buf -> S -> result S)
  (self : layer) (shared_outputs : option buf) (s : S) :
  (Forall (fun l => owns_output_of l = false) (layers_of self) ->
   Sequential_allocate layer_allocate self shared_outputs s
   = Raise IndexError)
  /\ (forall before l after,
        layers_of self = before ++ l :: after ->
        owns_output_of l = true ->
        Forall (fun x => owns_output_of x = false) after ->
        Sequential_allocate layer_allocate self shared_outputs s
        = match layer_allocate l shared_outputs s with
          | Raise e => Raise e
          | Ok s' => allocate_each layer_allocate (layers_of self) s'
          end).
Proof.
  unfold Sequential_allocate. split.
  - intros Hall. rewrite filter_none; [reflexivity|].
    eapply Forall_impl; [exact Hall|]. simpl. intros l Hl. congruence.
  - intros before l after -> Hown Hafter.
    rewrite filter_app, filter_cons_True by exact Hown.
    rewrite (filter_none _ after)
      by (eapply Forall_impl; [exact Hafter|]; simpl; intros x Hx; congruence).
    unfold from_end. rewrite rev_app_distr. reflexivity.
Qed.

Lemma Sequential_allocate_last_owner_witness :
  Sequential_allocate logging_allocate
    (SequentialObj 10 true [dropout 1] [dropout 1]) (Some 7) []
  = Raise IndexError
  /\ Sequential_allocate logging_allocate conv_act_chain (Some 7) []
     = match logging_allocate (conv 3) (Some 7) [] with
       | Raise e => Raise e
       | Ok s' => allocate_each logging_allocate (layers_of conv_act_chain) s'
       end.
Proof.
  split.
  - apply (Sequential_allocate_last_owner logging_allocate
             (SequentialObj 10 true [dropout 1] [dropout 1]) (Some 7) []).
    repeat constructor.
  - apply (proj2 (Sequential_allocate_last_owner logging_allocate
                    conv_act_chain (Some 7) [])
             [conv 1; activation 2] (conv 3) [activation 4]).
    + reflexivity.
    + reflexivity.
    + repeat constructor.
Defined.

(** ** Terminals *)

Lemma get_terminal_Sequential o own (ls _ls : list layer) :
  get_terminal (SequentialObj o own ls _ls)
  = match last ls with
    | Some l => get_terminal l
    | None => Raise IndexError
    end.
Proof.
  simpl. induction ls as [|l [|l' rest] IH]; try reflexivity.
  rewrite IH. reflexivity.
Qed.

Lemma wrap_branches_types dflt (elems : list element) :
  forall acc n ls n',
  wrap_branches dflt elems acc n = Ok (ls, n') ->
  Forall (fun b => type_of b = TSequential) acc ->
  Forall (fun b => type_of b = TSequential) ls.
Proof.
  induction elems as [|e elems IH]; intros acc n ls n'; simpl.
  - intros [= <- <-]. auto.
  - destruct e as [l|items|x].
    + destruct (bool_decide (type_of l = TSequential)) eqn:Ht.
      * apply bool_decide_eq_true in Ht. intros Hw Hacc.
        apply (IH _ _ _ _ Hw). apply Forall_app. split; [exact Hacc|].
        constructor; [exact Ht|constructor].
      * unfold ctor_bind.
        destruct (Sequential_init dflt _ n) as [[s m]|e] eqn:E; [|discriminate].
        apply Sequential_init_layers in E as [-> ->]. intros Hw Hacc.
        apply (IH _ _ _ _ Hw). apply Forall_app. split; [exact Hacc|].
        constructor; [reflexivity|constructor].
    + unfold ctor_bind.
      destruct (Sequential_init dflt _ n) as [[s m]|e] eqn:E; [|discriminate].
      apply Sequential_init_layers in E as [-> ->]. intros Hw Hacc.
      apply (IH _ _ _ _ Hw). apply Forall_app. split; [exact Hacc|].
      constructor; [reflexivity|constructor].
    + apply IH.
Qed.

Lemma type_Sequential_inv (b : layer) :
  type_of b = TSequential ->
  exists o own ls _ls, b = SequentialObj o own ls _ls.
Proof.
  destruct b as [x|o own ls _ls|? ? ? ? ?|? ms ? ? ? ?|? ? ?];
    try discriminate; [|destruct ms; discriminate].
  intros _. eexists _, _, _, _. reflexivity.
Qed.

Lemma Tree_terminals (o : oid) (own : bool) (bs : list layer)
  (alphas betas : list Q) :
  Forall (fun b => type_of b = TSequential) bs ->
  (forall b, b ∈ bs -> exists x, last (layers_of b) = Some (Leaf x)) ->
  exists ts,
    get_terminal (TreeObj o own bs alphas betas)
    = Ok (NIter PyList (map NLayer ts))
    /\ length ts = length bs
    /\ forall i b, bs !! i = Some b -> last (layers_of b) = ts !! i.
Proof.
  intros Hty Hlast. cbn [get_terminal].
  induction bs as [|b bs IH].
  - exists []. repeat split. intros i b Hb. discriminate Hb.
  - apply Forall_cons in Hty as [Hb Hty].
    destruct IH as (ts & Hrun & Hlen & Hts); [exact Hty| |].
    { intros b' Hb'. apply Hlast. right. exact Hb'. }
    destruct (Hlast b) as [x Hx]; [left|].
    apply type_Sequential_inv in Hb as (ob & ownb & ls & _ls & ->).
    rewrite get_terminal_Sequential. cbn [layers_of] in Hx. rewrite Hx.
    cbn [get_terminal].
    destruct ((fix each (ls0 : list layer) : result (list nested) := _) bs)
      as [ts'|e]; [|discriminate].
    injection Hrun as ->.
    exists (Leaf x :: ts). split; [reflexivity|]. split; [simpl; lia|].
    intros [|i] b' Hb'; simpl in *.
    + injection Hb' as <-. exact Hx.
    + apply Hts, Hb'.
Qed.

(** X8.  The terminal of a Tree whose branches end in leaf layers is the
    list of the last layers of its branches, one for every branch and in
    branch order. *)
Theorem Tree_get_terminal
  (dflt : bool) (elems : list element) (alphas : option (list Q))
  (n n' : oid) (self : layer) :
  Tree_init dflt elems alphas n = Ok (self, n') ->
  (forall b, b ∈ layers_of self ->
             exists x, last (layers_of b) = Some (Leaf x)) ->
  exists ts,
    get_terminal self = Ok (NIter PyList (map NLayer ts))
    /\ length ts = length (layers_of self)
    /\ forall i b, layers_of self !! i = Some b ->
                   last (layers_of b) = ts !! i.
Proof.
  intros Hinit Hlast.
  apply Tree_init_ok in Hinit as (ls & bs & Hw & _ & ->).
  apply Tree_terminals; [|exact Hlast].
  apply (wrap_branches_types _ _ _ _ _ _ Hw). constructor.
Qed.

Lemma Tree_get_terminal_witness :
  exists ts,
    get_terminal two_branch_tree = Ok (NIter PyList (map NLayer ts))
    /\ length ts = length (layers_of two_branch_tree)
    /\ forall i b, layers_of two_branch_tree !! i = Some b ->
                   last (layers_of b) = ts !! i.
Proof.
  apply (Tree_get_terminal true
           [ EList [NLayer (conv 1); NLayer (branch_node 2); NLayer (affine 3)];
             EList [NLayer (branch_node 2); NLayer (affine 4)] ] None 10 13).
  - reflexivity.
  - intros b Hb. simpl in Hb.
    repeat (apply elem_of_cons in Hb as [->|Hb]; [eexists; reflexivity|]).
    apply elem_of_nil in Hb. contradiction.
Defined.

(** ** Multicost: attaching the costs *)

Lemma initialize_each_surplus {cost S : Type}
  (cost_initialize : cost -> nested -> S -> result S)
  (cs more : list cost) (ts : list nested) : forall s,
  length cs = length ts ->
  initialize_each cost_initialize (cs ++ more) ts s
  = initialize_each cost_initialize cs ts s.
Proof.
  revert ts. induction cs as [|c cs IH]; intros [|t ts] s Hlen;
    try discriminate Hlen; simpl.
  - destruct more; reflexivity.
  - destruct (cost_initialize c t s); [|reflexivity].
    apply IH. simpl in Hlen. lia.
Qed.

(** X9.  [Multicost.initialize] on a Tree whose branches end in leaf
    layers attaches the costs, in order, to the last layers of the
    branches.  Costs beyond the number of branches are not initialized,
    and no error is raised for them.  A leaf layer in place of the
    container raises AssertionError. *)
Theorem Multicost_initialize_pairs {cost S : Type}
  (cost_initialize : cost -> nested -> S -> result S)
  (self : @Multicost.multicost cost)
  (dflt : bool) (elems : list element) (alphas : option (list Q))
  (n n' : oid) (tree : layer) (s : S) :
  Tree_init dflt elems alphas n = Ok (tree, n') ->
  (forall b, b ∈ layers_of tree ->
             exists x, last (layers_of b) = Some (Leaf x)) ->
  (exists ts,
     length ts = length (layers_of tree)
     /\ (forall i b, layers_of tree !! i = Some b ->
                     last (layers_of b) = ts !! i)
     /\ Multicost_initialize cost_initialize self tree s
        = initialize_each cost_initialize (Multicost.costs self)
            (map NLayer ts) s)
  /\ (forall more,
        length (Multicost.costs self) = length (layers_of tree) ->
        Multicost_initialize cost_initialize
          (Multicost.MkMulticost (Multicost.costs self ++ more)
             (Multicost.weights self)) tree s
        = Multicost_initialize cost_initialize self tree s)
  /\ (forall x, Multicost_initialize cost_initialize self (Leaf x) s
                = Raise AssertionError).
Proof.
  intros Hinit Hlast.
  apply Tree_init_ok in Hinit as (ls & bs & Hw & _ & ->).
  destruct (Tree_terminals n dflt ls (default_alphas alphas ls) bs)
    as (ts & Hrun & Hlen & Hts); [|exact Hlast|].
  { apply (wrap_branches_types _ _ _ _ _ _ Hw). constructor. }
  split; [|split; [|reflexivity]].
  - exists ts. split; [exact Hlen|]. split; [exact Hts|].
    unfold Multicost_initialize. rewrite Hrun. reflexivity.
  - intros more Hcs. unfold Multicost_initialize. rewrite Hrun.
    cbn [negb is_container is_leaf_type type_of Multicost.costs].
    apply initialize_each_surplus. rewrite length_map.
    cbn [layers_of] in *. lia.
Qed.

Lemma Multicost_initialize_pairs_witness :
  (exists ts,
     length ts = length (layers_of two_branch_tree)
     /\ (forall i b, layers_of two_branch_tree !! i = Some b ->
                     last (layers_of b) = ts !! i)
     /\ Multicost_initialize logging_initialize
          (Multicost.MkMulticost [7; 8] [1; 1]%Q) two_branch_tree []
        = initialize_each logging_initialize [7; 8] (map NLayer ts) [])
  /\ (forall more,
        length [7; 8] = length (layers_of two_branch_tree) ->
        Multicost_initialize logging_initialize
          (Multicost.MkMulticost ([7; 8] ++ more) [1; 1]%Q) two_branch_tree []
        = Multicost_initialize logging_initialize
            (Multicost.MkMulticost [7; 8] [1; 1]%Q) two_branch_tree [])
  /\ (forall x, Multicost_initialize logging_initialize
                  (Multicost.MkMulticost [7; 8] [1; 1]%Q) (Leaf x) []
                = Raise AssertionError).
Proof.
  apply (Multicost_initialize_pairs logging_initialize
           (Multicost.MkMulticost [7; 8] [1; 1]%Q) true
           [ EList [NLayer (conv 1); NLayer (branch_node 2); NLayer (affine 3)];
             EList [NLayer (branch_node 2); NLayer (affine 4)] ] None 10 13).
  - reflexivity.
  - intros b Hb. simpl in Hb.
    repeat (apply elem_of_cons in Hb as [->|Hb]; [eexists; reflexivity|]).
    apply elem_of_nil in Hb. contradiction.
Defined.

(** ** MergeBroadcast: the slices of every merge mode *)

Section MergeSliceFacts.

Import MergeBroadcast.
Local Open Scope Z_scope.

Lemma comprehension_length {A B : Type} (f : A -> result B) (xs : list A) :
  forall ys, comprehension f xs = Ok ys -> length ys = length xs.
Proof.
  induction xs as [|x xs IH]; intros ys; simpl.
  - intros [= <-]. reflexivity.
  - destruct (f x); [|discriminate].
    destruct (comprehension f xs) as [zs|]; [|discriminate].
    intros [= <-]. simpl. f_equal. apply IH. reflexivity.
Qed.

Lemma configure_merge_cases (merge : string) (in_shapes : list shape)
  (bsz : Z) (out : shape) (slices : list slice) :
  _configure_merge merge in_shapes bsz = Ok (out, slices) ->
  exists catdims stride,
    slices = make_slices catdims stride
    /\ length catdims = length in_shapes
    /\ merge ∈ merge_modes
    /\ ((merge = "recurrent"%string /\ stride = bsz
         /\ exists d0, out = STuple [d0; sum catdims])
        \/ (merge <> "recurrent"%string
            /\ np_prod out = sum catdims * stride)).
Proof.
  unfold _configure_merge.
  destruct (String.eqb_spec merge "recurrent") as [->|Hr].
  - destruct (comprehension _ in_shapes) as [catdims|] eqn:Ec; [|discriminate].
    destruct in_shapes as [|xs0 rest] eqn:Es; [discriminate|].
    destruct (shape_item xs0 0) as [d0|]; [|discriminate].
    intros [= <- <-]. exists catdims, bsz. split; [reflexivity|].
    split; [apply (comprehension_length _ _ _ Ec)|].
    split; [unfold merge_modes; set_solver|].
    left. split; [reflexivity|]. split; [reflexivity|].
    exists d0. reflexivity.
  - destruct (String.eqb_spec merge "depth") as [->|Hd].
    + destruct (comprehension _ in_shapes) as [catdims|] eqn:Ec;
        [|discriminate].
      destruct in_shapes as [|[n0|dims0] rest] eqn:Es; try discriminate.
      intros [= <- <-]. exists catdims, (prod (tail dims0)).
      split; [reflexivity|].
      split; [apply (comprehension_length _ _ _ Ec)|].
      split; [unfold merge_modes; set_solver|].
      right. split; [exact Hr|]. reflexivity.
    + destruct (String.eqb_spec merge "stack") as [->|Hs]; [|discriminate].
      intros [= <- <-]. eexists _, 1. split; [reflexivity|].
      split; [apply length_map|].
      split; [unfold merge_modes; set_solver|].
      right. split; [exact Hr|]. simpl. lia.
Qed.

Lemma make_slices_last (catdims : list Z) (stride : Z) (s e : Z) :
  last (make_slices catdims stride) = Some (s, e) ->
  e = sum catdims * stride.
Proof.
  rewrite last_lookup, make_slices_length. intros Hl.
  destruct (catdims !! pred (length catdims)) as [d|] eqn:Ed.
  - rewrite (make_slices_lookup _ _ _ _ Ed) in Hl. injection Hl as _ <-.
    rewrite take_ge; [reflexivity|].
    apply lookup_lt_Some in Ed. lia.
  - apply lookup_ge_None in Ed.
    rewrite (proj2 (lookup_ge_None _ _)) in Hl; [discriminate|].
    rewrite make_slices_length. exact Ed.
Qed.

Lemma make_slices_first (catdims : list Z) (stride : Z) (s e : Z) :
  make_slices catdims stride !! 0%nat = Some (s, e) -> s = 0.
Proof.
  intros Hl. destruct (catdims !! 0%nat) as [d|] eqn:Ed.
  - rewrite (make_slices_lookup _ _ _ _ Ed) in Hl. injection Hl as <- _.
    reflexivity.
  - apply lookup_ge_None in Ed.
    rewrite (proj2 (lookup_ge_None _ _)) in Hl; [discriminate|].
    rewrite make_slices_length. exact Ed.
Qed.

Lemma make_slices_contiguous (catdims : list Z) (stride : Z) (i : nat)
  (s e s' e' : Z) :
  make_slices catdims stride !! i = Some (s, e) ->
  make_slices catdims stride !! Datatypes.S i = Some (s', e') ->
  s' = e.
Proof.
  intros Hi Hsi.
  destruct (catdims !! i) as [d|] eqn:Ed.
  - destruct (catdims !! Datatypes.S i) as [d'|] eqn:Ed'.
    + rewrite (make_slices_lookup _ _ _ _ Ed) in Hi.
      rewrite (make_slices_lookup _ _ _ _ Ed') in Hsi.
      injection Hi as _ <-. injection Hsi as <- _. reflexivity.
    + apply lookup_ge_None in Ed'.
      rewrite (proj2 (lookup_ge_None _ _)) in Hsi; [discriminate|].
      rewrite make_slices_length. exact Ed'.
  - apply lookup_ge_None in Ed.
    rewrite (proj2 (lookup_ge_None _ _)) in Hi; [discriminate|].
    rewrite make_slices_length. exact Ed.
Qed.

Lemma configure_merge_slices_chain
  (merge : string) (in_shapes : list shape) (bsz : Z)
  (out : shape) (slices : list slice) :
  _configure_merge merge in_shapes bsz = Ok (out, slices) ->
  length slices = length in_shapes
  /\ (forall s e, slices !! 0%nat = Some (s, e) -> s = 0)
  /\ (forall i s e s' e',
        slices !! i = Some (s, e) ->
        slices !! Datatypes.S i = Some (s', e') -> s' = e).
Proof.
  intros Hc.
  apply configure_merge_cases in Hc
    as (catdims & stride & -> & Hlen & _ & _).
  split; [rewrite make_slices_length; exact Hlen|].
  split; [apply make_slices_first|apply make_slices_contiguous].
Qed.

(** X10.  In every merge mode, when [_configure_merge] succeeds there is
    one slice for every branch, the first slice starts at 0 and every other
    slice starts where the one before it stops.  For the depth and stack
    merges the last slice stops at the volume of [out_shape]; for the
    recurrent merge it stops at the merged feature count times the batch
    size.  A merge mode other than the three cannot succeed. *)
Theorem configure_merge_slices_contiguous
  (merge : string) (in_shapes : list shape) (bsz : Z)
  (out : shape) (slices : list slice) :
  _configure_merge merge in_shapes bsz = Ok (out, slices) ->
  merge ∈ merge_modes
  /\ length slices = length in_shapes
  /\ (forall s e, slices !! 0%nat = Some (s, e) -> s = 0)
  /\ (forall i s e s' e',
        slices !! i = Some (s, e) ->
        slices !! Datatypes.S i = Some (s', e') -> s' = e)
  /\ (merge <> "recurrent"%string ->
      forall s e, last slices = Some (s, e) -> e = np_prod out)
  /\ (merge = "recurrent"%string ->
      exists d0 total,
        out = STuple [d0; total]
        /\ forall s e, last slices = Some (s, e) -> e = total * bsz).
Proof.
  intros Hc.
  apply configure_merge_cases in Hc
    as (catdims & stride & -> & Hlen & Hmode & Hout).
  split; [exact Hmode|].
  split; [rewrite make_slices_length; exact Hlen|].
  split; [apply make_slices_first|].
  split; [apply make_slices_contiguous|].
  split.
  - intros Hr s e Hl. destruct Hout as [[Hr' _]|[_ Hv]]; [contradiction|].
    rewrite Hv. eapply make_slices_last. exact Hl.
  - intros Hr. destruct Hout as [(_ & -> & d0 & ->)|[Hr' _]];
      [|contradiction].
    exists d0, (sum catdims). split; [reflexivity|].
    intros s e Hl. eapply make_slices_last. exact Hl.
Qed.

Lemma configure_merge_slices_contiguous_witness :
  ("stack"%string ∈ merge_modes)
  /\ length [(0, 5); (5, 11)] = length [SInt 5; STuple [2; 3]]
  /\ (forall s e, [(0, 5); (5, 11)] !! 0%nat = Some (s, e) -> s = 0)
  /\ (forall i s e s' e',
        [(0, 5); (5, 11)] !! i = Some (s, e) ->
        [(0, 5); (5, 11)] !! Datatypes.S i = Some (s', e') -> s' = e)
  /\ ("stack"%string <> "recurrent"%string ->
      forall s e, last [(0, 5); (5, 11)] = Some (s, e) ->
                  e = np_prod (SInt 11))
  /\ ("stack"%string = "recurrent"%string ->
      exists d0 total,
        SInt 11 = STuple [d0; total]
        /\ forall s e, last [(0, 5); (5, 11)] = Some (s, e) ->
                       e = total * 32).
Proof.
  apply (configure_merge_slices_contiguous "stack" [SInt 5; STuple [2; 3]] 32).
  reflexivity.
Defined.

End MergeSliceFacts.

(** ** MergeBroadcast: the partitions lose nothing *)

Section PartitionFacts.

Import MergeBroadcast.
Local Open Scope Z_scope.

Lemma take_take_drop {A : Type} (l : list A) (m k : nat) :
  take m l ++ take k (drop m l) = take (m + k) l.
Proof.
  revert l. induction m as [|m IH]; intros [|x l]; simpl;
    rewrite ?take_nil; try reflexivity.
  f_equal. apply IH.
Qed.

Lemma py_slice_in_range {A : Type} (l : list A) (s e : Z) :
  0 <= s -> s <= e -> e <= Z.of_nat (length l) ->
  py_slice (s, e) l = take (Z.to_nat (e - s)) (drop (Z.to_nat s) l).
Proof.
  intros Hs Hse He. unfold py_slice, clip. simpl.
  destruct (Z.ltb_spec s 0); [lia|].
  destruct (Z.ltb_spec e 0); [lia|].
  rewrite !Z.min_l by lia. reflexivity.
Qed.

Lemma contiguous_cover {A : Type} (l : list A) (slices : list slice) :
  forall a : Z,
  0 <= a ->
  (forall s e, slices !! 0%nat = Some (s, e) -> s = a) ->
  (forall i s e s' e',
     slices !! i = Some (s, e) ->
     slices !! Datatypes.S i = Some (s', e') -> s' = e) ->
  Forall (fun sl => fst sl <= snd sl) slices ->
  forall b,
  match last slices with Some (_, e) => e | None => a end = b ->
  b <= Z.of_nat (length l) ->
  a <= b
  /\ concat (map (fun sl => py_slice sl l) slices)
     = take (Z.to_nat (b - a)) (drop (Z.to_nat a) l).
Proof.
  induction slices as [|[s e] rest IH]; intros a Ha Hhead Hcont Hord b Hb Hlen.
  - simpl in Hb. subst b. split; [lia|]. simpl.
    rewrite Z.sub_diag. reflexivity.
  - rewrite (Hhead s e eq_refl) in *. clear Hhead.
    apply Forall_cons in Hord as [Hse Hord]. simpl in Hse.
    destruct (IH e) with (b := b) as [Heb Hrest]; try assumption.
    + lia.
    + intros s' e' H0. apply (Hcont 0%nat a e s' e'); [reflexivity|exact H0].
    + intros i s1 e1 s2 e2 H1 H2.
      apply (Hcont (Datatypes.S i) s1 e1 s2 e2); assumption.
    + destruct rest as [|y r]; [exact Hb|].
      rewrite last_cons_cons in Hb.
      destruct (last (y :: r)) as [[s1 e1]|] eqn:El; [exact Hb|].
      apply last_None in El. discriminate El.
    + split; [lia|].
      cbn [map concat]. rewrite Hrest.
      rewrite py_slice_in_range by lia.
      replace (drop (Z.to_nat e) l)
        with (drop (Z.to_nat (e - a)) (drop (Z.to_nat a) l)).
      * rewrite take_take_drop. f_equal. lia.
      * rewrite drop_drop. f_equal. lia.
Qed.

(** X11.  Splitting a tensor by the slices [_configure_merge] computed
    loses nothing and repeats nothing.  A batch-major tensor whose rows the
    slices cover is split into runs of rows that concatenate to its rows; a
    tensor that is not batch-major is split by columns, and the pieces of
    every row concatenate to that row. *)
Theorem get_partitions_cover {A : Type}
  (merge : string) (in_shapes : list shape) (bsz : Z)
  (out : shape) (slices : list slice) (x : tensor2d A) :
  _configure_merge merge in_shapes bsz = Ok (out, slices) ->
  Forall (fun sl => fst sl <= snd sl) slices ->
  length (get_partitions bsz x slices) = length in_shapes
  /\ (ncols x = bsz ->
      (exists s, last slices = Some (s, Z.of_nat (length (rows x)))) ->
      concat (map rows (get_partitions bsz x slices)) = rows x)
  /\ (ncols x <> bsz ->
      (exists s, last slices = Some (s, ncols x)) ->
      forall j r,
        rows x !! j = Some r ->
        Z.of_nat (length r) = ncols x ->
        concat (map (fun p => default [] (rows p !! j))
                  (get_partitions bsz x slices))
        = r).
Proof.
  intros Hc Hord.
  destruct (configure_merge_slices_chain _ _ _ _ _ Hc)
    as (Hlen & Hfirst & Hcont).
  unfold get_partitions. split; [|split].
  - destruct (negb _); rewrite length_map; exact Hlen.
  - intros Hb [s Hlast].
    rewrite (proj2 (Z.eqb_eq _ _) Hb). cbn [negb].
    rewrite map_map. cbn [rows_view rows].
    destruct (contiguous_cover (rows x) slices 0 ltac:(lia) Hfirst Hcont Hord
                (Z.of_nat (length (rows x))))
      as [_ Hcov]; [rewrite Hlast; reflexivity|lia|].
    rewrite Hcov. rewrite Z.sub_0_r, Nat2Z.id. simpl.
    apply firstn_all.
  - intros Hb [s Hlast] j r Hj Hr.
    rewrite (proj2 (Z.eqb_neq _ _) Hb). cbn [negb].
    rewrite map_map.
    rewrite (map_ext _ (fun sl => py_slice sl r)).
    + destruct (contiguous_cover r slices 0 ltac:(lia) Hfirst Hcont Hord
                  (ncols x))
        as [_ Hcov]; [rewrite Hlast; reflexivity|lia|].
      rewrite Hcov. rewrite Z.sub_0_r, <- Hr, Nat2Z.id. simpl.
      apply firstn_all.
    + intros sl. cbn [cols_view rows].
      rewrite list_lookup_fmap, Hj. reflexivity.
Qed.

Lemma get_partitions_cover_witness :
  concat (map rows (get_partitions 2 six_rows [(0, 2); (2, 6)]))
  = rows six_rows
  /\ forall j r,
       rows six_columns !! j = Some r ->
       Z.of_nat (length r) = ncols six_columns ->
       concat (map (fun p => default [] (rows p !! j))
                 (get_partitions 2 six_columns [(0, 2); (2, 6)]))
       = r.
Proof.
  split.
  - apply (proj1 (proj2 (get_partitions_cover "depth"
                           [STuple [1; 2]; STuple [2; 2]] 2
                           (STuple [3; 2]) [(0, 2); (2, 6)] six_rows
                           eq_refl ltac:(repeat constructor; simpl; lia)))).
    + reflexivity.
    + exists 2. reflexivity.
  - apply (proj2 (proj2 (get_partitions_cover "recurrent"
                           [STuple [10; 1]; STuple [10; 2]] 2
                           (STuple [10; 3]) [(0, 2); (2, 6)] six_columns
                           eq_refl ltac:(repeat constructor; simpl; lia)))).
    + simpl. lia.
    + exists 2. reflexivity.
Defined.

End PartitionFacts.

(** ** What the constructor of MergeBroadcast establishes *)

Lemma MergeBroadcast_init_ok dflt ms elems merge alphas n self n' :
  MergeBroadcast_init_as dflt ms elems merge alphas n = Ok (self, n') ->
  exists ls betas,
    wrap_branches dflt elems [] (Datatypes.S n) = Ok (ls, n')
    /\ set_last (map (fun _ => 1%Q) ls) 0%Q = Ok betas
    /\ merge ∈ merge_modes
    /\ self = MergeBroadcastObj n ms ls betas (default_alphas alphas ls) merge.
Proof.
  unfold MergeBroadcast_init_as, ctor_bind, new_object, ctor_ret, ctor_raise.
  destruct (wrap_branches dflt elems [] (Datatypes.S n)) as [[ls m]|e] eqn:Ew;
    [|discriminate].
  destruct (set_last _ 0%Q) as [betas|e] eqn:Eb; [|discriminate].
  destruct (bool_decide (merge ∈ merge_modes)) eqn:Em; [|discriminate].
  apply bool_decide_eq_true in Em.
  intros [= <- <-]. exists ls, betas. repeat split; assumption.
Qed.

Lemma set_last_ones (k : nat) (v : Q) (betas : list Q) :
  set_last (replicate k 1%Q) v = Ok betas ->
  0 < k
  /\ length betas = k
  /\ last betas = Some v
  /\ forall i, Datatypes.S i < k -> betas !! i = Some 1%Q.
Proof.
  unfold set_last.
  pose proof (length_replicate k 1%Q) as Hlen.
  pose proof (fun i => lookup_replicate_2 k 1%Q i) as Hones.
  destruct (replicate k 1%Q) as [|x l] eqn:El.
  - discriminate.
  - rewrite Hlen. intros [= <-].
    assert (Hk : 0 < k) by (simpl in Hlen; lia).
    split; [exact Hk|]. split; [rewrite length_insert; exact Hlen|]. split.
    + rewrite last_lookup, length_insert, Hlen.
      apply list_lookup_insert_eq. lia.
    + intros i Hi. rewrite list_lookup_insert_ne by lia.
      apply Hones. lia.
Qed.

Lemma map_const_replicate {A B : Type} (b : B) (l : list A) :
  map (fun _ => b) l = replicate (length l) b.
Proof. induction l; simpl; congruence. Qed.

(** X12.  A MergeBroadcast or MergeMultistream that its constructor built
    has at least one branch, every branch is a Sequential, the merge mode
    is one of the three, and there is one beta for every branch: 0.0 for
    the last branch and 1.0 for every other.  Without [alphas] every alpha
    is 1.0; given [alphas] are kept as they are, whatever their number. *)
Theorem MergeBroadcast_init_invariants
  (dflt ms : bool) (elems : list element) (merge : string)
  (alphas : option (list Q)) (n n' : oid) (self : layer) :
  MergeBroadcast_init_as dflt ms elems merge alphas n = Ok (self, n') ->
  type_of self = (if ms then TMergeMultistream else TMergeBroadcast)
  /\ layers_of self <> []
  /\ Forall (fun b => type_of b = TSequential) (layers_of self)
  /\ merge ∈ merge_modes
  /\ length (betas_of self) = length (layers_of self)
  /\ last (betas_of self) = Some 0%Q
  /\ (forall i, Datatypes.S i < length (layers_of self) ->
                betas_of self !! i = Some 1%Q)
  /\ (alphas = None ->
      alphas_of self = replicate (length (layers_of self)) 1%Q)
  /\ (forall a, alphas = Some a -> alphas_of self = a)
  /\ owns_output_of self = true.
Proof.
  intros Hinit.
  apply MergeBroadcast_init_ok in Hinit as (ls & betas & Hw & Hb & Hm & ->).
  rewrite map_const_replicate in Hb.
  apply set_last_ones in Hb as (Hpos & Hlen & Hlast & Hones).
  cbn [type_of layers_of betas_of alphas_of owns_output_of].
  split; [reflexivity|].
  split; [intros ->; simpl in Hpos; lia|].
  split; [apply (wrap_branches_types _ _ _ _ _ _ Hw); constructor|].
  split; [exact Hm|]. split; [exact Hlen|]. split; [exact Hlast|].
  split; [exact Hones|].
  split; [intros ->; apply map_const_replicate|].
  split; [intros a ->; reflexivity|reflexivity].
Qed.

Lemma MergeBroadcast_init_invariants_witness :
  type_of two_branch_merge = TMergeBroadcast
  /\ layers_of two_branch_merge <> []
  /\ Forall (fun b => type_of b = TSequential) (layers_of two_branch_merge)
  /\ "depth"%string ∈ merge_modes
  /\ length (betas_of two_branch_merge) = length (layers_of two_branch_merge)
  /\ last (betas_of two_branch_merge) = Some 0%Q
  /\ (forall i, Datatypes.S i < length (layers_of two_branch_merge) ->
                betas_of two_branch_merge !! i = Some 1%Q)
  /\ (@None (list Q) = None ->
      alphas_of two_branch_merge
      = replicate (length (layers_of two_branch_merge)) 1%Q)
  /\ (forall a, None = Some a -> alphas_of two_branch_merge = a)
  /\ owns_output_of two_branch_merge = true.
Proof.
  apply (MergeBroadcast_init_invariants true false
           [ EList [NLayer (conv 1); NLayer (affine 2)];
             EList [NLayer (conv 3); NLayer (affine 4)] ] "depth" None 10 13).
  reflexivity.
Defined.

(** ** Tree: the betas and the backward pass *)

Lemma Tree_init_attrs dflt elems alphas n self n' :
  Tree_init dflt elems alphas n = Ok (self, n') ->
  exists rs,
    roots_of (layers_of self) = Some rs
    /\ betas_of self = betas_forward rs
    /\ alphas_of self = default_alphas alphas (layers_of self)
    /\ Forall (fun b => type_of b = TSequential) (layers_of self).
Proof.
  intros Hinit.
  apply Tree_init_ok in Hinit as (ls & bs & Hw & Hb & ->).
  rewrite Tree_betas_forward in Hb.
  destruct (roots_of ls) as [rs|] eqn:Er; [|discriminate].
  injection Hb as <-. exists rs. cbn [layers_of betas_of alphas_of].
  split; [exact Er|]. split; [reflexivity|]. split; [reflexivity|].
  apply (wrap_branches_types _ _ _ _ _ _ Hw). constructor.
Qed.

(** X13.  The beta of branch [i] of a Tree depends on the roots of branch
    [i] and branch [i+1] alone: it is 1.0 when the root of branch [i] is
    not a BranchNode or is the very object that branch [i+1] starts at, and
    0.0 otherwise.  There is one beta for every branch. *)
Theorem Tree_beta_of_branch
  (dflt : bool) (elems : list element) (alphas : option (list Q))
  (n n' : oid) (self : layer) (i : nat) (root : layer) :
  Tree_init dflt elems alphas n = Ok (self, n') ->
  root_at (layers_of self) i = Some root ->
  betas_of self !! i
  = Some (tree_beta root (root_at (layers_of self) (Datatypes.S i)))
  /\ length (betas_of self) = length (layers_of self).
Proof.
  intros Hinit Hroot.
  apply Tree_init_attrs in Hinit as (rs & Hrs & -> & _).
  rewrite (roots_of_lookup _ _ _ Hrs) in Hroot.
  rewrite (roots_of_lookup _ _ (Datatypes.S i) Hrs).
  split.
  - apply betas_forward_lookup. exact Hroot.
  - rewrite betas_forward_length. apply (roots_of_length _ _ Hrs).
Qed.

Lemma Tree_beta_of_branch_witness :
  betas_of two_branch_tree !! 1
  = Some (tree_beta (branch_node 2) (root_at (layers_of two_branch_tree) 2))
  /\ length (betas_of two_branch_tree) = length (layers_of two_branch_tree).
Proof.
  apply (Tree_beta_of_branch true
           [ EList [NLayer (conv 1); NLayer (branch_node 2); NLayer (affine 3)];
             EList [NLayer (branch_node 2); NLayer (affine 4)] ] None 10 13).
  - reflexivity.
  - reflexivity.
Defined.

Lemma rev_lookup {A : Type} (l : list A) (i : nat) :
  i < length l -> rev l !! i = l !! (length l - Datatypes.S i).
Proof.
  induction l as [|x l IH]; simpl; [lia|]. intros Hi.
  destruct (decide (i < length l)) as [Hlt|Hge].
  - rewrite lookup_app_l by (rewrite length_rev; exact Hlt).
    rewrite IH by exact Hlt.
    replace (length l - i) with (Datatypes.S (length l - Datatypes.S i))
      by lia.
    reflexivity.
  - rewrite lookup_app_r by (rewrite length_rev; lia).
    rewrite length_rev.
    replace (i - length l) with 0 by lia.
    replace (length l - i) with 0 by lia. reflexivity.
Qed.

Lemma py_zip4_length {A B C D : Type} (xs : list A) (ys : list B)
  (zs : list C) (ws : list D) :
  length (py_zip4 xs ys zs ws)
  = Nat.min (Nat.min (Nat.min (length xs) (length ys)) (length zs))
      (length ws).
Proof. unfold py_zip4. rewrite !length_zip_with. reflexivity. Qed.

Lemma py_zip4_lookup {A B C D : Type} (xs : list A) (ys : list B)
  (zs : list C) (ws : list D) (i : nat) x y z w :
  xs !! i = Some x -> ys !! i = Some y -> zs !! i = Some z ->
  ws !! i = Some w ->
  py_zip4 xs ys zs ws !! i = Some (x, y, z, w).
Proof.
  intros Hx Hy Hz Hw. unfold py_zip4.
  apply lookup_zip_with_Some. exists (x, y, z), w.
  split; [reflexivity|]. split; [|exact Hw].
  apply lookup_zip_with_Some. exists (x, y), z.
  split; [reflexivity|]. split; [|exact Hz].
  apply lookup_zip_with_Some. exists x, y. auto.
Qed.

(** X14.  [Tree.bprop] calls the branches from the last to the first,
    each with its own error, alpha and beta.  It makes as many calls as the
    shortest of the branches, the errors and the alphas is long: branches
    beyond that are not propagated through, and no error is raised for
    them.  With the default alphas there is an alpha for every branch. *)
Theorem Tree_bprop_reverse_order {S value : Type}
  (layer_bprop : layer -> value -> Q -> Q -> S -> result S)
  (dflt : bool) (elems : list element) (alphas : option (list Q))
  (n n' : oid) (self : layer) (error : list value) (s : S) :
  Tree_init dflt elems alphas n = Ok (self, n') ->
  exists calls,
    Tree_bprop layer_bprop self error s = bprop_each layer_bprop calls s
    /\ length calls
       = Nat.min (length (layers_of self))
           (Nat.min (length error) (length (alphas_of self)))
    /\ (forall i b e a,
          layers_of self !! i = Some b -> error !! i = Some e ->
          alphas_of self !! i = Some a ->
          exists beta,
            betas_of self !! i = Some beta
            /\ calls !! (length calls - Datatypes.S i) = Some (b, e, a, beta))
    /\ (alphas = None ->
        alphas_of self = replicate (length (layers_of self)) 1%Q).
Proof.
  intros Hinit.
  apply Tree_init_attrs in Hinit as (rs & Hrs & Hb & Ha & _).
  assert (Hlen : length (betas_of self) = length (layers_of self)).
  { rewrite Hb, betas_forward_length. apply (roots_of_length _ _ Hrs). }
  exists (rev (py_zip4 (layers_of self) error (alphas_of self)
                 (betas_of self))).
  split; [reflexivity|].
  assert (Hcalls : length (rev (py_zip4 (layers_of self) error
                                  (alphas_of self) (betas_of self)))
                   = Nat.min (length (layers_of self))
                       (Nat.min (length error) (length (alphas_of self)))).
  { rewrite length_rev, py_zip4_length. lia. }
  split; [exact Hcalls|]. split.
  - intros i b e a Hl He Hal.
    pose proof (lookup_lt_Some _ _ _ Hl) as H1.
    pose proof (lookup_lt_Some _ _ _ He) as H2.
    pose proof (lookup_lt_Some _ _ _ Hal) as H3.
    destruct (betas_of self !! i) as [beta|] eqn:Hbeta;
      [|apply lookup_ge_None in Hbeta; lia].
    exists beta. split; [reflexivity|].
    rewrite Hcalls.
    rewrite rev_lookup by (rewrite py_zip4_length; lia).
    rewrite py_zip4_length.
    replace (_ - Datatypes.S (_ - Datatypes.S i)) with i by lia.
    apply py_zip4_lookup; assumption.
  - intros ->. rewrite Ha. apply map_const_replicate.
Qed.

Lemma Tree_bprop_reverse_order_witness :
  exists calls,
    Tree_bprop logging_bprop two_branch_tree [50; 51] []
    = bprop_each logging_bprop calls []
    /\ length calls
       = Nat.min (length (layers_of two_branch_tree))
           (Nat.min (length [50; 51]) (length (alphas_of two_branch_tree)))
    /\ (forall i b e a,
          layers_of two_branch_tree !! i = Some b -> [50; 51] !! i = Some e ->
          alphas_of two_branch_tree !! i = Some a ->
          exists beta,
            betas_of two_branch_tree !! i = Some beta
            /\ calls !! (length calls - Datatypes.S i) = Some (b, e, a, beta))
    /\ (@None (list Q) = None ->
        alphas_of two_branch_tree
        = replicate (length (layers_of two_branch_tree)) 1%Q).
Proof.
  apply (Tree_bprop_reverse_order logging_bprop true
           [ EList [NLayer (conv 1); NLayer (branch_node 2); NLayer (affine 3)];
             EList [NLayer (branch_node 2); NLayer (affine 4)] ] None 10 13).
  reflexivity.
Defined.

(** ** Delta pools of the branches *)

Section BranchPoolFacts.

Context {St : Type}.
Variable in_shape : layer -> MergeBroadcast.shape.
Variable layer_set_deltas :
  layer -> option (list buffer) -> St -> result (option (list buffer) * St).

Lemma assign_global_deltas_None (b : layer) (next : nat) :
  snd (assign_global_deltas in_shape b None next) = next + pool_size b
  /\ match fst (assign_global_deltas in_shape b None next) with
     | None => pool_size b = 0
     | Some bufs => map buf_addr bufs = seq next (pool_size b)
     end.
Proof.
  unfold assign_global_deltas, pool_size. cbn [falsy].
  destruct (tail (layers_of b)) as [|l ls]; simpl.
  - split; [lia|reflexivity].
  - destruct (iobufs _ _ next) as [bufs next'] eqn:E.
    pose proof (iobufs_spec
                  (if existsb needs_extra_delta (layers_of b) then 4 else 2)
                  (py_max (np_prod (in_shape l))
                     (map (fun l0 => np_prod (in_shape l0)) ls)) next)
      as (_ & Hn & _ & Ha).
    rewrite E in Hn, Ha. simpl in Hn, Ha. simpl. split; assumption.
Qed.

Lemma allocate_deltas_each_counter (ls : list layer) :
  forall next st next' st',
  allocate_deltas_each in_shape layer_set_deltas ls next st = Ok (next', st') ->
  next' = next + foldr Nat.add 0 (map pool_size ls).
Proof.
  induction ls as [|b ls IH]; intros next st next' st'; simpl.
  - intros [= <- _]. lia.
  - unfold allocate_deltas.
    destruct (assign_global_deltas in_shape b None next) as [pool n1] eqn:E.
    destruct (set_deltas_loop _ _ pool st) as [[pool' st1]|e]; [|discriminate].
    intros H. apply IH in H.
    pose proof (assign_global_deltas_None b next) as [Hn _].
    rewrite E in Hn. simpl in Hn. lia.
Qed.

End BranchPoolFacts.

Lemma foldr_add_rev (xs : list nat) :
  foldr Nat.add 0 (rev xs) = foldr Nat.add 0 xs.
Proof.
  induction xs as [|x xs IH]; [reflexivity|].
  simpl. rewrite foldr_app. simpl.
  rewrite <- IH. generalize (rev xs). intros l.
  induction l as [|y l IHl]; simpl; lia.
Qed.

(** X15.  [Tree.allocate_deltas] ignores the pool it is handed: every
    branch allocates a pool of its own, so the Tree takes as many new
    buffers as its branches' pools hold together (none for a branch of one
    layer, four for a branch with a MergeBroadcast or ResidualModule, two
    otherwise), and the pool of a branch is made of buffers no other
    allocation returned. *)
Theorem Tree_allocate_deltas_own_pools {St : Type}
  (in_shape : layer -> MergeBroadcast.shape)
  (layer_set_deltas :
     layer -> option (list buffer) -> St -> result (option (list buffer) * St))
  (self : layer) (global_deltas : option (list buffer))
  (next next' : nat) (st st' : St) :
  Tree_allocate_deltas in_shape layer_set_deltas self global_deltas next st
  = Ok (next', st') ->
  next' = next + foldr Nat.add 0 (map pool_size (layers_of self))
  /\ Tree_allocate_deltas in_shape layer_set_deltas self None next st
     = Ok (next', st')
  /\ forall b c,
       snd (assign_global_deltas in_shape b None c) = c + pool_size b
       /\ match fst (assign_global_deltas in_shape b None c) with
          | None => pool_size b = 0
          | Some bufs => map buf_addr bufs = seq c (pool_size b)
          end.
Proof.
  intros Hrun. split; [|split].
  - unfold Tree_allocate_deltas in Hrun.
    apply allocate_deltas_each_counter in Hrun.
    rewrite map_rev, foldr_add_rev in Hrun. exact Hrun.
  - exact Hrun.
  - intros b c. apply assign_global_deltas_None.
Qed.

Lemma Tree_allocate_deltas_own_pools_witness :
  104 = 100 + foldr Nat.add 0 (map pool_size (layers_of two_branch_tree))
  /\ Tree_allocate_deltas image_shape reversing_set_deltas two_branch_tree
       None 100 0
     = Ok (104, 5)
  /\ forall b c,
       snd (assign_global_deltas image_shape b None c) = c + pool_size b
       /\ match fst (assign_global_deltas image_shape b None c) with
          | None => pool_size b = 0
          | Some bufs => map buf_addr bufs = seq c (pool_size b)
          end.
Proof.
  apply (Tree_allocate_deltas_own_pools image_shape reversing_set_deltas
           two_branch_tree (Some four_buffers) 100 104 0 5).
  reflexivity.
Defined.

(** X16.  [MergeMultistream.set_deltas] neither checks nor uses nor
    reverses the pool it is handed: every branch allocates a pool of its
    own, and the new buffers are as many as the branches' pools hold
    together. *)
Theorem MergeMultistream_set_deltas_ignores_pool {St : Type}
  (in_shape : layer -> MergeBroadcast.shape)
  (layer_set_deltas :
     layer -> option (list buffer) -> St -> result (option (list buffer) * St))
  (self : layer) (delta_buffers pool : option (list buffer))
  (next next' : nat) (st st' : St) :
  MergeMultistream_set_deltas in_shape layer_set_deltas self delta_buffers
    next st
  = Ok (pool, next', st') ->
  pool = delta_buffers
  /\ next' = next + foldr Nat.add 0 (map pool_size (layers_of self))
  /\ forall other,
       MergeMultistream_set_deltas in_shape layer_set_deltas self other
         next st
       = Ok (other, next', st').
Proof.
  unfold MergeMultistream_set_deltas.
  destruct (allocate_deltas_each _ _ _ next st) as [[n1 st1]|e] eqn:E;
    [|discriminate].
  intros [= <- <- <-]. split; [reflexivity|]. split.
  - apply (allocate_deltas_each_counter _ _ _ _ _ _ _ E).
  - intros other. reflexivity.
Qed.

Lemma MergeMultistream_set_deltas_ignores_pool_witness :
  Some [MkBuffer 7 1] = Some [MkBuffer 7 1]
  /\ 104 = 100 + foldr Nat.add 0 (map pool_size (layers_of two_stream_merge))
  /\ forall other,
       MergeMultistream_set_deltas image_shape reversing_set_deltas
         two_stream_merge other 100 0
       = Ok (other, 104, 4).
Proof.
  apply (MergeMultistream_set_deltas_ignores_pool image_shape
           reversing_set_deltas two_stream_merge (Some [MkBuffer 7 1])
           (Some [MkBuffer 7 1]) 100 104 0 4).
  reflexivity.
Defined.

(** ** Backward propagation through the merges *)

Lemma set_last_spec {A : Type} (xs ys : list A) (v : A) :
  set_last xs v = Ok ys ->
  length ys = length xs
  /\ last ys = Some v
  /\ forall i, Datatypes.S i < length xs -> ys !! i = xs !! i.
Proof.
  unfold set_last. destruct xs as [|x xs]; [discriminate|].
  intros [= <-]. split; [apply length_insert|]. split.
  - rewrite last_lookup, length_insert. apply list_lookup_insert_eq.
    simpl. lia.
  - intros i Hi. apply list_lookup_insert_ne. simpl in *. lia.
Qed.

Lemma set_last_nonempty {A : Type} (xs : list A) (v : A) :
  xs <> [] -> exists ys, set_last xs v = Ok ys.
Proof.
  destruct xs as [|x xs]; [contradiction|]. intros _.
  eexists. reflexivity.
Qed.

Section MergeBpropFacts.

Import MergeBroadcast.

Context {S A : Type}.
Variable bsz : Z.
Variable layer_bprop : layer -> tensor2d A -> Q -> Q -> S -> result S.

Lemma get_partitions_length (x : tensor2d A) (slices : list slice) :
  length (get_partitions bsz x slices) = length slices.
Proof. unfold get_partitions. destruct (negb _); apply length_map. Qed.

End MergeBpropFacts.

(** X17.  [MergeBroadcast.bprop] on a module its constructor built calls
    the branches from the last to the first, each with its view of the
    error and, the branches' alphas being 1.0, with the caller's alpha.
    The last branch, which is called first, is given the caller's beta;
    every other branch is given 1.0 and so accumulates.  The caller's beta
    stays in [self.betas], the views are computed from the first error the
    module sees and kept: a later call partitions nothing anew.  The call
    returns [self.deltas]. *)
Theorem MergeBroadcast_bprop_last_branch_first {S A : Type}
  (bsz : Z)
  (layer_bprop : layer -> MergeBroadcast.tensor2d A -> Q -> Q -> S -> result S)
  (dflt : bool) (elems : list element) (merge : string) (n n' : oid)
  (self : layer) (slices : list MergeBroadcast.slice) (deltas : option nat)
  (error : MergeBroadcast.tensor2d A) (alpha beta : Q) (s : S) :
  MergeBroadcast_init dflt elems merge None n = Ok (self, n') ->
  length slices = length (layers_of self) ->
  exists calls betas',
    MergeBroadcast_bprop bsz layer_bprop self
      (MkMergeAttrs (betas_of self) None slices deltas) error alpha beta s
    = match bprop_each_scaled layer_bprop alpha calls s with
      | Raise ex => Raise ex
      | Ok s' =>
          Ok (deltas,
              MkMergeAttrs betas'
                (Some (MergeBroadcast.get_partitions bsz error slices))
                slices deltas,
              s')
      end
    /\ length calls = length (layers_of self)
    /\ (forall i b,
          layers_of self !! i = Some b ->
          exists view,
            MergeBroadcast.get_partitions bsz error slices !! i = Some view
            /\ calls !! (length calls - Datatypes.S i)
               = Some (b, view, 1%Q,
                       if bool_decide (Datatypes.S i = length (layers_of self))
                       then beta else 1%Q))
    /\ last betas' = Some beta
    /\ length betas' = length (layers_of self)
    /\ forall error2,
         cached_error_views bsz
           (MkMergeAttrs betas'
              (Some (MergeBroadcast.get_partitions bsz error slices))
              slices deltas) error2
         = MergeBroadcast.get_partitions bsz error slices.
Proof.
  intros Hinit Hslices.
  apply MergeBroadcast_init_ok in Hinit as (ls & betas & Hw & Hb & Hm & ->).
  cbn [layers_of betas_of alphas_of] in *.
  rewrite map_const_replicate in Hb.
  apply set_last_ones in Hb as (Hpos & Hlen & _ & Hones).
  destruct (set_last_nonempty betas beta) as [betas' Hset].
  { intros ->. simpl in Hlen. lia. }
  pose proof (set_last_spec _ _ _ Hset) as (Hlen' & Hlast' & Hsame).
  set (views := MergeBroadcast.get_partitions bsz error slices).
  assert (Hviews : length views = length ls).
  { unfold views. rewrite get_partitions_length. exact Hslices. }
  exists (rev (py_zip4 ls views (default_alphas None ls) betas')), betas'.
  assert (Hal : length (default_alphas None ls) = length ls)
    by (simpl; apply length_map).
  assert (Hcalls : length (rev (py_zip4 ls views (default_alphas None ls)
                                  betas')) = length ls).
  { rewrite length_rev, py_zip4_length. lia. }
  split; [|split; [exact Hcalls|split; [|split; [exact Hlast'|split]]]].
  - unfold MergeBroadcast_bprop. cbn [m_betas]. rewrite Hset.
    unfold cached_error_views. cbn [m_error_views m_slices m_deltas].
    fold views. cbn [layers_of alphas_of].
    destruct (bprop_each_scaled _ _ _ s); reflexivity.
  - intros i b Hb.
    pose proof (lookup_lt_Some _ _ _ Hb) as Hi.
    destruct (views !! i) as [view|] eqn:Hv;
      [|apply lookup_ge_None in Hv; lia].
    exists view. split; [reflexivity|].
    rewrite Hcalls.
    rewrite rev_lookup by (rewrite py_zip4_length; lia).
    rewrite py_zip4_length.
    replace (_ - Datatypes.S (_ - Datatypes.S i)) with i by lia.
    apply py_zip4_lookup; try assumption.
    + simpl. rewrite map_const_replicate. apply lookup_replicate_2. exact Hi.
    + destruct (decide (Datatypes.S i = length ls)) as [Heq|Hne].
      * rewrite bool_decide_eq_true_2 by exact Heq.
        rewrite last_lookup in Hlast'. rewrite <- Hlast'. f_equal. lia.
      * rewrite bool_decide_eq_false_2 by exact Hne.
        rewrite Hsame by lia. apply Hones. lia.
  - lia.
  - intros error2. reflexivity.
Qed.

Lemma MergeBroadcast_bprop_last_branch_first_witness :
  exists calls betas',
    MergeBroadcast_bprop 2 logging_view_bprop two_branch_merge
      (MkMergeAttrs (betas_of two_branch_merge) None [(0, 2); (2, 6)]%Z
         (Some 100))
      six_rows (1 # 2) 1 []
    = match bprop_each_scaled logging_view_bprop (1 # 2) calls [] with
      | Raise ex => Raise ex
      | Ok s' =>
          Ok (Some 100,
              MkMergeAttrs betas'
                (Some (MergeBroadcast.get_partitions 2 six_rows
                         [(0, 2); (2, 6)]%Z))
                [(0, 2); (2, 6)]%Z (Some 100),
              s')
      end
    /\ length calls = length (layers_of two_branch_merge)
    /\ (forall i b,
          layers_of two_branch_merge !! i = Some b ->
          exists view,
            MergeBroadcast.get_partitions 2 six_rows [(0, 2); (2, 6)]%Z !! i
            = Some view
            /\ calls !! (length calls - Datatypes.S i)
               = Some (b, view, 1%Q,
                       if bool_decide
                            (Datatypes.S i
                             = length (layers_of two_branch_merge))
                       then 1%Q else 1%Q))
    /\ last betas' = Some 1%Q
    /\ length betas' = length (layers_of two_branch_merge)
    /\ forall error2,
         cached_error_views 2
           (MkMergeAttrs betas'
              (Some (MergeBroadcast.get_partitions 2 six_rows
                       [(0, 2); (2, 6)]%Z))
              [(0, 2); (2, 6)]%Z (Some 100)) error2
         = MergeBroadcast.get_partitions 2 six_rows [(0, 2); (2, 6)]%Z.
Proof.
  apply (MergeBroadcast_bprop_last_branch_first 2 logging_view_bprop true
           [ EList [NLayer (conv 1); NLayer (affine 2)];
             EList [NLayer (conv 3); NLayer (affine 4)] ] "depth" 10 13
           two_branch_merge [(0, 2); (2, 6)]%Z (Some 100) six_rows (1 # 2) 1
           []).
  - reflexivity.
  - reflexivity.
Defined.

(** X18.  [MergeMultistream.bprop] calls the branches from the first to
    the last, branch [i] with view [i] of the error, and every branch with
    the default weights alpha 1.0 and beta 0.0: the caller's alpha and beta
    and the module's own alphas and betas are not used.  It makes as many
    calls as the shorter of the branches and the views is long. *)
Theorem MergeMultistream_bprop_default_weights {S A : Type}
  (bsz : Z)
  (layer_bprop : layer -> MergeBroadcast.tensor2d A -> Q -> Q -> S -> result S)
  (dflt : bool) (elems : list element) (merge : string) (n n' : oid)
  (self : layer) (attrs : merge_attrs A)
  (error : MergeBroadcast.tensor2d A) (alpha beta : Q) (s : S) :
  MergeMultistream_init dflt elems merge n = Ok (self, n') ->
  exists pairs,
    MergeMultistream_bprop bsz layer_bprop self attrs error alpha beta s
    = match bprop_each_default layer_bprop pairs s with
      | Raise ex => Raise ex
      | Ok s' =>
          Ok (MkMergeAttrs (m_betas attrs)
                (Some (cached_error_views bsz attrs error))
                (m_slices attrs) (m_deltas attrs), s')
      end
    /\ length pairs
       = Nat.min (length (layers_of self))
           (length (cached_error_views bsz attrs error))
    /\ (forall i b view,
          layers_of self !! i = Some b ->
          cached_error_views bsz attrs error !! i = Some view ->
          pairs !! i = Some (b, view))
    /\ (forall s0,
          bprop_each_default layer_bprop pairs s0
          = bprop_each_scaled layer_bprop 1
              (map (fun p : layer * MergeBroadcast.tensor2d A =>
                      (p.1, p.2, 1%Q, 0%Q)) pairs) s0)
    /\ last (betas_of self) = Some 0%Q
    /\ (forall i, Datatypes.S i < length (layers_of self) ->
                  betas_of self !! i = Some 1%Q).
Proof.
  intros Hinit.
  exists (zip (layers_of self) (cached_error_views bsz attrs error)).
  split; [|split; [apply length_zip_with|split; [|split]]].
  - unfold MergeMultistream_bprop.
    destruct (bprop_each_default _ _ s); reflexivity.
  - intros i b view Hb Hv. apply lookup_zip_with_Some.
    exists b, view. auto.
  - generalize (zip (layers_of self) (cached_error_views bsz attrs error)).
    intros pairs.
    induction pairs as [|[l e] pairs IH]; intros s0; simpl; [reflexivity|].
    rewrite Qmult_1_l_eq.
    destruct (layer_bprop l e 1%Q 0%Q s0); [apply IH|reflexivity].
  - unfold MergeMultistream_init in Hinit.
    apply MergeBroadcast_init_ok in Hinit as (ls & betas & Hw & Hb & Hm & ->).
    cbn [layers_of betas_of].
    rewrite map_const_replicate in Hb.
    apply set_last_ones in Hb as (Hpos & Hlen & Hlast & Hones).
    split; [exact Hlast|exact Hones].
Qed.

Lemma MergeMultistream_bprop_default_weights_witness :
  exists pairs,
    MergeMultistream_bprop 2 logging_view_bprop two_stream_merge
      (MkMergeAttrs (betas_of two_stream_merge) None [(0, 2); (2, 6)]%Z None)
      six_rows (1 # 2) 1 []
    = match bprop_each_default logging_view_bprop pairs [] with
      | Raise ex => Raise ex
      | Ok s' =>
          Ok (MkMergeAttrs (betas_of two_stream_merge)
                (Some (MergeBroadcast.get_partitions 2 six_rows
                         [(0, 2); (2, 6)]%Z))
                [(0, 2); (2, 6)]%Z None, s')
      end
    /\ length pairs
       = Nat.min (length (layers_of two_stream_merge))
           (length (MergeBroadcast.get_partitions 2 six_rows
                      [(0, 2); (2, 6)]%Z))
    /\ (forall i b view,
          layers_of two_stream_merge !! i = Some b ->
          MergeBroadcast.get_partitions 2 six_rows [(0, 2); (2, 6)]%Z !! i
          = Some view ->
          pairs !! i = Some (b, view))
    /\ (forall s0,
          bprop_each_default logging_view_bprop pairs s0
          = bprop_each_scaled logging_view_bprop 1
              (map (fun p : layer * MergeBroadcast.tensor2d nat =>
                      (p.1, p.2, 1%Q, 0%Q)) pairs) s0)
    /\ last (betas_of two_stream_merge) = Some 0%Q
    /\ (forall i, Datatypes.S i < length (layers_of two_stream_merge) ->
                  betas_of two_stream_merge !! i = Some 1%Q).
Proof.
  apply (MergeMultistream_bprop_default_weights 2 logging_view_bprop true
           [ EList [NLayer (conv 1); NLayer (affine 2)];
             EList [NLayer (conv 3); NLayer (affine 4)] ] "stack" 10 13
           two_stream_merge
           (MkMergeAttrs (betas_of two_stream_merge) None [(0, 2); (2, 6)]%Z
              None)
           six_rows (1 # 2) 1 []).
  reflexivity.
Defined.

(** ** Propagation through a Sequential *)

Lemma Sequential_fprop_loop_app {S value : Type}
  (layer_fprop : layer -> value -> bool -> S -> result (value * S))
  (a b : list layer) (inference : bool) : forall x s,
  Sequential_fprop_loop layer_fprop (a ++ b) x inference s
  = match Sequential_fprop_loop layer_fprop a x inference s with
    | Raise e => Raise e
    | Ok (y, s') => Sequential_fprop_loop layer_fprop b y inference s'
    end.
Proof.
  induction a as [|l a IH]; intros x s; simpl; [reflexivity|].
  destruct (layer_fprop l x inference s) as [[y s']|e]; [apply IH|reflexivity].
Qed.

(** X19.  Forward propagation through a Sequential composes: running a
    chain built from two lists of layers is running a chain of the first
    list and handing its output, and the state it left, to a chain of the
    second.  BranchNodes take part like any other layer, and when a layer
    raises, no later layer is run. *)
Theorem Sequential_fprop_composes {S value : Type}
  (layer_fprop : layer -> value -> bool -> S -> result (value * S))
  (dflt : bool) (front back : nested) (n n1 n2 n' m1 m2 : oid)
  (whole a b : layer) (x : value) (inference : bool) (s : S) :
  Sequential_init dflt (NIter PyList [front; back]) n = Ok (whole, n') ->
  Sequential_init dflt front n1 = Ok (a, m1) ->
  Sequential_init dflt back n2 = Ok (b, m2) ->
  Sequential_fprop layer_fprop whole x inference s
  = match Sequential_fprop layer_fprop a x inference s with
    | Raise e => Raise e
    | Ok (y, s') => Sequential_fprop layer_fprop b y inference s'
    end.
Proof.
  intros Hw Ha Hb.
  apply Sequential_init_layers in Hw as [-> _].
  apply Sequential_init_layers in Ha as [-> _].
  apply Sequential_init_layers in Hb as [-> _].
  unfold Sequential_fprop. cbn [layers_of flatten flat_map].
  rewrite app_nil_r. apply Sequential_fprop_loop_app.
Qed.

Lemma Sequential_fprop_composes_witness :
  Sequential_fprop logging_fprop conv_act_chain (Some 0) false []
  = match Sequential_fprop logging_fprop
            (SequentialObj 20 true [conv 1; activation 2]
               [conv 1; activation 2]) (Some 0) false []
    with
    | Raise e => Raise e
    | Ok (y, s') =>
        Sequential_fprop logging_fprop
          (SequentialObj 30 true [conv 3; activation 4]
             [conv 3; activation 4]) y false s'
    end.
Proof.
  apply (Sequential_fprop_composes logging_fprop true
           (NIter PyList [NLayer (conv 1); NLayer (activation 2)])
           (NIter PyList [NLayer (conv 3); NLayer (activation 4)])
           10 20 30 11 21 31).
  - reflexivity.
  - reflexivity.
  - reflexivity.
Defined.

Section SequentialBpropFacts.

Variable layer_bprop :
  layer -> handle -> Q -> Q -> rstate -> result (handle * rstate).
Variable prev_layer : layer -> option layer.

Lemma Sequential_bprop_loop_defaults (rl : list layer) (first : layer)
  (alpha beta : Q) :
  Forall (fun l => py_is l first = false
                   /\ prev_is_BranchNode prev_layer l = false) rl ->
  forall error st,
  Sequential_bprop_loop layer_bprop prev_layer rl first error alpha beta st
  = Sequential_bprop_loop layer_bprop prev_layer rl first error 1 0 st.
Proof.
  induction 1 as [|l rl [Hl1 Hl2] _ IH]; intros error st; simpl;
    [reflexivity|].
  rewrite Hl1, Hl2. simpl.
  destruct (layer_bprop l error 1 0 st) as [[e' st']|ex];
    [apply IH|reflexivity].
Qed.

End SequentialBpropFacts.

(** X20.  In [Sequential.bprop] the caller's alpha and beta reach the
    first layer of the chain alone, when no other layer follows a
    BranchNode or is the first layer once more, whatever the classes of
    the layers: every other layer is propagated through with the default
    weights, from the last layer to the second, and the first layer is
    then given the error the second one returned and the caller's alpha
    and beta.  BranchNodes are passed over.  The call returns the gradient
    buffer of the first layer. *)
Theorem Sequential_bprop_weights_reach_first_layer
  (layer_bprop : layer -> handle -> Q -> Q -> rstate
                 -> result (handle * rstate))
  (prev_layer : layer -> option layer)
  (dflt : bool) (arg : nested) (n n' : oid) (self first : layer)
  (rest : list layer) (error : handle) (alpha beta : Q) (st : rstate) :
  Sequential_init dflt arg n = Ok (self, n') ->
  filter (fun x => type_of x <> TLeaf BranchNode) (flatten arg)
  = first :: rest ->
  Forall (fun l => py_is l first = false
                   /\ prev_is_BranchNode prev_layer l = false) rest ->
  Sequential_bprop layer_bprop prev_layer self error alpha beta st
  = match Sequential_bprop_loop layer_bprop prev_layer (rev rest) first error
            1 0 st
    with
    | Raise e => Raise e
    | Ok (error', st') =>
        match layer_bprop first error' alpha beta st' with
        | Raise e => Raise e
        | Ok (_, st'') => Ok (st_deltas st'' !! id_of first, st'')
        end
    end.
Proof.
  intros Hinit Hf Hrest.
  apply Sequential_init_layers in Hinit as [-> _].
  unfold Sequential_bprop. cbn [_layers_of]. rewrite Hf.
  cbn [rev]. rewrite Sequential_bprop_loop_app.
  rewrite Sequential_bprop_loop_defaults
    by (apply Forall_forall; intros l Hl;
        rewrite Forall_forall in Hrest; apply Hrest;
        apply list_elem_of_In, in_rev, list_elem_of_In in Hl; exact Hl).
  destruct (Sequential_bprop_loop _ _ (rev rest) first error 1 0 st)
    as [[error' st']|e]; [|reflexivity].
  cbn [Sequential_bprop_loop].
  assert (Hself : py_is first first = true)
    by (unfold py_is; apply Nat.eqb_refl).
  rewrite Hself, orb_true_r.
  destruct (layer_bprop first error' alpha beta st')
    as [[e2 st2]|e]; reflexivity.
Qed.

Lemma Sequential_bprop_weights_reach_first_layer_witness :
  Sequential_bprop (leaf_bprop doubling) no_prev residual_trunk 50 (1 # 2) 1
    wired_state
  = match Sequential_bprop_loop (leaf_bprop doubling) no_prev (rev [conv 2])
            (conv 1) 50 1 0 wired_state
    with
    | Raise e => Raise e
    | Ok (error', st') =>
        match leaf_bprop doubling (conv 1) error' (1 # 2) 1 st' with
        | Raise e => Raise e
        | Ok (_, st'') => Ok (st_deltas st'' !! id_of (conv 1), st'')
        end
    end.
Proof.
  apply (Sequential_bprop_weights_reach_first_layer (leaf_bprop doubling)
           no_prev true two_convs 11 12).
  - reflexivity.
  - reflexivity.
  - repeat constructor.
Defined.

(** ** Multicost: costs and errors *)

Section MulticostMoreFacts.

Import Multicost.

Context {cost : Type}.
Variable cost_get_cost :
  cost -> pyarg -> pyarg -> heap -> result (handle * heap).

Lemma broadcast_targets (cs : list cost) (t : handle) :
  map (fun _ : cost => Tensor t) cs
  = map Tensor (replicate (length cs) t).
Proof. induction cs; simpl; congruence. Qed.

Lemma costvals_of_length (cs : list cost) :
  forall ins lt h vs h',
  costvals_of cost_get_cost cs ins lt h = Ok (vs, h') ->
  length vs <= length cs.
Proof.
  induction cs as [|c cs IH]; intros [|i ins] [|t lt] h vs h'; simpl;
    try (intros [= <- _]; simpl; lia).
  destruct (cost_get_cost c (Tensor i) t h) as [[v h1]|e]; [|discriminate].
  destruct (costvals_of cost_get_cost cs ins lt h1) as [[vs1 h2]|e] eqn:E;
    [|discriminate].
  intros [= <- _]. simpl. apply IH in E. lia.
Qed.

Lemma zip_with_ones (h : heap) (k : nat) (vs : list handle) :
  length vs <= k ->
  zip_with (fun (w : Q) (c : handle) => t_scale w (h !!! c))
    (replicate k 1%Q) vs
  = map (fun c => h !!! c) vs.
Proof.
  revert k. induction vs as [|v vs IH]; intros [|k] Hk; simpl in *;
    try reflexivity; try lia.
  rewrite t_scale_1. f_equal. apply IH. lia.
Qed.

End MulticostMoreFacts.

(** X21.  For a list of inputs, [Multicost.get_cost] treats a single
    target tensor like the list or tuple that repeats it once for every
    cost.  An empty list of inputs, or an empty list or tuple of targets,
    raises TypeError, since no cost value is left to sum. *)
Theorem get_cost_broadcasts_target {cost : Type}
  (cost_get_cost :
     cost -> Multicost.pyarg -> Multicost.pyarg -> heap
     -> result (handle * heap))
  (self : @Multicost.multicost cost) (inputs : list handle) (t : handle)
  (k : iterable_kind) (targets : Multicost.pyarg) (h : heap) :
  Multicost.get_cost cost_get_cost self (Multicost.Seq PyList inputs)
    (Multicost.Tensor t) h
  = Multicost.get_cost cost_get_cost self (Multicost.Seq PyList inputs)
      (Multicost.Seq k (replicate (length (Multicost.costs self)) t)) h
  /\ Multicost.get_cost cost_get_cost self (Multicost.Seq PyList []) targets h
     = Raise TypeError
  /\ Multicost.get_cost cost_get_cost self (Multicost.Seq PyList inputs)
       (Multicost.Seq k []) h
     = Raise TypeError.
Proof.
  unfold Multicost.get_cost.
  cbn [Multicost.isinstance_list negb Multicost.is_tuple_or_list
       Multicost.items_of].
  split; [|split].
  - rewrite broadcast_targets. reflexivity.
  - destruct (Multicost.costs self); simpl;
      destruct (Multicost.weights self); reflexivity.
  - destruct (Multicost.costs self) as [|c cs]; destruct inputs; simpl;
      destruct (Multicost.weights self); reflexivity.
Qed.

(** X22.  For a list of inputs, [Multicost.get_cost] leaves in the buffer
    of the first cost, and returns, the sum from left to right of the cost
    values each scaled by its weight; a cost for which there is no weight
    is evaluated and left out of the sum.  A Multicost built without
    weights sums the plain cost values. *)
Theorem get_cost_sums_weighted_values {cost : Type}
  (cost_get_cost :
     cost -> Multicost.pyarg -> Multicost.pyarg -> heap
     -> result (handle * heap))
  (self : @Multicost.multicost cost) (inputs : list handle)
  (targets : Multicost.pyarg) (h h' : heap) (c0 : handle)
  (vs : list handle) :
  Multicost.costvals_of cost_get_cost (Multicost.costs self) inputs
    (if Multicost.is_tuple_or_list targets
     then map Multicost.Tensor (Multicost.items_of targets)
     else map (fun _ => targets) (Multicost.costs self)) h
  = Ok (c0 :: vs, h') ->
  (forall w0 ws,
     Multicost.weights self = w0 :: ws ->
     Multicost.get_cost cost_get_cost self (Multicost.Seq PyList inputs)
       targets h
     = Ok (c0,
           store c0
             (foldl t_add (t_scale w0 (h' !!! c0))
                (zip_with (fun w c => t_scale w (h' !!! c)) ws vs))
             h'))
  /\ (Multicost.init (Multicost.costs self) None = Ok self ->
      Multicost.get_cost cost_get_cost self (Multicost.Seq PyList inputs)
        targets h
      = Ok (c0,
            store c0 (foldl t_add (h' !!! c0) (map (fun c => h' !!! c) vs))
              h')).
Proof.
  intros Hvals. unfold Multicost.get_cost.
  cbn [Multicost.isinstance_list negb Multicost.items_of].
  rewrite Hvals. split.
  - intros w0 ws ->. reflexivity.
  - unfold Multicost.init.
    destruct (Multicost.costs self) as [|c cs] eqn:Ec; [discriminate|].
    intros [= Hself].
    assert (Hw : Multicost.weights self
                 = replicate (length (c :: cs)) 1%Q).
    { rewrite <- Hself at 1. cbn [Multicost.weights].
      apply (map_const_replicate 1%Q (c :: cs)). }
    rewrite Hw.
    rewrite zip_with_ones
      by (apply (costvals_of_length cost_get_cost) in Hvals; exact Hvals).
    reflexivity.
Qed.

Lemma get_cost_sums_weighted_values_witness :
  Multicost.get_cost Multicost.Cost_get_cost Multicost.two_costs
    (Multicost.Seq PyList [1; 2]) (Multicost.Tensor 3) Multicost.predictions
  = Ok (10,
        store 10
          (foldl t_add (t_scale 1 (costs_evaluated !!! 10))
             (zip_with (fun w c => t_scale w (costs_evaluated !!! c))
                [1 # 2]%Q [11]))
          costs_evaluated)
  /\ Multicost.get_cost Multicost.Cost_get_cost unweighted_costs
       (Multicost.Seq PyList [1; 2]) (Multicost.Tensor 3)
       Multicost.predictions
     = Ok (10,
           store 10
             (foldl t_add (costs_evaluated !!! 10)
                (map (fun c => costs_evaluated !!! c) [11]))
             costs_evaluated).
Proof.
  split.
  - exact (proj1 (get_cost_sums_weighted_values Multicost.Cost_get_cost
                    Multicost.two_costs [1; 2] (Multicost.Tensor 3)
                    Multicost.predictions costs_evaluated 10 [11] eq_refl)
             1%Q [1 # 2]%Q eq_refl).
  - exact (proj2 (get_cost_sums_weighted_values Multicost.Cost_get_cost
                    unweighted_costs [1; 2] (Multicost.Tensor 3)
                    Multicost.predictions costs_evaluated 10 [11] eq_refl)
             eq_refl).
Defined.

(** X23.  [Multicost.get_errors] returns the gradient buffers of all the
    costs, in cost order, however many inputs it was given, and after the
    first call the very list it returned then.  It treats a single target
    tensor like the list or tuple that repeats it once for every cost.
    The weights of the costs are not applied.  With no inputs no cost is
    evaluated and the buffers are returned as they are, where [get_cost]
    raises TypeError. *)
Theorem Multicost_get_errors_buffers {cost : Type}
  (cost_get_errors :
     cost -> handle -> Multicost.pyarg -> heap -> result heap)
  (cost_deltas : cost -> handle)
  (self : @Multicost.multicost cost) (errors : option (list handle))
  (inputs : list handle) (targets : Multicost.pyarg) (h : heap) :
  (forall errs h',
     Multicost_get_errors cost_get_errors cost_deltas self None inputs
       targets h = Ok (errs, h') ->
     errs = map cost_deltas (Multicost.costs self))
  /\ (forall es errs h',
        Multicost_get_errors cost_get_errors cost_deltas self (Some es)
          inputs targets h = Ok (errs, h') ->
        errs = es)
  /\ (forall t k,
        Multicost_get_errors cost_get_errors cost_deltas self errors inputs
          (Multicost.Tensor t) h
        = Multicost_get_errors cost_get_errors cost_deltas self errors inputs
            (Multicost.Seq k (replicate (length (Multicost.costs self)) t)) h)
  /\ (forall ws,
        Multicost_get_errors cost_get_errors cost_deltas
          (Multicost.MkMulticost (Multicost.costs self) ws) errors inputs
          targets h
        = Multicost_get_errors cost_get_errors cost_deltas self errors inputs
            targets h)
  /\ Multicost_get_errors cost_get_errors cost_deltas self None [] targets h
     = Ok (map cost_deltas (Multicost.costs self), h).
Proof.
  unfold Multicost_get_errors. split; [|split; [|split; [|split]]].
  - intros errs h'.
    destruct (get_errors_each _ _ _ _ h); [|discriminate].
    intros [= <- _]. reflexivity.
  - intros es errs h'.
    destruct (get_errors_each _ _ _ _ h); [|discriminate].
    intros [= <- _]. reflexivity.
  - intros t k.
    cbn [Multicost.is_tuple_or_list Multicost.items_of].
    rewrite broadcast_targets. reflexivity.
  - intros ws. reflexivity.
  - destruct (Multicost.costs self); reflexivity.
Qed.

(** ** Delta buffers of leaf layers *)

Lemma even_succ_negb (i : nat) : Nat.even (Datatypes.S i) = negb (Nat.even i).
Proof. rewrite Nat.even_succ, <- Nat.negb_even. reflexivity. Qed.

Lemma set_deltas_loop_alternates (ls : list layer) : forall x y st,
  NoDup (map id_of ls) ->
  exists st',
    set_deltas_loop leaf_set_deltas ls (Some [x; y]) st
    = Ok (Some (if Nat.even (length ls) then [x; y] else [y; x]), st')
    /\ st_heap st' = st_heap st
    /\ (forall o, o ∉ map id_of ls -> st_deltas st' !! o = st_deltas st !! o)
    /\ (forall i l, ls !! i = Some l ->
          st_deltas st' !! id_of l
          = Some (buf_addr (if Nat.even i then x else y))).
Proof.
  induction ls as [|l rest IH]; intros x y st Hnd.
  - exists st. repeat split. intros i l Hl. discriminate Hl.
  - apply NoDup_cons in Hnd as [Hl Hnd].
    destruct (IH y x (bind_deltas (id_of l) (buf_addr x) st) Hnd)
      as (st' & Hrun & Hheap & Hframe & Hat).
    exists st'. split; [|split; [exact Hheap|split]].
    + cbn [set_deltas_loop leaf_set_deltas rev app length].
      rewrite Hrun. rewrite even_succ_negb.
      destruct (Nat.even (length rest)); reflexivity.
    + intros o Ho. rewrite Hframe.
      * simpl. apply lookup_insert_ne. intros <-. apply Ho. left.
      * intros Hin. apply Ho. right. exact Hin.
    + intros [|i] l' Hl'.
      * injection Hl' as <-. rewrite Hframe by exact Hl.
        simpl. apply lookup_insert_eq.
      * rewrite (Hat i l' Hl'). rewrite even_succ_negb.
        destruct (Nat.even i); reflexivity.
Qed.

Lemma leaves_need_no_extra_delta (ls : list layer) :
  Forall (fun l => is_container l = false) ls ->
  existsb needs_extra_delta ls = false.
Proof.
  induction 1 as [|l ls Hl _ IH]; [reflexivity|].
  simpl. rewrite IH, orb_false_r. unfold needs_extra_delta.
  apply bool_decide_eq_false. unfold is_container in Hl.
  destruct (type_of l); try discriminate Hl. intros [H|H]; discriminate H.
Qed.

(** X24.  A Sequential of at least two leaf layers, none of them a
    BranchNode, that is given no pool allocates two buffers, and its
    layers take them in turn: the layers at even positions use the first
    buffer and those at odd positions the second, so that no two
    neighbours share a gradient buffer. *)
Theorem Sequential_allocate_deltas_alternates
  (in_shape : layer -> MergeBroadcast.shape)
  (dflt : bool) (arg : nested) (n n' : oid) (self : layer)
  (next : nat) (st : rstate) :
  Sequential_init dflt arg n = Ok (self, n') ->
  Forall (fun l => is_container l = false /\ type_of l <> TLeaf BranchNode)
    (flatten arg) ->
  NoDup (map id_of (flatten arg)) ->
  2 <= length (flatten arg) ->
  exists pool st',
    allocate_deltas in_shape leaf_set_deltas self None next st
    = Ok (pool, next + 2, st')
    /\ st_heap st' = st_heap st
    /\ (forall i l, layers_of self !! i = Some l ->
          st_deltas st' !! id_of l
          = Some (next + (if Nat.even i then 0 else 1)))
    /\ (forall i l l',
          layers_of self !! i = Some l ->
          layers_of self !! Datatypes.S i = Some l' ->
          st_deltas st' !! id_of l <> st_deltas st' !! id_of l').
Proof.
  intros Hinit Hleaf Hnd Hlen.
  apply Sequential_init_layers in Hinit as [-> _].
  unfold allocate_deltas, assign_global_deltas.
  cbn [layers_of falsy].
  rewrite leaves_need_no_extra_delta
    by (eapply Forall_impl; [exact Hleaf|]; simpl; tauto).
  destruct (flatten arg) as [|l1 [|l2 rest]] eqn:Ef; try (simpl in Hlen; lia).
  cbn [tail map iobufs iobuf].
  set (m := py_max _ _).
  destruct (set_deltas_loop_alternates (l1 :: l2 :: rest)
              (MkBuffer next m) (MkBuffer (Datatypes.S next) m) st Hnd)
    as (st' & Hrun & Hheap & _ & Hat).
  rewrite Hrun.
  assert (Hat' : forall i l, (l1 :: l2 :: rest) !! i = Some l ->
            st_deltas st' !! id_of l
            = Some (next + (if Nat.even i then 0 else 1))).
  { intros i l Hl. rewrite (Hat i l Hl).
    destruct (Nat.even i); simpl; f_equal; lia. }
  eexists _, st'. split; [|split; [exact Hheap|split; [exact Hat'|]]].
  - f_equal. f_equal. f_equal. lia.
  - intros i l l' Hl Hl'.
    rewrite (Hat' i l Hl), (Hat' (Datatypes.S i) l' Hl').
    rewrite even_succ_negb. destruct (Nat.even i); simpl; intros [= H]; lia.
Qed.

Lemma Sequential_allocate_deltas_alternates_witness :
  exists pool st',
    allocate_deltas image_shape leaf_set_deltas conv_act_chain None 100
      error_state
    = Ok (pool, 100 + 2, st')
    /\ st_heap st' = st_heap error_state
    /\ (forall i l, layers_of conv_act_chain !! i = Some l ->
          st_deltas st' !! id_of l
          = Some (100 + (if Nat.even i then 0 else 1)))
    /\ (forall i l l',
          layers_of conv_act_chain !! i = Some l ->
          layers_of conv_act_chain !! Datatypes.S i = Some l' ->
          st_deltas st' !! id_of l <> st_deltas st' !! id_of l').
Proof.
  apply (Sequential_allocate_deltas_alternates image_shape true
           (NIter PyList [NLayer (conv 1); NLayer (activation 2);
                          NLayer (conv 3); NLayer (activation 4)]) 10 11).
  - reflexivity.
  - repeat constructor; discriminate.
  - apply NoDup_ListNoDup. repeat constructor; simpl; intuition lia.
  - simpl. lia.
Defined.

(** ** Delta buffers of a MergeBroadcast *)

Section MergeSetDeltasFacts.

Variable prev_layer : layer -> option layer.
Variable in_shape : layer -> MergeBroadcast.shape.

Lemma branch_set_deltas_step (branch root : layer) (rest : list layer)
  (b0 b1 b2 : buffer) (next : nat) (st : rstate) :
  layers_of branch = root :: rest ->
  NoDup (map id_of (root :: rest)) ->
  exists pool st1 st2,
    allocate_deltas in_shape leaf_set_deltas branch (Some [b1; b2]) next st
    = Ok (pool, next, st1)
    /\ leaf_set_deltas root (Some [b0]) st1 = Ok (Some [b0], st2)
    /\ st_heap st2 = st_heap st
    /\ (forall o, o ∉ map id_of (root :: rest) ->
          st_deltas st2 !! o = st_deltas st !! o)
    /\ (forall i l, (root :: rest) !! i = Some l ->
          st_deltas st2 !! id_of l
          = Some (buf_addr (branch_buffer b0 b1 b2 i))).
Proof.
  intros Hls Hnd.
  destruct (set_deltas_loop_alternates (root :: rest) b1 b2 st Hnd)
    as (st1 & Hrun & Hheap & Hframe & Hat).
  unfold allocate_deltas, assign_global_deltas. cbn [falsy].
  rewrite Hls, Hrun.
  eexists _, st1, _. split; [reflexivity|]. split; [reflexivity|].
  split; [exact Hheap|]. split.
  - intros o Ho. simpl. rewrite lookup_insert_ne.
    + apply Hframe. exact Ho.
    + intros <-. apply Ho. left.
  - intros [|i] l Hl.
    + injection Hl as <-. simpl. apply lookup_insert_eq.
    + simpl. rewrite lookup_insert_ne.
      * rewrite (Hat (Datatypes.S i) l Hl). reflexivity.
      * intros Heq. apply NoDup_cons in Hnd as [Hroot _].
        apply Hroot. rewrite Heq.
        apply list_elem_of_fmap_2. simpl in Hl.
        apply (list_elem_of_lookup_2 _ _ _ Hl).
Qed.

Lemma branches_set_deltas_spec (b0 b1 b2 b3 : buffer) (next : nat)
  (branches : list layer) : forall st,
  Forall (fun b => layers_of b <> []) branches ->
  NoDup (map id_of (flat_map layers_of branches)) ->
  exists st',
    branches_set_deltas in_shape leaf_set_deltas branches [b0; b1; b2; b3] next st
    = Ok (next, st')
    /\ st_heap st' = st_heap st
    /\ (forall o, o ∉ map id_of (flat_map layers_of branches) ->
          st_deltas st' !! o = st_deltas st !! o)
    /\ (forall branch i l,
          branch ∈ branches -> layers_of branch !! i = Some l ->
          st_deltas st' !! id_of l
          = Some (buf_addr (branch_buffer b0 b1 b2 i))).
Proof.
  induction branches as [|b branches IH]; intros st Hne Hnd.
  - exists st. repeat split. intros branch i l Hb.
    apply elem_of_nil in Hb. contradiction.
  - apply Forall_cons in Hne as [Hb Hne].
    cbn [flat_map] in Hnd. rewrite map_app in Hnd.
    apply NoDup_app in Hnd as (Hnd1 & Hdisj & Hnd2).
    destruct (layers_of b) as [|root rest] eqn:Hls; [contradiction|].
    destruct (branch_set_deltas_step b root rest b0 b1 b2 next st Hls Hnd1)
      as (pool & st1 & st2 & Hrun1 & Hrun2 & Hheap2 & Hframe2 & Hat2).
    destruct (IH st2 Hne Hnd2) as (st' & Hrun & Hheap & Hframe & Hat).
    exists st'. split; [|split; [congruence|split]].
    + cbn [branches_set_deltas take drop]. rewrite Hrun1, Hls, Hrun2.
      exact Hrun.
    + intros o Ho. cbn [flat_map] in Ho. rewrite map_app, Hls in Ho.
      rewrite Hframe, Hframe2; [reflexivity| |];
        intros Hin; apply Ho; apply elem_of_app; [left|right]; exact Hin.
    + intros branch i l Hbr Hl.
      apply elem_of_cons in Hbr as [->|Hbr].
      * rewrite Hls in Hl. rewrite Hframe; [apply Hat2; exact Hl|].
        apply Hdisj. apply list_elem_of_fmap_2.
        apply (list_elem_of_lookup_2 _ _ _ Hl).
      * apply (Hat branch i l Hbr Hl).
Qed.

End MergeSetDeltasFacts.

(** X25.  [MergeBroadcast.set_deltas], given a pool of four buffers and
    branches of distinct leaf layers, makes the first layer of every branch
    write its gradient into the first buffer of the pool; the other layers
    of a branch take the second and third buffer in turn, and the fourth is
    left alone.  Unless the module follows a BranchNode, its own [deltas]
    is a view of that first buffer too, so that all branches hand their
    gradient back through one buffer, and the pool is reversed.  When it
    follows a BranchNode it shares the gradient buffer of the BranchNode
    and leaves the pool in order.  A pool of another size raises
    AssertionError. *)
Theorem MergeBroadcast_set_deltas_shared_buffer
  (prev_layer : layer -> option layer)
  (in_shape : layer -> MergeBroadcast.shape)
  (dflt : bool) (elems : list element) (merge : string)
  (alphas : option (list Q)) (n n' : oid) (self : layer)
  (b0 b1 b2 b3 : buffer) (next : nat) (st : rstate) :
  MergeBroadcast_init dflt elems merge alphas n = Ok (self, n') ->
  Forall (fun b => layers_of b <> []) (layers_of self) ->
  Forall (fun l => is_container l = false /\ type_of l <> TLeaf BranchNode)
    (flat_map layers_of (layers_of self)) ->
  NoDup (id_of self :: map id_of (flat_map layers_of (layers_of self))) ->
  (prev_is_BranchNode prev_layer self = false ->
   exists st',
     MergeBroadcast_set_deltas prev_layer in_shape leaf_set_deltas self
       (Some [b0; b1; b2; b3]) next st
     = Ok (Some [b3; b2; b1; b0], next, st')
     /\ st_heap st' = st_heap st
     /\ st_deltas st' !! id_of self = Some (buf_addr b0)
     /\ forall branch i l,
          branch ∈ layers_of self -> layers_of branch !! i = Some l ->
          st_deltas st' !! id_of l
          = Some (buf_addr (branch_buffer b0 b1 b2 i)))
  /\ (forall p d,
        prev_is_BranchNode prev_layer self = true ->
        prev_layer self = Some p ->
        st_deltas st !! id_of p = Some d ->
        id_of p ∉ map id_of (flat_map layers_of (layers_of self)) ->
        exists st',
          MergeBroadcast_set_deltas prev_layer in_shape leaf_set_deltas self
            (Some [b0; b1; b2; b3]) next st
          = Ok (Some [b0; b1; b2; b3], next, st')
          /\ st_heap st' = st_heap st
          /\ st_deltas st' !! id_of self = Some d
          /\ forall branch i l,
               branch ∈ layers_of self -> layers_of branch !! i = Some l ->
               st_deltas st' !! id_of l
               = Some (buf_addr (branch_buffer b0 b1 b2 i)))
  /\ (forall bufs,
        length bufs <> 4 ->
        MergeBroadcast_set_deltas prev_layer in_shape leaf_set_deltas self (Some bufs)
          next st
        = Raise AssertionError).
Proof.
  intros _ Hne _ Hnd.
  apply NoDup_cons in Hnd as [Hself Hnd].
  destruct (branches_set_deltas_spec in_shape b0 b1 b2 b3 next
              (layers_of self) st Hne Hnd)
    as (st1 & Hrun & Hheap & Hframe & Hat).
  assert (Hat' : forall d branch i l,
            branch ∈ layers_of self -> layers_of branch !! i = Some l ->
            st_deltas (bind_deltas (id_of self) d st1) !! id_of l
            = Some (buf_addr (branch_buffer b0 b1 b2 i))).
  { intros d branch i l Hb Hl. simpl. rewrite lookup_insert_ne.
    - apply (Hat branch i l Hb Hl).
    - intros Heq. apply Hself. rewrite Heq.
      apply list_elem_of_fmap_2, list_elem_of_In, in_flat_map.
      exists branch. split; apply list_elem_of_In; [exact Hb|].
      apply (list_elem_of_lookup_2 _ _ _ Hl). }
  split; [|split].
  - intros Hprev. unfold MergeBroadcast_set_deltas.
    cbn [length Nat.eqb negb]. rewrite Hrun, Hprev.
    eexists. split; [reflexivity|]. split; [exact Hheap|].
    split; [simpl; apply lookup_insert_eq|apply Hat'].
  - intros p d Hprev Hp Hd Hfresh. unfold MergeBroadcast_set_deltas.
    cbn [length Nat.eqb negb]. rewrite Hrun, Hprev, Hp.
    rewrite Hframe by exact Hfresh. rewrite Hd.
    eexists. split; [reflexivity|]. split; [exact Hheap|].
    split; [simpl; apply lookup_insert_eq|apply Hat'].
  - intros bufs Hlen. unfold MergeBroadcast_set_deltas.
    destruct (Nat.eqb_spec (length bufs) 4); [contradiction|reflexivity].
Qed.

Lemma MergeBroadcast_set_deltas_shared_buffer_witness :
  (exists st',
     MergeBroadcast_set_deltas no_prev image_shape leaf_set_deltas two_branch_merge
       (Some [MkBuffer 100 8; MkBuffer 101 8; MkBuffer 102 8; MkBuffer 103 8])
       0 error_state
     = Ok (Some [MkBuffer 103 8; MkBuffer 102 8; MkBuffer 101 8;
                 MkBuffer 100 8], 0, st')
     /\ st_heap st' = st_heap error_state
     /\ st_deltas st' !! id_of two_branch_merge = Some 100
     /\ forall branch i l,
          branch ∈ layers_of two_branch_merge ->
          layers_of branch !! i = Some l ->
          st_deltas st' !! id_of l
          = Some (buf_addr (branch_buffer (MkBuffer 100 8) (MkBuffer 101 8)
                              (MkBuffer 102 8) i)))
  /\ (exists st',
        MergeBroadcast_set_deltas after_branch_node image_shape leaf_set_deltas
          two_branch_merge
          (Some [MkBuffer 100 8; MkBuffer 101 8; MkBuffer 102 8;
                 MkBuffer 103 8])
          0 branch_node_wired
        = Ok (Some [MkBuffer 100 8; MkBuffer 101 8; MkBuffer 102 8;
                    MkBuffer 103 8], 0, st')
        /\ st_heap st' = st_heap branch_node_wired
        /\ st_deltas st' !! id_of two_branch_merge = Some 77
        /\ forall branch i l,
             branch ∈ layers_of two_branch_merge ->
             layers_of branch !! i = Some l ->
             st_deltas st' !! id_of l
             = Some (buf_addr (branch_buffer (MkBuffer 100 8)
                                 (MkBuffer 101 8) (MkBuffer 102 8) i)))
  /\ MergeBroadcast_set_deltas no_prev image_shape leaf_set_deltas two_branch_merge
       (Some [MkBuffer 100 8; MkBuffer 101 8]) 0 error_state
     = Raise AssertionError.
Proof.
  assert (Hne : Forall (fun b => layers_of b <> [])
                  (layers_of two_branch_merge))
    by (repeat constructor; discriminate).
  assert (Hleaf : Forall (fun l => is_container l = false
                                   /\ type_of l <> TLeaf BranchNode)
                    (flat_map layers_of (layers_of two_branch_merge)))
    by (repeat constructor; discriminate).
  assert (Hnd : NoDup (id_of two_branch_merge
                       :: map id_of (flat_map layers_of
                                       (layers_of two_branch_merge))))
    by (apply NoDup_ListNoDup; repeat constructor; simpl; intuition lia).
  split; [|split].
  - apply (proj1 (MergeBroadcast_set_deltas_shared_buffer no_prev image_shape
                    true
                    [ EList [NLayer (conv 1); NLayer (affine 2)];
                      EList [NLayer (conv 3); NLayer (affine 4)] ]
                    "depth" None 10 13 two_branch_merge
                    (MkBuffer 100 8) (MkBuffer 101 8) (MkBuffer 102 8)
                    (MkBuffer 103 8) 0 error_state eq_refl Hne Hleaf Hnd)).
    reflexivity.
  - apply (proj1 (proj2 (MergeBroadcast_set_deltas_shared_buffer
                           after_branch_node image_shape true
                           [ EList [NLayer (conv 1); NLayer (affine 2)];
                             EList [NLayer (conv 3); NLayer (affine 4)] ]
                           "depth" None 10 13 two_branch_merge
                           (MkBuffer 100 8) (MkBuffer 101 8) (MkBuffer 102 8)
                           (MkBuffer 103 8) 0 branch_node_wired eq_refl Hne
                           Hleaf Hnd))
             (branch_node 20) 77).
    + reflexivity.
    + reflexivity.
    + reflexivity.
    + simpl. intros Hin.
      repeat (apply elem_of_cons in Hin as [Hin|Hin]; [discriminate Hin|]).
      apply elem_of_nil in Hin. exact Hin.
  - apply (proj2 (proj2 (MergeBroadcast_set_deltas_shared_buffer no_prev
                           image_shape true
                           [ EList [NLayer (conv 1); NLayer (affine 2)];
                             EList [NLayer (conv 3); NLayer (affine 4)] ]
                           "depth" None 10 13 two_branch_merge
                           (MkBuffer 100 8) (MkBuffer 101 8) (MkBuffer 102 8)
                           (MkBuffer 103 8) 0 error_state eq_refl Hne Hleaf
                           Hnd))).
    simpl. lia.
Defined.

(** ** ResidualModule with a projection: backward propagation *)

Lemma ResidualModule_init_with_projection dflt arg name n self n' :
  ResidualModule_init dflt arg (Some name) n = Ok (self, n') ->
  exists K s tl,
    self = ResidualModuleObj n
             (SequentialObj (Datatypes.S n) dflt (flatten arg)
                (filter (fun x => type_of x <> TLeaf BranchNode)
                   (flatten arg)) :: tl)
             (Some (Leaf (MkLeaf (Datatypes.S (Datatypes.S n)) Convolution
                            true K s))).
Proof.
  unfold ResidualModule_init, ctor_bind, new_object, ctor_ret, ctor_raise,
    Convolution_init.
  destruct (Sequential_init dflt _ (Datatypes.S n)) as [[trunk m]|e] eqn:E;
    [|discriminate].
  apply Sequential_init_layers in E as [-> ->].
  rewrite !flatten_NIter_flat.
  destruct (from_end _ 1) as [c1|]; [|discriminate].
  destruct (from_end _ 2) as [c2|]; [|discriminate].
  cbv [ctor_bind new_object ctor_ret].
  destruct (bool_decide (name <> "Identity"%string)); intros [= <- <-];
    eexists _, _, _; reflexivity.
Qed.

(** X26.  Take a ResidualModule constructed with a projection whose trunk
    is made of distinct leaf layers, none a BranchNode, and wire it with
    [set_deltas] to a pool of four buffers: the skip layer, the first layer
    of the trunk and the module itself then share the first buffer.
    [bprop(error)] makes the skip layer overwrite that buffer with [alpha]
    times its gradient of the error, runs the trunk on the same error with
    beta 1, and returns the buffer, which then holds [alpha] times the
    gradient the trunk's first layer computes, from the error the layers
    behind it handed back, plus [alpha] times the gradient of the skip
    layer.  When no layer of the trunk follows a BranchNode and the error
    is not held in the shared buffer, the first layer's gradient is that of
    the error taken back through the whole trunk. *)
Theorem residual_bprop_with_projection
  (backward : layer -> tensor -> tensor)
  (layer_bprop : layer -> handle -> Q -> Q -> rstate
                 -> result (handle * rstate))
  (layer_set_deltas : layer -> option (list buffer) -> rstate
                      -> result (option (list buffer) * rstate))
  (prev_layer : layer -> option layer)
  (in_shape : layer -> MergeBroadcast.shape)
  (dflt : bool) (arg : nested) (name : string) (n n' : oid) (self : layer)
  (b0 b1 b2 b3 : buffer) (next : nat) (st0 : rstate)
  (error : handle) (alpha beta : Q) :
  (forall l pool st, is_container l = false ->
     layer_set_deltas l pool st = leaf_set_deltas l pool st) ->
  (forall l e a b st, is_container l = false ->
     layer_bprop l e a b st = leaf_bprop backward l e a b st) ->
  ResidualModule_init dflt arg (Some name) n = Ok (self, n') ->
  Forall (fun l => is_container l = false) (flatten arg) ->
  Forall (fun l => type_of l <> TLeaf BranchNode) (flatten arg) ->
  NoDup (n :: Datatypes.S (Datatypes.S n) :: map id_of (flatten arg)) ->
  NoDup [buf_addr b0; buf_addr b1; buf_addr b2] ->
  exists root rest skip pool st1,
    flatten arg = root :: rest
    /\ skip_layer_of self = Some skip
    /\ type_of skip = TLeaf Convolution
    /\ ResidualModule_set_deltas in_shape layer_set_deltas self
         (Some [b0; b1; b2; b3]) next st0
       = Ok (pool, st1)
    /\ pool = Some [b3; b2; b1; b0]
    /\ st_deltas st1 !! id_of skip = Some (buf_addr b0)
    /\ st_deltas st1 !! id_of root = Some (buf_addr b0)
    /\ st_deltas st1 !! id_of self = Some (buf_addr b0)
    /\ forall st, st_deltas st = st_deltas st1 ->
       exists eh stm st',
         Sequential_bprop_loop layer_bprop prev_layer (rev rest) root error
           alpha 1
           (with_heap
              (store (buf_addr b0)
                 (t_scale alpha (backward skip (st_heap st !!! error)))
                 (st_heap st)) st)
         = Ok (eh, stm)
         /\ ResidualModule_bprop layer_bprop prev_layer self error alpha
              beta st
            = Ok (Some (buf_addr b0), st')
         /\ (st_heap st' !!! buf_addr b0 : tensor)
            = t_add (t_scale alpha (backward root (st_heap stm !!! eh)))
                (t_scale alpha (backward skip (st_heap st !!! error)))
         /\ (Forall (fun l => prev_is_BranchNode prev_layer l = false) rest ->
             error <> buf_addr b0 ->
             (st_heap stm !!! eh : tensor)
             = foldr backward (st_heap st !!! error) rest).
Proof.
  intros Hsd Hbp Hinit Hleaf Hnb Hids Hbufs.
  pose proof (ResidualModule_init_nonempty _ _ _ _ _ Hinit) as Hne.
  apply ResidualModule_init_with_projection in Hinit as (K & s & tl & ->).
  rewrite (filter_all _ _ Hnb).
  destruct (flatten arg) as [|root rest] eqn:Els; [congruence|]. clear Hne.
  set (skip := Leaf (MkLeaf (Datatypes.S (Datatypes.S n)) Convolution true
                       K s)).
  apply NoDup_cons in Hids as [Hn Hids].
  apply NoDup_cons in Hids as [Hsk Hids]. simpl in Hids.
  apply NoDup_cons in Hids as [Hroot Hrest].
  apply NoDup_cons in Hbufs as [Hb0 Hbufs].
  assert (Hb01 : buf_addr b1 <> buf_addr b0).
  { intros Heq. apply Hb0. rewrite Heq. left. }
  assert (Hb02 : buf_addr b2 <> buf_addr b0).
  { intros Heq. apply Hb0. rewrite Heq. right. left. }
  assert (Hnsk : n <> Datatypes.S (Datatypes.S n)) by lia.
  assert (Hnroot : id_of root <> n).
  { intros Heq. apply Hn. rewrite <- Heq. right. left. }
  assert (Hskroot : id_of root <> Datatypes.S (Datatypes.S n)).
  { intros Heq. apply Hsk. rewrite <- Heq. left. }
  pose proof Hleaf as Hleaf'.
  apply Forall_cons in Hleaf' as [Hlroot Hlrest].
  assert (Hlskip : is_container skip = false) by reflexivity.
  assert (Hsdl : Forall (fun l => forall pool st,
                           layer_set_deltas l pool st
                           = leaf_set_deltas l pool st) (root :: rest)).
  { apply Forall_forall. intros l Hl pool st. apply Hsd.
    rewrite Forall_forall in Hleaf. apply Hleaf, Hl. }
  assert (Hbpl : Forall (fun l => forall e a b st,
                           layer_bprop l e a b st
                           = leaf_bprop backward l e a b st) (rev rest)).
  { apply Forall_forall. intros l Hl e a b st. apply Hbp.
    rewrite Forall_forall in Hlrest. apply Hlrest.
    apply list_elem_of_In, in_rev, list_elem_of_In in Hl. exact Hl. }
  destruct (set_deltas_loop_leaf (root :: rest) b1 b2 st0)
    as (poolA & stA & HrunA & HheapA & HframeA & HinA).
  set (dl := <[n := buf_addr b0]>
               (<[Datatypes.S (Datatypes.S n) := buf_addr b0]>
                  (<[id_of root := buf_addr b0]> (st_deltas stA)))).
  assert (Hset : ResidualModule_set_deltas in_shape layer_set_deltas
                   (ResidualModuleObj n
                      (SequentialObj (Datatypes.S n) dflt (root :: rest)
                         (root :: rest) :: tl) (Some skip))
                   (Some [b0; b1; b2; b3]) next st0
                 = Ok (Some [b3; b2; b1; b0],
                       MkState (st_heap stA) dl (st_outputs stA)
                         (st_inputs stA))).
  { unfold ResidualModule_set_deltas. cbn [length Nat.eqb negb layers_of].
    unfold allocate_deltas, assign_global_deltas.
    cbn [drop take falsy layers_of].
    rewrite (set_deltas_loop_ext _ _ _ Hsdl), HrunA.
    rewrite (Hsd root _ _ Hlroot).
    cbn [leaf_set_deltas skip_layer_of].
    rewrite (Hsd skip _ _ Hlskip).
    cbn [leaf_set_deltas id_of]. reflexivity. }
  exists root, rest, skip. eexists. eexists.
  split; [reflexivity|]. split; [reflexivity|]. split; [reflexivity|].
  split; [exact Hset|].
  split; [reflexivity|].
  assert (Hdskip : dl !! Datatypes.S (Datatypes.S n) = Some (buf_addr b0)).
  { unfold dl. rewrite lookup_insert_ne by exact Hnsk.
    apply lookup_insert_eq. }
  assert (Hdroot : dl !! id_of root = Some (buf_addr b0)).
  { unfold dl. rewrite lookup_insert_ne by congruence.
    rewrite lookup_insert_ne by congruence. apply lookup_insert_eq. }
  assert (Hdself : dl !! n = Some (buf_addr b0)).
  { unfold dl. apply lookup_insert_eq. }
  split; [exact Hdskip|]. split; [exact Hdroot|]. split; [exact Hdself|].
  intros st Hst. cbn [st_deltas] in Hst.
  set (E := (st_heap st !!! error : tensor)).
  assert (Hint : forall l, l ∈ rest ->
            id_of l <> id_of root
            /\ exists d, st_deltas st !! id_of l = Some d
                         /\ d <> buf_addr b0).
  { intros l Hl.
    assert (Hlr : id_of l <> id_of root).
    { intros Heq. apply Hroot. rewrite <- Heq.
      apply list_elem_of_fmap. exists l. split; [reflexivity | exact Hl]. }
    assert (Hln : id_of l <> n).
    { intros Heq. apply Hn. rewrite <- Heq. right. right.
      apply list_elem_of_fmap. exists l. split; [reflexivity | exact Hl]. }
    assert (Hls : id_of l <> Datatypes.S (Datatypes.S n)).
    { intros Heq. apply Hsk. rewrite <- Heq. right.
      apply list_elem_of_fmap. exists l. split; [reflexivity | exact Hl]. }
    split; [exact Hlr|].
    rewrite Hst. unfold dl.
    rewrite lookup_insert_ne by congruence.
    rewrite lookup_insert_ne by congruence.
    rewrite lookup_insert_ne by congruence.
    destruct (HinA l ltac:(right; exact Hl)) as [H|H];
      [exists (buf_addr b1) | exists (buf_addr b2)];
      (split; [exact H | assumption]). }
  set (G := t_scale alpha (backward skip E)).
  set (stc := with_heap (store (buf_addr b0) G (st_heap st)) st).
  destruct (Sequential_bprop_loop_interior backward prev_layer (rev rest)
              root (buf_addr b0) alpha 1 error stc)
    as (eh & stm & Hrun & Hd1 & _ & Hk1).
  { intros l Hl. apply list_elem_of_In, in_rev, list_elem_of_In in Hl.
    exact (Hint l Hl). }
  assert (Hpy : py_is root root = true)
    by (unfold py_is; apply Nat.eqb_refl).
  exists eh, stm. eexists.
  split; [rewrite (Sequential_bprop_loop_ext _ _ _ _ _ Hbpl); exact Hrun|].
  split; [|split].
  - unfold ResidualModule_bprop. cbn [skip_layer_of layers_of].
    rewrite (Hbp skip _ _ _ _ Hlskip).
    unfold leaf_bprop at 1. cbn [id_of leaf_id skip].
    rewrite Hst, Hdskip.
    unfold axpby at 1. change (Qeq_bool 0 0) with true. cbv iota.
    fold skip. fold E. fold G. fold stc.
    unfold Sequential_bprop. cbn [_layers_of].
    change (rev (root :: rest)) with (rev rest ++ [root]).
    rewrite Sequential_bprop_loop_app.
    rewrite (Sequential_bprop_loop_ext _ _ _ _ _ Hbpl), Hrun.
    cbn [Sequential_bprop_loop].
    rewrite Hpy, orb_true_r. rewrite (Hbp root _ _ _ _ Hlroot).
    unfold leaf_bprop. rewrite Hd1.
    change (st_deltas stc) with (st_deltas st).
    rewrite Hst, Hdroot. cbn [with_heap st_deltas].
    rewrite Hd1. change (st_deltas stc) with (st_deltas st).
    rewrite Hst, Hdself. reflexivity.
  - cbn [st_heap with_heap]. unfold store. rewrite lookup_total_insert_eq.
    unfold axpby. change (Qeq_bool 1 0) with false. cbv iota.
    rewrite t_scale_1, Hk1. subst stc. cbn [st_heap with_heap]. unfold store.
    rewrite lookup_total_insert_eq. reflexivity.
  - intros Hprev Herr.
    assert (Hchain : Forall (fun l => py_is l root = false
                                      /\ prev_is_BranchNode prev_layer l
                                         = false) (rev rest)).
    { apply Forall_forall. intros l Hl.
      apply list_elem_of_In, in_rev, list_elem_of_In in Hl. split.
      - unfold py_is. apply Nat.eqb_neq. apply (Hint l Hl).
      - rewrite Forall_forall in Hprev. apply Hprev, Hl. }
    rewrite (Sequential_bprop_loop_chain backward prev_layer _ _ _ _ _ _ _
               _ Hchain Hrun).
    rewrite foldl_rev_backward. f_equal.
    subst stc. cbn [st_heap with_heap]. unfold store.
    apply lookup_total_insert_ne. congruence.
Qed.

Lemma residual_bprop_with_projection_witness :
  exists root rest skip pool st1,
    flatten two_convs = root :: rest
    /\ skip_layer_of projected_block = Some skip
    /\ type_of skip = TLeaf Convolution
    /\ ResidualModule_set_deltas image_shape leaf_set_deltas projected_block
         (Some [MkBuffer 100 8; MkBuffer 101 8; MkBuffer 102 8; MkBuffer 103 8])
         0 error_state
       = Ok (pool, st1)
    /\ pool = Some [MkBuffer 103 8; MkBuffer 102 8; MkBuffer 101 8;
                    MkBuffer 100 8]
    /\ st_deltas st1 !! id_of skip = Some 100
    /\ st_deltas st1 !! id_of root = Some 100
    /\ st_deltas st1 !! id_of projected_block = Some 100
    /\ forall st, st_deltas st = st_deltas st1 ->
       exists eh stm st',
         Sequential_bprop_loop (leaf_bprop doubling) no_prev (rev rest) root
           50 (1 # 2) 1
           (with_heap
              (store 100
                 (t_scale (1 # 2) (doubling skip (st_heap st !!! 50)))
                 (st_heap st)) st)
         = Ok (eh, stm)
         /\ ResidualModule_bprop (leaf_bprop doubling) no_prev
              projected_block 50 (1 # 2) 0 st
            = Ok (Some 100, st')
         /\ (st_heap st' !!! 100 : tensor)
            = t_add (t_scale (1 # 2) (doubling root (st_heap stm !!! eh)))
                (t_scale (1 # 2) (doubling skip (st_heap st !!! 50)))
         /\ (Forall (fun l => prev_is_BranchNode no_prev l = false) rest ->
             50 <> 100 ->
             (st_heap stm !!! eh : tensor)
             = foldr doubling (st_heap st !!! 50) rest).
Proof.
  apply (residual_bprop_with_projection doubling (leaf_bprop doubling)
           leaf_set_deltas no_prev image_shape true
           two_convs "Gaussian" 10 13 projected_block
           (MkBuffer 100 8) (MkBuffer 101 8) (MkBuffer 102 8) (MkBuffer 103 8)
           0 error_state 50 (1 # 2) 0).
  - reflexivity.
  - reflexivity.
  - reflexivity.
  - repeat constructor.
  - repeat constructor; discriminate.
  - apply (bool_decide_unpack _). vm_compute. exact I.
  - apply (bool_decide_unpack _). vm_compute. exact I.
Defined.

(** ** A ResidualModule or MergeBroadcast inside the trunk

    The module hands its trunk two of its four buffers, and [set_deltas]
    of a ResidualModule or of a MergeBroadcast asserts that it is given
    four. *)

Lemma set_deltas_loop_nested_raises
  (layer_set_deltas : layer -> option (list buffer) -> rstate
                      -> result (option (list buffer) * rstate))
  (before : list layer) (nested : layer) (after : list layer) :
  (forall l pool st, is_container l = false ->
     layer_set_deltas l pool st = leaf_set_deltas l pool st) ->
  (forall l pool st, needs_extra_delta l = true -> length pool <> 4 ->
     layer_set_deltas l (Some pool) st = Raise AssertionError) ->
  Forall (fun l => is_container l = false) before ->
  needs_extra_delta nested = true ->
  forall x y st,
  set_deltas_loop layer_set_deltas (before ++ nested :: after)
    (Some [x; y]) st
  = Raise AssertionError.
Proof.
  intros Hleaf Hassert Hbefore Hnested.
  induction Hbefore as [|l before Hl _ IH]; intros x y st; simpl.
  - rewrite (Hassert nested [x; y] st Hnested); [reflexivity|].
    simpl. lia.
  - rewrite (Hleaf l _ _ Hl). simpl. apply IH.
Qed.

(** Wiring a ResidualModule whose trunk holds a ResidualModule or a
    MergeBroadcast behind leaf layers raises AssertionError. *)
Lemma ResidualModule_set_deltas_nested_raises
  (in_shape : layer -> MergeBroadcast.shape)
  (layer_set_deltas : layer -> option (list buffer) -> rstate
                      -> result (option (list buffer) * rstate))
  (o t : oid) (own : bool) (before : list layer) (nested : layer)
  (after _ls tl : list layer) (sk : option layer)
  (b0 b1 b2 b3 : buffer) (next : nat) (st : rstate) :
  (forall l pool st, is_container l = false ->
     layer_set_deltas l pool st = leaf_set_deltas l pool st) ->
  (forall l pool st, needs_extra_delta l = true -> length pool <> 4 ->
     layer_set_deltas l (Some pool) st = Raise AssertionError) ->
  Forall (fun l => is_container l = false) before ->
  needs_extra_delta nested = true ->
  ResidualModule_set_deltas in_shape layer_set_deltas
    (ResidualModuleObj o
       (SequentialObj t own (before ++ nested :: after) _ls :: tl) sk)
    (Some [b0; b1; b2; b3]) next st
  = Raise AssertionError.
Proof.
  intros Hleaf Hassert Hbefore Hnested.
  unfold ResidualModule_set_deltas. cbn [length Nat.eqb negb layers_of].
  unfold allocate_deltas, assign_global_deltas.
  cbn [drop take falsy layers_of].
  rewrite (set_deltas_loop_nested_raises _ _ _ _ Hleaf Hassert Hbefore
             Hnested).
  reflexivity.
Qed.

Example nested_block_set_deltas :
  nested_block
  = ResidualModuleObj 20
      [SequentialObj 21 true [conv 3; residual_block; conv 4]
         [conv 3; residual_block; conv 4]] None
  /\ ResidualModule_set_deltas image_shape class_set_deltas nested_block
       (Some four_buffers) 0 error_state
     = Raise AssertionError.
Proof. split; reflexivity. Qed.

(** ** The branches the constructors make of their argument *)

Lemma wrap_branches_branch_of dflt (elems : list element) :
  forall acc n ls n',
  wrap_branches dflt elems acc n = Ok (ls, n') ->
  exists new,
    ls = acc ++ new
    /\ Forall2 (branch_of dflt) (List.filter compatible elems) new.
Proof.
  induction elems as [|e elems IH]; intros acc n ls n'; simpl.
  - intros [= <- <-]. exists []. rewrite app_nil_r. split; constructor.
  - destruct e as [l|items|x]; simpl.
    + destruct (bool_decide (type_of l = TSequential)) eqn:Ht.
      * intros Hw. apply IH in Hw as (new & -> & Hnew).
        exists (l :: new). rewrite <- app_assoc. split; [reflexivity|].
        constructor; [|exact Hnew]. simpl. rewrite Ht. reflexivity.
      * unfold ctor_bind.
        destruct (Sequential_init dflt _ n) as [[s m]|ex] eqn:E;
          [|discriminate].
        apply Sequential_init_layers in E as [-> ->].
        intros Hw. apply IH in Hw as (new & -> & Hnew).
        eexists (_ :: new). rewrite <- app_assoc. split; [reflexivity|].
        constructor; [|exact Hnew]. simpl. rewrite Ht.
        eexists _, _. reflexivity.
    + unfold ctor_bind.
      destruct (Sequential_init dflt _ n) as [[s m]|ex] eqn:E;
        [|discriminate].
      apply Sequential_init_layers in E as [-> ->].
      intros Hw. apply IH in Hw as (new & -> & Hnew).
      eexists (_ :: new). rewrite <- app_assoc. split; [reflexivity|].
      constructor; [|exact Hnew]. simpl. eexists _, _. reflexivity.
    + apply IH.
Qed.

(** X27.  The branches of a Tree, a MergeBroadcast or a MergeMultistream
    are, in order, what the constructor makes of the elements of its
    argument that are layers or lists: a Sequential is kept as the very
    object it was given, a list becomes a new Sequential of its flattened
    layers, and any other layer a new Sequential of that one layer. *)
Theorem branches_of_elements
  (dflt ms : bool) (elems : list element) (merge : string)
  (alphas : option (list Q)) (n n' : oid) (self : layer) :
  Tree_init dflt elems alphas n = Ok (self, n')
  \/ MergeBroadcast_init_as dflt ms elems merge alphas n = Ok (self, n') ->
  Forall2 (branch_of dflt) (List.filter compatible elems) (layers_of self)
  /\ length (layers_of self) = length (List.filter compatible elems).
Proof.
  intros Hinit.
  assert (Hw : wrap_branches dflt elems [] (Datatypes.S n)
               = Ok (layers_of self, n')).
  { destruct Hinit as [Hinit|Hinit].
    - apply Tree_init_ok in Hinit as (ls & bs & Hw & _ & ->). exact Hw.
    - apply MergeBroadcast_init_ok in Hinit as (ls & bs & Hw & _ & _ & ->).
      exact Hw. }
  apply wrap_branches_branch_of in Hw as (new & Hls & Hnew).
  simpl in Hls. rewrite Hls. split; [exact Hnew|].
  symmetry. apply (Forall2_length _ _ _ Hnew).
Qed.

Lemma branches_of_elements_witness :
  Forall2 (branch_of true) (List.filter compatible mixed_elements)
    (layers_of mixed_tree)
  /\ length (layers_of mixed_tree)
     = length (List.filter compatible mixed_elements).
Proof.
  apply (branches_of_elements true false mixed_elements "depth" None 20 22).
  left. reflexivity.
Defined.

(** ** Terminals of constructed containers *)

Lemma get_terminal_list (self : layer) :
  type_of self = TTree \/ type_of self = TMergeBroadcast
  \/ type_of self = TMergeMultistream ->
  get_terminal self
  = match get_terminals (layers_of self) with
    | Raise e => Raise e
    | Ok ts => Ok (NIter PyList ts)
    end.
Proof.
  assert (Heach : forall ls,
    (fix each (ls : list layer) : result (list nested) :=
       match ls with
       | [] => Ok []
       | l :: rest =>
           match get_terminal l with
           | Raise e => Raise e
           | Ok t =>
               match each rest with
               | Raise e => Raise e
               | Ok ts => Ok (t :: ts)
               end
           end
       end) ls = get_terminals ls).
  { induction ls as [|l ls IH]; [reflexivity|].
    simpl. rewrite IH. reflexivity. }
  destruct self as [x|o own ls _ls|o own ls a b|o ms ls b a m|o ls sk];
    intros [H|[H|H]]; try discriminate H;
    cbn [get_terminal layers_of]; rewrite Heach; reflexivity.
Qed.

Lemma built_nonempty dflt o own ls _ls :
  built dflt (SequentialObj o own ls _ls) = true ->
  forallb (built dflt) ls = true /\ exists l, last ls = Some l.
Proof.
  cbn [built]. intros H.
  apply andb_true_iff in H as [H Hall].
  apply andb_true_iff in H as [_ Hroot].
  split; [exact Hall|].
  destruct ls as [|l ls]; [discriminate Hroot|].
  destruct (last (l :: ls)) as [l0|] eqn:E; [exists l0; reflexivity|].
  apply last_None in E. discriminate E.
Qed.

Lemma get_terminal_built dflt (l : layer) :
  built dflt l = true ->
  exists t,
    get_terminal l = Ok t
    /\ Forall (fun x => is_container x = false /\ x ∈ leaves l) (flatten t).
Proof.
  assert (Hlist : forall ls,
    Forall (fun l => built dflt l = true ->
              exists t, get_terminal l = Ok t
                /\ Forall (fun x => is_container x = false /\ x ∈ leaves l)
                     (flatten t)) ls ->
    forallb (built dflt) ls = true ->
    exists ts,
      get_terminals ls = Ok ts
      /\ Forall (fun x => is_container x = false
                          /\ x ∈ flat_map leaves ls)
           (flat_map flatten ts)).
  { induction 1 as [|c cs Hc _ IH]; intros Hb.
    - exists []. split; [reflexivity|constructor].
    - simpl in Hb. apply andb_true_iff in Hb as [Hbc Hbs].
      destruct (Hc Hbc) as (t & Ht & Hin).
      destruct (IH Hbs) as (ts & Hts & Hins).
      exists (t :: ts). cbn [get_terminals]. rewrite Ht, Hts.
      split; [reflexivity|]. cbn [flat_map]. apply Forall_app. split.
      + eapply Forall_impl; [exact Hin|]. simpl. intros x [Hx1 Hx2].
        split; [exact Hx1|]. apply elem_of_app. left. exact Hx2.
      + eapply Forall_impl; [exact Hins|]. simpl. intros x [Hx1 Hx2].
        split; [exact Hx1|]. apply elem_of_app. right. exact Hx2. }
  induction l as [x|o own ls _ls IH|o own ls a b IH|o ms ls b a m IH|o ls sk IH]
    using layer_children_ind; intros Hb.
  - exists (NLayer (Leaf x)). split; [reflexivity|].
    constructor; [|constructor]. split; [reflexivity|]. simpl. left.
  - apply built_nonempty in Hb as [Hall [l0 Hl0]].
    rewrite get_terminal_Sequential, Hl0.
    assert (Hin : l0 ∈ ls).
    { rewrite last_lookup in Hl0. apply (list_elem_of_lookup_2 _ _ _ Hl0). }
    rewrite Forall_forall in IH.
    destruct (IH l0 Hin) as (t & Ht & Hleaf).
    { rewrite forallb_forall in Hall. apply Hall, list_elem_of_In, Hin. }
    exists t. split; [exact Ht|].
    eapply Forall_impl; [exact Hleaf|]. simpl. intros x [Hx1 Hx2].
    split; [exact Hx1|].
    apply list_elem_of_In, in_flat_map. exists l0.
    split; apply list_elem_of_In; assumption.
  - rewrite get_terminal_list by (left; reflexivity). cbn [layers_of].
    cbn [built] in Hb. apply andb_true_iff in Hb as [_ Hall].
    destruct (Hlist ls IH Hall) as (ts & -> & Hins).
    exists (NIter PyList ts). split; [reflexivity|exact Hins].
  - rewrite get_terminal_list by (destruct ms; simpl; auto).
    cbn [layers_of].
    cbn [built] in Hb. apply andb_true_iff in Hb as [_ Hall].
    destruct (Hlist ls IH Hall) as (ts & -> & Hins).
    exists (NIter PyList ts). split; [reflexivity|exact Hins].
  - discriminate Hb.
Qed.

(** X28.  On a container tree that the constructors of Sequential, Tree,
    MergeBroadcast and MergeMultistream built, [get_terminal] does not
    raise, and what it returns holds leaf layers of that tree alone.  The
    terminal of a Sequential is the terminal of its last layer. *)
Theorem get_terminal_of_built
  (dflt : bool) (l : layer) :
  built dflt l = true ->
  (exists t,
     get_terminal l = Ok t
     /\ Forall (fun x => is_container x = false /\ x ∈ leaves l) (flatten t))
  /\ (type_of l = TSequential ->
      exists l0, last (layers_of l) = Some l0
                 /\ get_terminal l = get_terminal l0).
Proof.
  intros Hb. split; [apply (get_terminal_built dflt l Hb)|].
  intros Ht. apply type_Sequential_inv in Ht as (o & own & ls & _ls & ->).
  apply built_nonempty in Hb as [_ [l0 Hl0]].
  exists l0. split; [exact Hl0|].
  rewrite get_terminal_Sequential. cbn [layers_of] in Hl0. rewrite Hl0.
  reflexivity.
Qed.

Lemma get_terminal_of_built_witness :
  (exists t,
     get_terminal conv_act_chain = Ok t
     /\ Forall (fun x => is_container x = false
                         /\ x ∈ leaves conv_act_chain) (flatten t))
  /\ (type_of conv_act_chain = TSequential ->
      exists l0, last (layers_of conv_act_chain) = Some l0
                 /\ get_terminal conv_act_chain = get_terminal l0).
Proof.
  apply (get_terminal_of_built true conv_act_chain).
  reflexivity.
Defined.

(** ** Forward propagation through the merges *)

Lemma fprop_streams_replicate {S value : Type}
  (layer_fprop : layer -> value -> bool -> S -> result (value * S))
  (ls : list layer) (inputs : value) (inference : bool) : forall s,
  fprop_streams layer_fprop (zip ls (replicate (length ls) inputs))
    inference s
  = fprop_broadcast layer_fprop ls inputs inference s.
Proof.
  induction ls as [|l ls IH]; intros s; simpl; [reflexivity|].
  destruct (branch_fprop layer_fprop l inputs inference s) as [[y s']|e];
    [apply IH|reflexivity].
Qed.

(** X29.  A MergeBroadcast is a MergeMultistream fed the same input on
    every stream: [MergeMultistream.fprop] on as many copies of an input as
    there are branches does what [MergeBroadcast.fprop] does on that
    input.  Both return [self.outputs], whatever the branches return.
    Given fewer inputs than branches, [MergeMultistream.fprop] runs the
    first branches alone and raises no error for the others. *)
Theorem MergeMultistream_fprop_generalises_broadcast {S value : Type}
  (layer_fprop : layer -> value -> bool -> S -> result (value * S))
  (self : layer) (outputs inputs : value) (streams : list value)
  (inference : bool) (s : S) :
  MergeMultistream_fprop layer_fprop self outputs
    (replicate (length (layers_of self)) inputs) inference s
  = MergeBroadcast_fprop layer_fprop self outputs inputs inference s
  /\ (forall out s',
        MergeBroadcast_fprop layer_fprop self outputs inputs inference s
        = Ok (out, s') -> out = outputs)
  /\ (forall out s',
        MergeMultistream_fprop layer_fprop self outputs streams inference s
        = Ok (out, s') -> out = outputs)
  /\ fprop_streams layer_fprop (zip (layers_of self) streams) inference s
     = fprop_streams layer_fprop
         (zip (take (length streams) (layers_of self)) streams) inference s.
Proof.
  split; [|split; [|split]].
  - unfold MergeMultistream_fprop, MergeBroadcast_fprop.
    rewrite fprop_streams_replicate. reflexivity.
  - unfold MergeBroadcast_fprop. intros out s'.
    destruct (fprop_broadcast _ _ _ _ s); [|discriminate].
    intros [= <- _]. reflexivity.
  - unfold MergeMultistream_fprop. intros out s'.
    destruct (fprop_streams _ _ _ s); [|discriminate].
    intros [= <- _]. reflexivity.
  - rewrite zip_with_take_l. reflexivity.
Qed.

(** ** Reconstruction and the descriptor it is handed *)

Lemma desc_children_ind (P : desc -> Prop) :
  (forall typ c args, P (MkDesc typ c args None)) ->
  (forall typ c args ds, Forall P ds -> P (MkDesc typ c args (Some ds))) ->
  forall d, P d.
Proof.
  intros HN HS. fix IH 1. intros [typ c args [ds|]]; [|apply HN].
  apply HS. induction ds as [|d ds IHds]; constructor; [apply IH|exact IHds].
Qed.

Section GenClassStateFacts.

Variable dflt : bool.
Variable leaf_config_after : leaf_class -> desc -> desc.

Lemma gen_class_st_container cls typ c args ds n :
  is_leaf_type cls = false ->
  gen_class_st dflt leaf_config_after cls (MkDesc typ c args (Some ds)) n
  = match gen_children_st dflt leaf_config_after ds n with
    | (Raise e, ds') => (Raise e, MkDesc typ c args (Some ds'))
    | (Ok (children, n'), ds') =>
        match construct dflt cls children args n' with
        | Raise e => (Raise e, MkDesc typ c args None)
        | Ok res => (Ok res, MkDesc typ c args (Some ds'))
        end
    end.
Proof.
  intros Hcls.
  assert (Heach : forall ds n,
    (fix each (ds : list desc) (n : oid)
       : result (list layer * oid) * list desc :=
       match ds with
       | [] => (Ok ([], n), [])
       | (MkDesc t _ _ _ as layer) :: rest =>
           match resolve_class t with
           | Raise e => (Raise e, layer :: rest)
           | Ok ccls =>
               match gen_class_st dflt leaf_config_after ccls layer n with
               | (Raise e, layer') => (Raise e, layer' :: rest)
               | (Ok (x, n1), layer') =>
                   match each rest n1 with
                   | (Raise e, rest') => (Raise e, layer' :: rest')
                   | (Ok (xs, n2), rest') =>
                       (Ok (x :: xs, n2), layer' :: rest')
                   end
               end
           end
       end) ds n = gen_children_st dflt leaf_config_after ds n).
  { induction ds0 as [|[t c0 a0 l0] rest IH]; intros n0; [reflexivity|].
    cbn [gen_children_st]. destruct (resolve_class t); [|reflexivity].
    destruct (gen_class_st dflt leaf_config_after a (MkDesc t c0 a0 l0) n0)
      as [[[x n1]|e] layer']; [|reflexivity].
    rewrite IH. reflexivity. }
  destruct cls; try discriminate Hcls; cbn [gen_class_st]; rewrite Heach;
    destruct (gen_children_st dflt leaf_config_after ds n)
      as [[[children n']|e] ds']; reflexivity.
Qed.

Lemma gen_class_st_result (d : desc) : forall cls n,
  fst (gen_class_st dflt leaf_config_after cls d n) = gen_class dflt cls d n.
Proof.
  induction d as [typ c args|typ c args ds IH] using desc_children_ind;
    intros cls n.
  - destruct cls; reflexivity.
  - destruct (is_leaf_type cls) eqn:Hcls.
    + destruct cls; try discriminate Hcls. reflexivity.
    + rewrite gen_class_st_container, gen_class_container by exact Hcls.
      assert (Hch : forall n,
                fst (gen_children_st dflt leaf_config_after ds n)
                = gen_children dflt ds n).
      { clear -IH. induction IH as [|[t c0 a0 l0] rest Hd _ IHrest];
          intros n; [reflexivity|].
        cbn [gen_children_st gen_children].
        destruct (resolve_class t) as [ccls|e]; [|reflexivity].
        unfold ctor_bind. rewrite <- (Hd ccls n).
        destruct (gen_class_st dflt leaf_config_after ccls
                    (MkDesc t c0 a0 l0) n) as [[[x n1]|e] layer'];
          [|reflexivity].
        cbn [fst]. rewrite <- (IHrest n1).
        destruct (gen_children_st dflt leaf_config_after rest n1)
          as [[[xs n2]|e] rest']; reflexivity. }
      rewrite <- Hch.
      destruct (gen_children_st dflt leaf_config_after ds n)
        as [[[children n']|e] ds']; [|reflexivity].
      cbn [fst]. destruct (construct dflt cls children args n'); reflexivity.
Qed.

Hypothesis leaves_keep_config : forall c d, leaf_config_after c d = d.

Lemma gen_class_st_intact (d : desc) : forall cls n r,
  gen_class dflt cls d n = Ok r ->
  snd (gen_class_st dflt leaf_config_after cls d n) = d.
Proof.
  induction d as [typ c args|typ c args ds IH] using desc_children_ind;
    intros cls n r.
  - destruct cls; try discriminate.
    intros _. apply leaves_keep_config.
  - destruct (is_leaf_type cls) eqn:Hcls.
    + destruct cls; try discriminate Hcls. intros _.
      apply leaves_keep_config.
    + rewrite gen_class_st_container, gen_class_container by exact Hcls.
      assert (Hch : forall n r,
                gen_children dflt ds n = Ok r ->
                gen_children_st dflt leaf_config_after ds n = (Ok r, ds)).
      { clear -IH. induction IH as [|[t c0 a0 l0] rest Hd _ IHrest];
          intros n r.
        - intros [= <-]. reflexivity.
        - cbn [gen_children_st gen_children].
          destruct (resolve_class t) as [ccls|e]; [|discriminate].
          unfold ctor_bind, ctor_ret.
          pose proof (gen_class_st_result (MkDesc t c0 a0 l0) ccls n) as Hr.
          destruct (gen_class dflt ccls (MkDesc t c0 a0 l0) n)
            as [[x n1]|e] eqn:Eg; [|discriminate].
          specialize (Hd ccls n _ Eg).
          destruct (gen_class_st dflt leaf_config_after ccls
                      (MkDesc t c0 a0 l0) n) as [r1 layer'].
          cbn [fst snd] in Hr, Hd. subst r1 layer'.
          destruct (gen_children dflt rest n1) as [[xs n2]|e] eqn:Er;
            [|discriminate].
          rewrite (IHrest n1 _ Er). intros [= <-]. reflexivity. }
      destruct (gen_children dflt ds n) as [[children n']|e] eqn:Ec;
        [|discriminate].
      rewrite (Hch n _ Ec). intros Hcons. rewrite Hcons. reflexivity.
Qed.

End GenClassStateFacts.

Lemma gen_children_st_intact (dflt : bool)
  (leaf_config_after : leaf_class -> desc -> desc) :
  (forall c d, leaf_config_after c d = d) ->
  forall ds n r,
    gen_children dflt ds n = Ok r ->
    gen_children_st dflt leaf_config_after ds n = (Ok r, ds).
Proof.
  intros Hleaf. induction ds as [|[t c0 a0 l0] rest IH]; intros n r.
  - intros [= <-]. reflexivity.
  - cbn [gen_children_st gen_children].
    destruct (resolve_class t) as [ccls|e]; [|discriminate].
    unfold ctor_bind, ctor_ret.
    pose proof (gen_class_st_result dflt leaf_config_after
                  (MkDesc t c0 a0 l0) ccls n) as Hr.
    destruct (gen_class dflt ccls (MkDesc t c0 a0 l0) n)
      as [[x n1]|e] eqn:Eg; [|discriminate].
    pose proof (gen_class_st_intact dflt leaf_config_after Hleaf
                  _ ccls n _ Eg) as Hd.
    destruct (gen_class_st dflt leaf_config_after ccls
                (MkDesc t c0 a0 l0) n) as [r1 layer'].
    cbn [fst snd] in Hr, Hd. subst r1 layer'.
    destruct (gen_children dflt rest n1) as [[xs n2]|e] eqn:Er;
      [|discriminate].
    rewrite (IH n1 _ Er). intros [= <-]. reflexivity.
Qed.

(** X30.  [gen_class] takes ['layers'] out of the descriptor while the
    constructor runs and puts it back afterwards.  With leaf classes that
    leave their own descriptors alone, a call that returns a layer hands the
    descriptor back as it was, so the description of a built container tree
    survives its own reconstruction; a call whose children are all
    generated but whose constructor raises leaves the descriptor without
    ['layers'], and a second [gen_class] of a container class on it raises
    KeyError. *)
Theorem gen_class_descriptor_after (dflt : bool)
  (leaf_config_after : leaf_class -> desc -> desc)
  (Hleaf : forall c d, leaf_config_after c d = d) :
  (forall cls d n r,
     gen_class dflt cls d n = Ok r ->
     gen_class_st dflt leaf_config_after cls d n = (Ok r, d))
  /\ (forall l n,
        built dflt l = true ->
        exists l' n',
          gen_class_st dflt leaf_config_after (type_of l)
            (get_description l) n = (Ok (l', n'), get_description l)
          /\ same_shape l l')
  /\ (forall cls typ c args ds n children n1 e,
        is_leaf_type cls = false ->
        gen_children dflt ds n = Ok (children, n1) ->
        construct dflt cls children args n1 = Raise e ->
        gen_class_st dflt leaf_config_after cls
          (MkDesc typ c args (Some ds)) n
        = (Raise e, MkDesc typ c args None)
        /\ forall cls' m,
             is_leaf_type cls' = false ->
             gen_class dflt cls' (MkDesc typ c args None) m
             = Raise KeyError).
Proof.
  assert (Hok : forall cls d n r,
            gen_class dflt cls d n = Ok r ->
            gen_class_st dflt leaf_config_after cls d n = (Ok r, d)).
  { intros cls d n r Hg.
    pose proof (gen_class_st_result dflt leaf_config_after d cls n) as Hr.
    pose proof (gen_class_st_intact dflt leaf_config_after Hleaf
                  d cls n r Hg) as Hd.
    destruct (gen_class_st dflt leaf_config_after cls d n) as [r1 d1].
    cbn [fst snd] in Hr, Hd. congruence. }
  split; [exact Hok|split].
  - intros l n Hb.
    destruct (round_trip_same_shape dflt l Hb n) as (l' & n' & Hg & Hs).
    exists l', n'. split; [apply Hok, Hg|exact Hs].
  - intros cls typ c args ds n children n1 e Hcls Hch Hcons. split.
    + rewrite gen_class_st_container by exact Hcls.
      rewrite (gen_children_st_intact dflt leaf_config_after Hleaf
                 ds n _ Hch), Hcons.
      reflexivity.
    + intros cls' m Hcls'. destruct cls'; try discriminate Hcls'; reflexivity.
Qed.

Lemma gen_class_descriptor_after_witness :
  (exists l' n',
     gen_class_st true (fun _ d => d) TTree
       (get_description two_branch_tree) 100
     = (Ok (l', n'), get_description two_branch_tree)
     /\ same_shape two_branch_tree l')
  /\ match get_description residual_block with
     | MkDesc typ c args _ =>
         gen_class_st true (fun _ d => d) TResidualModule
           (get_description residual_block) 100
         = (Raise IndexError, MkDesc typ c args None)
     end.
Proof.
  pose proof (gen_class_descriptor_after true (fun _ d => d)
                (fun _ _ => eq_refl)) as (_ & Hbuilt & Hfail).
  split.
  - apply (Hbuilt two_branch_tree 100). reflexivity.
  - unfold residual_block. cbn [get_description].
    eapply proj1, Hfail; [reflexivity | vm_compute; reflexivity
                         | vm_compute; reflexivity].
Defined.
